(** * open-rts: the authoritative game server, embedded in Rocq

    A shallow embedding of [src/lib/game-server]: the types and stat tables
    of [types.ts]; the [GameEngine] class and the room manager (the two
    modules of [room-manager.ts]); the action validator ([validator.ts]);
    the anti-cheat resource check ([anticheat.ts]); the win condition
    manager.

    Conventions.
    - A JavaScript [number] is a rational [Q] kept in lowest terms.  Where
      a comparison with a threshold decides what the code does (distances,
      the placement tests, the anti-cheat drift) the operations round as
      binary64 does ([Num.round64], [Num.sqrt], [Num.hypot] and the
      operations written [+~], [-~], [*~], [/~]); elsewhere the arithmetic
      is exact.  Counters that only ever hold integers ([tick], queue
      progress, cooldowns, upgrade levels, [idCounter]) are [Z] or [nat].
    - A [Map<string, V>] is an association list in insertion order, because
      the engine iterates its maps and the order decides outcomes.  Objects
      live in their map and are updated under their key, which is how the
      source's in-place assignments reach every holder of the object.
    - [Date.now()], [Math.random()] and the module-level [idCounter] are the
      ambient [World]; code that touches them, or that can throw, lives in
      the monad [M].
    - Field checks the type checker already enforces ([typeof x === 'number'],
      membership of an enum) have no counterpart. *)

From Stdlib Require Import ZArith QArith Qround Qabs List String Ascii Bool Lia.
From Stdlib Require Import DecimalString.
Import ListNotations.

Local Open Scope string_scope.
Local Open Scope Z_scope.

(* ===================================================================== *)
(** * JavaScript numbers                                                   *)
(* ===================================================================== *)

Module Num.

Definition number := Q.

Definition ofZ (z : Z) : number := inject_Z z.

Definition add (a b : number) : number := Qred (a + b).
Definition sub (a b : number) : number := Qred (a - b).
Definition mul (a b : number) : number := Qred (a * b).
Definition div (a b : number) : number := Qred (a / b).

Definition ltb (a b : number) : bool :=
  match a ?= b with Lt => true | _ => false end%Q.
Definition leb (a b : number) : bool :=
  match a ?= b with Gt => false | _ => true end%Q.
Definition gtb (a b : number) : bool := ltb b a.
Definition geb (a b : number) : bool := leb b a.
Definition eqb (a b : number) : bool := Qeq_bool a b.

(** [Math.max], [Math.min], [Math.abs], [Math.floor], [Math.ceil]. *)
Definition max (a b : number) : number := if ltb a b then b else a.
Definition min (a b : number) : number := if ltb b a then b else a.
Definition abs (a : number) : number := Qabs a.
Definition floor (a : number) : Z := Qfloor a.
Definition ceil (a : number) : Z := Qceiling a.

(** ** Binary64 rounding

    A finite double is [m * 2^e] with [|m| < 2^53] and [e >= -1074].  The
    operations below give the double nearest to the exact result, ties to
    the even significand, as IEEE 754 prescribes for [+], [-], [*], [/] and
    [Math.sqrt].  Results beyond the largest double, where the source has
    [Infinity], and [NaN] are not represented. *)

(** [floor(log2 a)] for [a > 0]. *)
Definition ilog2 (a : Q) : Z :=
  let k := Z.log2 (Qnum a) - Z.log2 (Z.pos (Qden a)) in
  if Qle_bool (2 ^ k)%Q a then k else k - 1.

(** The integer nearest to [m], ties to the even one. *)
Definition roundHalfEven (m : Q) : Z :=
  let f := Qfloor m in
  match (m - inject_Z f ?= 1 # 2)%Q with
  | Lt => f
  | Gt => f + 1
  | Eq => if Z.even f then f else f + 1
  end.

(** The double nearest to [q]: 53 significant bits, and no bit below
    [2^-1074]. *)
Definition round64 (q : Q) : number :=
  if Qeq_bool q 0 then 0%Q
  else
    let e := Z.max (ilog2 (Qabs q) - 52) (-1074) in
    Qred (inject_Z (roundHalfEven (q / 2 ^ e)%Q) * 2 ^ e)%Q.

(** [a + b], [a - b], [a * b], [a / b] on doubles. *)
Definition fadd (a b : number) : number := round64 (a + b)%Q.
Definition fsub (a b : number) : number := round64 (a - b)%Q.
Definition fmul (a b : number) : number := round64 (a * b)%Q.
Definition fdiv (a b : number) : number := round64 (a / b)%Q.

(** [Math.sqrt]: the double nearest to the square root.  With
    [2^e] the unit in the last place of the result, the significand is the
    integer nearest to [sqrt (a / 4^e)]. *)
Definition sqrt (a : number) : number :=
  if Qle_bool a 0 then 0%Q
  else
    let e := ilog2 a / 2 - 52 in
    let y := (a / 4 ^ e)%Q in
    let f := Z.sqrt (Qfloor y) in
    let half := (inject_Z f + (1 # 2))%Q in
    let n := match (y ?= half * half)%Q with
             | Lt => f
             | Gt => f + 1
             | Eq => if Z.even f then f else f + 1
             end in
    Qred (inject_Z n * 2 ^ e)%Q.

(** [Math.floor(r * k)] for a draw [r = s / 233280] of the engine's seeded
    generator.  The binary64 product is the exact product rounded once
    more; over the generator's 233280 states and the multipliers the map
    generator uses (10, 15, 56, 700, 1500) the rounded product drops below
    the exact integer value only for [0.35 * 700] and [0.7 * 700]. *)
Definition floorMul (r : number) (k : Z) : Z :=
  let exact := Qfloor (r * inject_Z k) in
  if Z.eqb k 700 && (Qeq_bool r (7 # 20) || Qeq_bool r (7 # 10))
  then exact - 1 else exact.

(** [Math.sqrt(dx * dx + dy * dy)], where [dx] and [dy] are differences the
    source has just computed: they are rounded on the way in. *)
Definition hypot (dx dy : number) : number :=
  let dx := round64 dx in
  let dy := round64 dy in
  sqrt (fadd (fmul dx dx) (fmul dy dy)).

End Num.

Abbreviation number := Num.number.

Declare Scope num_scope.
Delimit Scope num_scope with num.
Infix "+" := Num.add : num_scope.
Infix "-" := Num.sub : num_scope.
Infix "*" := Num.mul : num_scope.
Infix "/" := Num.div : num_scope.
Infix "<?" := Num.ltb : num_scope.
Infix "<=?" := Num.leb : num_scope.
Infix ">?" := Num.gtb : num_scope.
Infix ">=?" := Num.geb : num_scope.
Infix "+~" := Num.fadd (at level 50, left associativity) : num_scope.
Infix "-~" := Num.fsub (at level 50, left associativity) : num_scope.
Infix "*~" := Num.fmul (at level 40, left associativity) : num_scope.
Infix "/~" := Num.fdiv (at level 40, left associativity) : num_scope.

(** Numeric literal [n] of the source. *)
Notation "$ z" := (Num.ofZ z) (at level 5, z at level 0, format "$ z").

(* ===================================================================== *)
(** * JavaScript [Map<string, V>]: insertion-ordered association lists     *)
(* ===================================================================== *)

Module JsMap.

Definition t (V : Type) := list (string * V).

Definition empty {V} : t V := [].

Fixpoint get {V} (m : t V) (k : string) : option V :=
  match m with
  | [] => None
  | (k', v) :: m' => if String.eqb k' k then Some v else get m' k
  end.

Definition has {V} (m : t V) (k : string) : bool :=
  match get m k with Some _ => true | None => false end.

(** [set] keeps the position of an existing key and appends a new one. *)
Fixpoint set {V} (m : t V) (k : string) (v : V) : t V :=
  match m with
  | [] => [(k, v)]
  | (k', v') :: m' =>
      if String.eqb k' k then (k, v) :: m' else (k', v') :: set m' k v
  end.

Fixpoint delete {V} (m : t V) (k : string) : t V :=
  match m with
  | [] => []
  | (k', v') :: m' =>
      if String.eqb k' k then m' else (k', v') :: delete m' k
  end.

Definition keys {V} (m : t V) : list string := map fst m.
Definition values {V} (m : t V) : list V := map snd m.
Definition size {V} (m : t V) : nat := List.length m.

End JsMap.

(* ===================================================================== *)
(** * The ambient world: clock, random source, id counter                  *)
(* ===================================================================== *)

(** [clock] and [rng] are the successive answers of [Date.now()] and
    [Math.random()]; the cursors count the calls made so far.  [idCounter]
    is the module-level variable of the engine module. *)
Record World := mkWorld {
  clock : nat -> Z;
  clock_reads : nat;
  rng : nat -> number;
  rng_draws : nat;
  idCounter : nat
}.

(** A computation reads and advances the world and either returns or throws
    ([throw new Error(msg)]). *)
Inductive Result (A : Type) : Type :=
| Ok (a : A)
| Throw (msg : string).
Arguments Ok {A} a.
Arguments Throw {A} msg.

Definition M (A : Type) : Type := World -> Result A * World.

Definition ret {A} (a : A) : M A := fun w => (Ok a, w).
Definition throw {A} (msg : string) : M A := fun w => (Throw msg, w).
Definition bind {A B} (m : M A) (f : A -> M B) : M B :=
  fun w =>
    match m w with
    | (Ok a, w') => f a w'
    | (Throw msg, w') => (Throw msg, w')
    end.

Notation "'do' x <- c1 ; c2" := (bind c1 (fun x => c2))
  (at level 10, x name, c1 at level 100, c2 at level 200).
Notation "'do' ' pat <- c1 ; c2" :=
  (bind c1 (fun x => match x with pat => c2 end))
  (at level 10, pat pattern, c1 at level 100, c2 at level 200).

Definition dateNow : M Z := fun w =>
  (Ok (clock w (clock_reads w)),
   mkWorld (clock w) (S (clock_reads w)) (rng w) (rng_draws w) (idCounter w)).

Definition mathRandom : M number := fun w =>
  (Ok (rng w (rng_draws w)),
   mkWorld (clock w) (clock_reads w) (rng w) (S (rng_draws w)) (idCounter w)).

(** [idCounter++] *)
Definition nextIdCounter : M nat := fun w =>
  (Ok (idCounter w),
   mkWorld (clock w) (clock_reads w) (rng w) (rng_draws w) (S (idCounter w))).

(** [foldM f xs s]: a [for ... of] loop over [xs] whose body [f] threads the
    loop state and the world. *)
Fixpoint foldM {A S} (f : S -> A -> M S) (xs : list A) (s : S) : M S :=
  match xs with
  | [] => ret s
  | x :: xs' => do s' <- f s x; foldM f xs' s'
  end.

(** ** Rendering of ids *)

Definition showZ (z : Z) : string := NilZero.string_of_int (Z.to_int z).
Definition showNat (n : nat) : string := NilZero.string_of_uint (Nat.to_uint n).

Definition base36_digit (d : Z) : ascii :=
  match get (Z.to_nat d) "0123456789abcdefghijklmnopqrstuvwxyz" with
  | Some c => c
  | None => "0"%char
  end.

(** The first [n] digits of the base-36 expansion of a fraction in [0, 1):
    [r.toString(36).substring(2, 2 + n)]. *)
Fixpoint base36_frac (n : nat) (r : number) : string :=
  match n with
  | O => ""
  | S n' =>
      if Num.eqb r $0 then ""
      else
        let r36 := (r * $36)%num in
        let d := Num.floor r36 in
        String (base36_digit d) (base36_frac n' (r36 - $d)%num)
  end.

(** [generateId]:
    [`${Date.now()}-${idCounter++}-${Math.random().toString(36).substring(2, 9)}`] *)
Definition generateId : M string :=
  do t <- dateNow;
  do c <- nextIdCounter;
  do r <- mathRandom;
  ret (showZ t ++ "-" ++ showNat c ++ "-" ++ base36_frac 7 r).

(* ===================================================================== *)
(** * types.ts                                                             *)
(* ===================================================================== *)

Inductive UnitType := worker | soldier | archer | healer | catapult.
Inductive BuildingType :=
  base | barracks | farm | tower | blacksmith | siegeWorkshop | wall.
Inductive UpgradeType := upAttack | upDefense | upRange.
Inductive ResourceType := resGold | resWood.
Inductive TileType :=
  tGrass | tForest | tWater | tMountain | tGold | tSand | tDirt.
Inductive UnitState :=
  idle | moving | attacking | gathering | returning | building | healing
  | patrol | attackMove | holdPosition.
Inductive Team := host | guest.
Inductive Difficulty := easy | normal | hard.
Inductive ProjectileType := arrow | heal | boulder.

Scheme Equality for UnitType.
Scheme Equality for BuildingType.
Scheme Equality for TileType.
Scheme Equality for UnitState.
Scheme Equality for Team.
Scheme Equality for ProjectileType.

Record Position := mkPosition { px : number; py : number }.

Record Resource := mkResource {
  r_id : string;
  r_type : ResourceType;
  r_x : number;
  r_y : number;
  r_amount : number;
  r_maxAmount : number
}.

Record GameMap := mkGameMap {
  width : Z;
  height : Z;
  tileSize : Z;
  tiles : list (list TileType);
  map_resources : list Resource
}.

Record ProductionQueueItem := mkQueueItem {
  q_id : string;
  q_type : UnitType;
  q_progress : Z;
  q_queuedAt : Z
}.

Record Unit := mkUnit {
  u_id : string;
  u_ownerId : string;
  u_x : number;
  u_y : number;
  u_hp : number;
  u_maxHp : number;
  u_size : number;
  u_type : UnitType;
  u_state : UnitState;
  u_targetId : option string;
  u_targetPosition : option Position;
  u_waypoints : list Position;
  u_attackRange : number;
  u_attackDamage : number;
  u_attackCooldown : Z;
  u_attackCooldownRemaining : Z;
  u_moveSpeed : number;
  u_armor : number;
  u_gatherAmount : number;
  u_gatherRate : number;
  u_isUnderAttack : bool;
  u_lastAttackTime : Z
}.

Record Building := mkBuilding {
  b_id : string;
  b_ownerId : string;
  b_x : number;
  b_y : number;
  b_hp : number;
  b_maxHp : number;
  b_size : number;
  b_type : BuildingType;
  b_progress : number;
  b_productionQueue : list ProductionQueueItem;
  b_rallyPoint : option Position;
  b_isUnderAttack : bool;
  b_lastAttackTime : Z
}.

Record Projectile := mkProjectile {
  pj_id : string;
  pj_type : ProjectileType;
  pj_x : number;
  pj_y : number;
  pj_targetId : string;
  pj_targetPosition : Position;
  pj_speed : number;
  pj_damage : number;
  pj_ownerId : string;
  pj_splashRadius : number;
  pj_createdAt : Z
}.

Record PlayerResources := mkResources {
  gold : number;
  wood : number;
  supply : number;
  maxSupply : number
}.

Record PlayerUpgrades := mkUpgrades {
  attack : Z;
  defense : Z;
  range : Z
}.

Record Player := mkPlayer {
  pl_id : string;
  pl_name : string;
  pl_team : Team;
  pl_color : string;
  pl_resources : PlayerResources;
  pl_upgrades : PlayerUpgrades;
  pl_ready : bool
}.

Record DiscoveredTile := mkDiscovered {
  dt_x : Z;
  dt_y : Z;
  dt_discoveredAt : Z
}.

(** ** Actions (client to server) *)

Inductive ActionType :=
| A_move (unitId : string) (target : Position)
| A_attack (unitId : string) (targetId : string)
| A_stop (unitId : string)
| A_holdPosition (unitId : string)
| A_patrol (unitId : string) (target : Position)
| A_attackMove (unitId : string) (target : Position)
| A_attackGround (unitId : string) (target : Position)
| A_produce (buildingId : string) (unitType : UnitType)
| A_build (buildingType : BuildingType) (position : Position)
| A_cancelProduction (buildingId : string) (queueItemId : string)
| A_setRallyPoint (buildingId : string) (position : Position)
| A_upgrade (buildingId : string) (upgradeType : UpgradeType)
| A_gather (unitId : string) (resourceId : string)
| A_returnResources (unitId : string).

(** ** Constants *)

Record Cost := mkCost { c_gold : number; c_wood : number }.

Record UnitStats := mkUnitStats {
  us_hp : number;
  us_damage : number;
  us_range : number;
  us_speed : number;
  us_armor : number;
  us_cost : Cost;
  us_supply : number;
  us_buildTime : Z;
  us_gatherAmount : option number;
  us_gatherRate : option number;
  us_splashRadius : option number
}.

Definition UNIT_STATS (t : UnitType) : UnitStats :=
  match t with
  | worker =>
      mkUnitStats $50 $3 $5 $2 $0 (mkCost $50 $0) $1 480 (Some $8) (Some $60) None
  | soldier =>
      mkUnitStats $80 $10 $10 (9 # 5)%Q $1 (mkCost $80 $20) $1 720 None None None
  | archer =>
      mkUnitStats $60 $8 $150 (9 # 5)%Q $0 (mkCost $60 $40) $1 600 None None None
  | healer =>
      mkUnitStats $60 $(-8) $100 (9 # 5)%Q $0 (mkCost $80 $30) $1 660 None None None
  | catapult =>
      mkUnitStats $120 $40 $200 (6 # 5)%Q $0 (mkCost $120 $80) $3 900 None None (Some $50)
  end.

Record BuildingStats := mkBuildingStats {
  bs_hp : number;
  bs_size : number;
  bs_cost : Cost;
  bs_supply : option number;
  bs_buildTime : Z;
  bs_attackDamage : option number;
  bs_attackRange : option number
}.

Definition BUILDING_STATS (t : BuildingType) : BuildingStats :=
  match t with
  | base => mkBuildingStats $800 $96 (mkCost $0 $0) (Some $10) 0 None None
  | barracks => mkBuildingStats $400 $80 (mkCost $120 $60) None 1800 None None
  | farm => mkBuildingStats $200 $80 (mkCost $60 $80) (Some $8) 1200 None None
  | tower => mkBuildingStats $300 $48 (mkCost $100 $50) None 1500 (Some $20) (Some $150)
  | blacksmith => mkBuildingStats $350 $80 (mkCost $150 $100) None 2100 None None
  | siegeWorkshop => mkBuildingStats $450 $80 (mkCost $180 $120) None 2400 None None
  | wall => mkBuildingStats $500 $40 (mkCost $20 $10) None 600 None None
  end.

Definition VISION_RANGE : number := $200.

(** JavaScript truthiness of a number ([0] is falsy) and [a || b]. *)
Definition truthy (a : number) : bool := negb (Num.eqb a $0).
Definition orElse (a : option number) (b : number) : number :=
  match a with
  | Some v => if truthy v then v else b
  | None => b
  end.

(* ===================================================================== *)
(** * The game engine: class GameEngine                                    *)
(* ===================================================================== *)

Record GameEngine := mkEngine {
  e_tick : Z;
  e_map : GameMap;
  e_units : JsMap.t Unit;
  e_buildings : JsMap.t Building;
  e_resources : JsMap.t Resource;
  e_projectiles : list Projectile;
  e_players : JsMap.t Player;
  e_discoveredTiles : JsMap.t (list DiscoveredTile);
  e_gameOver : bool;
  e_winner : option string;
  e_winnerReason : option string;
  e_difficulty : Difficulty;
  e_aiEnabled : bool;
  e_aiPlayerId : option string
}.

(** ** Initialization *)

(** One call of the closure returned by [seededRandom]: the state [s] is
    advanced and [s / 233280] returned.  [%] is the truncating remainder.
    The only seeds the server constructs an engine with are the integers
    [createRoom] draws, [Math.floor(Math.random() * 1000000)]: from 0 to
    999999.  For them every state is an integer from 0 to 233279, every
    intermediate value is below 2^53, and the binary64 arithmetic of the
    source is exact, the quotient [s / 233280] aside, which is compared
    with thresholds and scaled as [Num.floorMul] describes.  (From about
    9.7e11 upwards the first product is rounded in the source; a negative
    seed gives negative draws, for which [Num.floorMul] was not derived.
    What is proved of the generator is proved for the seeds [createRoom]
    draws.) *)
Definition seededRandom (s : Z) : number * Z :=
  let s' := Z.rem (s * 9301 + 49297) 233280 in
  (($s' / $233280)%num, s').

Definition zrange (n : nat) : list Z := map Z.of_nat (seq 0 n).

Definition terrainTile (x y : Z) (s : Z) : TileType * Z :=
  let isPlayerSpawn := (x <? 5) && (y <? 5) in
  let isEnemySpawn := (x >? 54) && (y >? 54) in
  if isPlayerSpawn || isEnemySpawn then (tGrass, s)
  else
    let (r, s') := seededRandom s in
    ((if r <? (1 # 2)%Q then tGrass
      else if r <? (7 # 10)%Q then tForest
      else if r <? (17 # 20)%Q then tDirt
      else if r <? (23 # 25)%Q then tSand
      else if r <? (24 # 25)%Q then tGold
      else tWater)%num, s').

Fixpoint terrainRow (y : Z) (xs : list Z) (s : Z) : list TileType * Z :=
  match xs with
  | [] => ([], s)
  | x :: xs' =>
      let (t, s1) := terrainTile x y s in
      let (row, s2) := terrainRow y xs' s1 in
      (t :: row, s2)
  end.

Fixpoint terrainRows (w : nat) (ys : list Z) (s : Z) : list (list TileType) * Z :=
  match ys with
  | [] => ([], s)
  | y :: ys' =>
      let (row, s1) := terrainRow y (zrange w) s in
      let (rows, s2) := terrainRows w ys' s1 in
      (row :: rows, s2)
  end.

(** [tiles[y]]; [None] is [undefined]. *)
Definition rowAt (ts : list (list TileType)) (y : Z) : option (list TileType) :=
  if y <? 0 then None else nth_error ts (Z.to_nat y).

(** The tile in column [x] of row [y], if the grid has one. *)
Definition tileAt (ts : list (list TileType)) (x y : Z) : option TileType :=
  match rowAt ts y with
  | Some row => if x <? 0 then None else nth_error row (Z.to_nat x)
  | None => None
  end.

(** The expression [tiles[y][x]]: where the grid has no row [y],
    [tiles[y]] is [undefined] and reading its property [x] throws a
    [TypeError]; a missing cell of an existing row is [undefined]. *)
Definition readTile (ts : list (list TileType)) (x y : Z) : M (option TileType) :=
  match rowAt ts y with
  | Some _ => ret (tileAt ts x y)
  | None => throw "TypeError: Cannot read properties of undefined"
  end.

Fixpoint setNth {A} (n : nat) (a : A) (l : list A) : list A :=
  match l, n with
  | [], _ => []
  | _ :: l', O => a :: l'
  | b :: l', S n' => b :: setNth n' a l'
  end.

(** [tiles[y][x] = t], which the generator runs after it has read
    [tiles[y][x]], so row [y] exists.  A cell of the row is overwritten.
    (At a negative column the assignment would add a property to the row
    object and leave its elements as they are; with draws in [0, 1) the
    generator only writes cells with both indices between 2 and 57.) *)
Definition setTile (ts : list (list TileType)) (x y : Z) (t : TileType)
  : list (list TileType) :=
  if x <? 0 then ts
  else match rowAt ts y with
       | Some row => setNth (Z.to_nat y) (setNth (Z.to_nat x) t row) ts
       | None => ts
       end.

Definition tileIs (o : option TileType) (t : TileType) : bool :=
  match o with
  | Some t' => TileType_beq t' t
  | None => false
  end.

(** The state the two resource loops of [generateMap] carry along:
    the grid, the resources pushed so far, the generator state. *)
Definition GenState : Type := (list (list TileType) * list Resource * Z)%type.

Definition placeGold (w h tsz : Z) (st : GenState) : M GenState :=
  let '(ts, rs, s) := st in
  let (r1, s1) := seededRandom s in
  let x := Num.floorMul r1 (w - 4) + 2 in
  let (r2, s2) := seededRandom s1 in
  let y := Num.floorMul r2 (h - 4) + 2 in
  do tile <- readTile ts x y;
  if negb (tileIs tile tGrass) then
    do id <- generateId;
    let (r3, s3) := seededRandom s2 in
    ret (setTile ts x y tGold,
         (rs ++ [mkResource id resGold
                   ($(x * tsz) + $tsz / $2)%num ($(y * tsz) + $tsz / $2)%num
                   $(1500 + Num.floorMul r3 1500) $3000])%list,
         s3)
  else ret (ts, rs, s2).

Definition placeForest (w h tsz : Z) (st : GenState) : M GenState :=
  let '(ts, rs, s) := st in
  let (r1, s1) := seededRandom s in
  let x := Num.floorMul r1 (w - 4) + 2 in
  let (r2, s2) := seededRandom s1 in
  let y := Num.floorMul r2 (h - 4) + 2 in
  do tile <- readTile ts x y;
  if negb (tileIs tile tGrass) && negb (tileIs tile tGold) then
    do id <- generateId;
    let (r3, s3) := seededRandom s2 in
    ret (setTile ts x y tForest,
         (rs ++ [mkResource id resWood
                   ($(x * tsz) + $tsz / $2)%num ($(y * tsz) + $tsz / $2)%num
                   $(800 + Num.floorMul r3 700) $1500])%list,
         s3)
  else ret (ts, rs, s2).

(** [for (let i = 0; i < n; i++) body] *)
Fixpoint repeatM {S} (n : nat) (body : S -> M S) (st : S) : M S :=
  match n with
  | O => ret st
  | S n' => do st' <- body st; repeatM n' body st'
  end.

Definition generateMap (seed : Z) : M GameMap :=
  let width := 60 in
  let height := 60 in
  let tileSize := 40 in
  let (ts, s0) := terrainRows (Z.to_nat width) (zrange (Z.to_nat height)) seed in
  let (rg, s1) := seededRandom s0 in
  let numGoldMines := 20 + Num.floorMul rg 10 in
  let (rf, s2) := seededRandom s1 in
  let numForests := 30 + Num.floorMul rf 15 in
  do st1 <- repeatM (Z.to_nat numGoldMines) (placeGold width height tileSize) (ts, [], s2);
  do st2 <- repeatM (Z.to_nat numForests) (placeForest width height tileSize) st1;
  let '(ts', rs', _) := st2 in
  ret (mkGameMap width height tileSize ts' rs').

(** [new GameEngine(mapSeed, difficulty)] *)
Definition newGameEngine (mapSeed : Z) (difficulty : Difficulty) : M GameEngine :=
  do m <- generateMap mapSeed;
  ret (mkEngine 0 m JsMap.empty JsMap.empty JsMap.empty [] JsMap.empty JsMap.empty
         false None None difficulty false None).

(** ** Field updates (JavaScript assigns fields in place) *)

Definition withTick (v : Z) (e : GameEngine) : GameEngine :=
  mkEngine v (e_map e) (e_units e) (e_buildings e) (e_resources e)
    (e_projectiles e) (e_players e) (e_discoveredTiles e) (e_gameOver e)
    (e_winner e) (e_winnerReason e) (e_difficulty e) (e_aiEnabled e) (e_aiPlayerId e).
Definition withUnits (v : JsMap.t Unit) (e : GameEngine) : GameEngine :=
  mkEngine (e_tick e) (e_map e) v (e_buildings e) (e_resources e)
    (e_projectiles e) (e_players e) (e_discoveredTiles e) (e_gameOver e)
    (e_winner e) (e_winnerReason e) (e_difficulty e) (e_aiEnabled e) (e_aiPlayerId e).
Definition withBuildings (v : JsMap.t Building) (e : GameEngine) : GameEngine :=
  mkEngine (e_tick e) (e_map e) (e_units e) v (e_resources e)
    (e_projectiles e) (e_players e) (e_discoveredTiles e) (e_gameOver e)
    (e_winner e) (e_winnerReason e) (e_difficulty e) (e_aiEnabled e) (e_aiPlayerId e).
Definition withResources (v : JsMap.t Resource) (e : GameEngine) : GameEngine :=
  mkEngine (e_tick e) (e_map e) (e_units e) (e_buildings e) v
    (e_projectiles e) (e_players e) (e_discoveredTiles e) (e_gameOver e)
    (e_winner e) (e_winnerReason e) (e_difficulty e) (e_aiEnabled e) (e_aiPlayerId e).
Definition withProjectiles (v : list Projectile) (e : GameEngine) : GameEngine :=
  mkEngine (e_tick e) (e_map e) (e_units e) (e_buildings e) (e_resources e)
    v (e_players e) (e_discoveredTiles e) (e_gameOver e)
    (e_winner e) (e_winnerReason e) (e_difficulty e) (e_aiEnabled e) (e_aiPlayerId e).
Definition withPlayers (v : JsMap.t Player) (e : GameEngine) : GameEngine :=
  mkEngine (e_tick e) (e_map e) (e_units e) (e_buildings e) (e_resources e)
    (e_projectiles e) v (e_discoveredTiles e) (e_gameOver e)
    (e_winner e) (e_winnerReason e) (e_difficulty e) (e_aiEnabled e) (e_aiPlayerId e).
Definition withDiscoveredTiles (v : JsMap.t (list DiscoveredTile)) (e : GameEngine)
  : GameEngine :=
  mkEngine (e_tick e) (e_map e) (e_units e) (e_buildings e) (e_resources e)
    (e_projectiles e) (e_players e) v (e_gameOver e)
    (e_winner e) (e_winnerReason e) (e_difficulty e) (e_aiEnabled e) (e_aiPlayerId e).
Definition withOutcome (over : bool) (winner reason : option string) (e : GameEngine)
  : GameEngine :=
  mkEngine (e_tick e) (e_map e) (e_units e) (e_buildings e) (e_resources e)
    (e_projectiles e) (e_players e) (e_discoveredTiles e) over
    winner reason (e_difficulty e) (e_aiEnabled e) (e_aiPlayerId e).
Definition withAI (enabled : bool) (id : option string) (e : GameEngine) : GameEngine :=
  mkEngine (e_tick e) (e_map e) (e_units e) (e_buildings e) (e_resources e)
    (e_projectiles e) (e_players e) (e_discoveredTiles e) (e_gameOver e)
    (e_winner e) (e_winnerReason e) (e_difficulty e) enabled id.

Definition withPos (x y : number) (u : Unit) : Unit :=
  mkUnit (u_id u) (u_ownerId u) x y (u_hp u) (u_maxHp u) (u_size u) (u_type u)
    (u_state u) (u_targetId u) (u_targetPosition u) (u_waypoints u)
    (u_attackRange u) (u_attackDamage u) (u_attackCooldown u)
    (u_attackCooldownRemaining u) (u_moveSpeed u) (u_armor u) (u_gatherAmount u)
    (u_gatherRate u) (u_isUnderAttack u) (u_lastAttackTime u).
Definition withHp (hp : number) (u : Unit) : Unit :=
  mkUnit (u_id u) (u_ownerId u) (u_x u) (u_y u) hp (u_maxHp u) (u_size u) (u_type u)
    (u_state u) (u_targetId u) (u_targetPosition u) (u_waypoints u)
    (u_attackRange u) (u_attackDamage u) (u_attackCooldown u)
    (u_attackCooldownRemaining u) (u_moveSpeed u) (u_armor u) (u_gatherAmount u)
    (u_gatherRate u) (u_isUnderAttack u) (u_lastAttackTime u).
Definition withState (st : UnitState) (u : Unit) : Unit :=
  mkUnit (u_id u) (u_ownerId u) (u_x u) (u_y u) (u_hp u) (u_maxHp u) (u_size u)
    (u_type u) st (u_targetId u) (u_targetPosition u) (u_waypoints u)
    (u_attackRange u) (u_attackDamage u) (u_attackCooldown u)
    (u_attackCooldownRemaining u) (u_moveSpeed u) (u_armor u) (u_gatherAmount u)
    (u_gatherRate u) (u_isUnderAttack u) (u_lastAttackTime u).
Definition withTargetId (t : option string) (u : Unit) : Unit :=
  mkUnit (u_id u) (u_ownerId u) (u_x u) (u_y u) (u_hp u) (u_maxHp u) (u_size u)
    (u_type u) (u_state u) t (u_targetPosition u) (u_waypoints u)
    (u_attackRange u) (u_attackDamage u) (u_attackCooldown u)
    (u_attackCooldownRemaining u) (u_moveSpeed u) (u_armor u) (u_gatherAmount u)
    (u_gatherRate u) (u_isUnderAttack u) (u_lastAttackTime u).
Definition withTargetPosition (t : option Position) (u : Unit) : Unit :=
  mkUnit (u_id u) (u_ownerId u) (u_x u) (u_y u) (u_hp u) (u_maxHp u) (u_size u)
    (u_type u) (u_state u) (u_targetId u) t (u_waypoints u)
    (u_attackRange u) (u_attackDamage u) (u_attackCooldown u)
    (u_attackCooldownRemaining u) (u_moveSpeed u) (u_armor u) (u_gatherAmount u)
    (u_gatherRate u) (u_isUnderAttack u) (u_lastAttackTime u).
Definition withWaypoints (ws : list Position) (u : Unit) : Unit :=
  mkUnit (u_id u) (u_ownerId u) (u_x u) (u_y u) (u_hp u) (u_maxHp u) (u_size u)
    (u_type u) (u_state u) (u_targetId u) (u_targetPosition u) ws
    (u_attackRange u) (u_attackDamage u) (u_attackCooldown u)
    (u_attackCooldownRemaining u) (u_moveSpeed u) (u_armor u) (u_gatherAmount u)
    (u_gatherRate u) (u_isUnderAttack u) (u_lastAttackTime u).
Definition withCooldownRemaining (c : Z) (u : Unit) : Unit :=
  mkUnit (u_id u) (u_ownerId u) (u_x u) (u_y u) (u_hp u) (u_maxHp u) (u_size u)
    (u_type u) (u_state u) (u_targetId u) (u_targetPosition u) (u_waypoints u)
    (u_attackRange u) (u_attackDamage u) (u_attackCooldown u)
    c (u_moveSpeed u) (u_armor u) (u_gatherAmount u)
    (u_gatherRate u) (u_isUnderAttack u) (u_lastAttackTime u).
Definition withUnderAttack (f : bool) (t : Z) (u : Unit) : Unit :=
  mkUnit (u_id u) (u_ownerId u) (u_x u) (u_y u) (u_hp u) (u_maxHp u) (u_size u)
    (u_type u) (u_state u) (u_targetId u) (u_targetPosition u) (u_waypoints u)
    (u_attackRange u) (u_attackDamage u) (u_attackCooldown u)
    (u_attackCooldownRemaining u) (u_moveSpeed u) (u_armor u) (u_gatherAmount u)
    (u_gatherRate u) f t.

Definition withBHp (hp : number) (b : Building) : Building :=
  mkBuilding (b_id b) (b_ownerId b) (b_x b) (b_y b) hp (b_maxHp b) (b_size b)
    (b_type b) (b_progress b) (b_productionQueue b) (b_rallyPoint b)
    (b_isUnderAttack b) (b_lastAttackTime b).
Definition withProgress (p : number) (b : Building) : Building :=
  mkBuilding (b_id b) (b_ownerId b) (b_x b) (b_y b) (b_hp b) (b_maxHp b) (b_size b)
    (b_type b) p (b_productionQueue b) (b_rallyPoint b)
    (b_isUnderAttack b) (b_lastAttackTime b).
Definition withQueue (q : list ProductionQueueItem) (b : Building) : Building :=
  mkBuilding (b_id b) (b_ownerId b) (b_x b) (b_y b) (b_hp b) (b_maxHp b) (b_size b)
    (b_type b) (b_progress b) q (b_rallyPoint b)
    (b_isUnderAttack b) (b_lastAttackTime b).
Definition withBUnderAttack (f : bool) (t : Z) (b : Building) : Building :=
  mkBuilding (b_id b) (b_ownerId b) (b_x b) (b_y b) (b_hp b) (b_maxHp b) (b_size b)
    (b_type b) (b_progress b) (b_productionQueue b) (b_rallyPoint b) f t.

Definition withPlResources (r : PlayerResources) (p : Player) : Player :=
  mkPlayer (pl_id p) (pl_name p) (pl_team p) (pl_color p) r (pl_upgrades p) (pl_ready p).
Definition withPlUpgrades (u : PlayerUpgrades) (p : Player) : Player :=
  mkPlayer (pl_id p) (pl_name p) (pl_team p) (pl_color p) (pl_resources p) u (pl_ready p).
Definition withGold (g : number) (r : PlayerResources) : PlayerResources :=
  mkResources g (wood r) (supply r) (maxSupply r).
Definition withWood (w : number) (r : PlayerResources) : PlayerResources :=
  mkResources (gold r) w (supply r) (maxSupply r).
Definition withMaxSupply (m : number) (r : PlayerResources) : PlayerResources :=
  mkResources (gold r) (wood r) (supply r) m.

(** The object behind a key is updated in place: its position in the map
    does not change. *)
Definition modifyUnit (id : string) (f : Unit -> Unit) (e : GameEngine) : GameEngine :=
  match JsMap.get (e_units e) id with
  | Some u => withUnits (JsMap.set (e_units e) id (f u)) e
  | None => e
  end.
Definition modifyBuilding (id : string) (f : Building -> Building) (e : GameEngine)
  : GameEngine :=
  match JsMap.get (e_buildings e) id with
  | Some b => withBuildings (JsMap.set (e_buildings e) id (f b)) e
  | None => e
  end.
Definition modifyPlayer (id : string) (f : Player -> Player) (e : GameEngine)
  : GameEngine :=
  match JsMap.get (e_players e) id with
  | Some p => withPlayers (JsMap.set (e_players e) id (f p)) e
  | None => e
  end.

(** [Unit | Building], the targets of attacks. *)
Inductive Entity :=
| EUnit (u : Unit)
| EBuilding (b : Building).

Definition ent_id (t : Entity) : string :=
  match t with EUnit u => u_id u | EBuilding b => b_id b end.
Definition ent_ownerId (t : Entity) : string :=
  match t with EUnit u => u_ownerId u | EBuilding b => b_ownerId b end.
Definition ent_x (t : Entity) : number :=
  match t with EUnit u => u_x u | EBuilding b => b_x b end.
Definition ent_y (t : Entity) : number :=
  match t with EUnit u => u_y u | EBuilding b => b_y b end.
Definition ent_hp (t : Entity) : number :=
  match t with EUnit u => u_hp u | EBuilding b => b_hp b end.
Definition ent_maxHp (t : Entity) : number :=
  match t with EUnit u => u_maxHp u | EBuilding b => b_maxHp b end.

(** [this.units.get(id) || this.buildings.get(id)] *)
Definition getEntity (e : GameEngine) (id : string) : option Entity :=
  match JsMap.get (e_units e) id with
  | Some u => Some (EUnit u)
  | None =>
      match JsMap.get (e_buildings e) id with
      | Some b => Some (EBuilding b)
      | None => None
      end
  end.

(** Truthiness of a [string | null]: [null] and the empty string are falsy. *)
Definition truthyId (o : option string) : option string :=
  match o with
  | Some "" => None
  | _ => o
  end.

(** ** Player management *)

Definition addPlayer (id name : string) (team : Team) (color : string)
  (e : GameEngine) : GameEngine :=
  let p := mkPlayer id name team color
             (mkResources (match team with host => $200 | guest => $200 end)
                          (match team with host => $100 | guest => $100 end)
                          $5 $10)
             (mkUpgrades 0 0 0) false in
  withDiscoveredTiles (JsMap.set (e_discoveredTiles e) id [])
    (withPlayers (JsMap.set (e_players e) id p) e).

Definition createBuildingAtPosition (type : BuildingType) (ownerId : string)
  (tileX tileY : number) (e : GameEngine) : M GameEngine :=
  let stats := BUILDING_STATS type in
  let tsz := $(tileSize (e_map e)) in
  let x := (tileX * tsz + tsz / $2)%num in
  let y := (tileY * tsz + tsz / $2)%num in
  do id <- generateId;
  let b := mkBuilding id ownerId x y (bs_hp stats) (bs_hp stats) (bs_size stats) type
             (match type with base => $100 | _ => $10 end) [] None false 0 in
  let e1 := withBuildings (JsMap.set (e_buildings e) id b) e in
  ret (match bs_supply stats with
       | Some sup =>
           if truthy sup then
             modifyPlayer ownerId
               (fun p => withPlResources
                           (withMaxSupply (maxSupply (pl_resources p) + sup)%num
                                          (pl_resources p)) p) e1
           else e1
       | None => e1
       end).

Definition addAIPlayer (id : string) (e : GameEngine) : M GameEngine :=
  let p := mkPlayer id "Enemy AI" guest "#DC143C"
             (mkResources $300 $150 $4 $10) (mkUpgrades 0 0 0) true in
  let e1 := withAI true (Some id) e in
  let e2 := withPlayers (JsMap.set (e_players e1) id p) e1 in
  let e3 := withDiscoveredTiles (JsMap.set (e_discoveredTiles e2) id []) e2 in
  do e4 <- createBuildingAtPosition base id $88 $88 e3;
  createBuildingAtPosition barracks id $85 $85 e4.

(** ** Helpers *)

Definition isBaseOf (ownerId : string) (b : Building) : bool :=
  String.eqb (b_ownerId b) ownerId && BuildingType_beq (b_type b) base.

Definition spawnUnit (type : UnitType) (ownerId : string) (e : GameEngine)
  : M (Unit * GameEngine) :=
  let stats := UNIT_STATS type in
  match JsMap.get (e_players e) ownerId with
  | None => throw "Player not found"
  | Some player =>
      let ownBase := find (isBaseOf ownerId) (JsMap.values (e_buildings e)) in
      do x <- match ownBase with
              | Some b => do r <- mathRandom; ret (b_x b + (r - (1 # 2)%Q) * $60)%num
              | None => ret $100
              end;
      do y <- match ownBase with
              | Some b => do r <- mathRandom; ret (b_y b + (r - (1 # 2)%Q) * $60)%num
              | None => ret $100
              end;
      do id <- generateId;
      let unit := mkUnit id ownerId x y (us_hp stats) (us_hp stats) $16 type idle
                    None None [] (us_range stats) (us_damage stats) 60 0
                    (us_speed stats) (us_armor stats)
                    (orElse (us_gatherAmount stats) $0)
                    (orElse (us_gatherRate stats) $0) false 0 in
      let unit :=
        match ownBase with
        | Some _ =>
            let ups := pl_upgrades player in
            let dmg := (u_attackDamage unit + $(attack ups * 2))%num in
            let reach :=
              match type with
              | archer | worker => (u_attackRange unit + $(range ups * 10))%num
              | _ => u_attackRange unit
              end in
            mkUnit id ownerId x y (us_hp stats) (us_hp stats) $16 type idle
              None None [] reach dmg 60 0
              (us_speed stats) (us_armor stats)
              (orElse (us_gatherAmount stats) $0)
              (orElse (us_gatherRate stats) $0) false 0
        | None => unit
        end in
      ret (unit, withUnits (JsMap.set (e_units e) id unit) e)
  end.

Definition spawnUnit_ (type : UnitType) (ownerId : string) (e : GameEngine)
  : M GameEngine :=
  do ue <- spawnUnit type ownerId e; ret (snd ue).

(** ** Game start *)

Definition isHost (p : Player) : bool := Team_beq (pl_team p) host.

(** [this.aiEnabled && this.aiPlayerId] *)
Definition aiActive (e : GameEngine) : option string :=
  if e_aiEnabled e then truthyId (e_aiPlayerId e) else None.

Definition initializeGame (e : GameEngine) : M GameEngine :=
  let hostPlayer := find isHost (JsMap.values (e_players e)) in
  do e1 <- match hostPlayer with
           | Some hp =>
               createBuildingAtPosition base (pl_id hp)
                 ($12 * (3 # 5)%Q)%num ($12 * (3 # 5)%Q)%num e
           | None => ret e
           end;
  do e2 <- match aiActive e1 with
           | Some ai =>
               createBuildingAtPosition base ai
                 ($88 * (3 # 5)%Q)%num ($88 * (3 # 5)%Q)%num e1
           | None => ret e1
           end;
  do e3 <- match hostPlayer with
           | Some hp =>
               do a <- spawnUnit_ worker (pl_id hp) e2;
               do b <- spawnUnit_ worker (pl_id hp) a;
               spawnUnit_ worker (pl_id hp) b
           | None => ret e2
           end;
  match aiActive e3 with
  | Some ai =>
      do a <- spawnUnit_ worker ai e3;
      spawnUnit_ worker ai a
  | None => ret e3
  end.

(** ** Queries over the unit and building collections *)

Definition distTo (x y : number) (tx ty : number) : number :=
  Num.hypot (tx - x)%num (ty - y)%num.

Definition getUnitPosition (e : GameEngine) (id : string) : option Position :=
  match JsMap.get (e_units e) id with
  | Some u => Some (mkPosition (u_x u) (u_y u))
  | None => None
  end.

(** The scan shared by [findNearestEnemy] and [updateTowerAttack]: the unit
    of another owner strictly nearer than everything seen so far. *)
Fixpoint nearestEnemyFrom (ownerId : string) (x y : number) (us : list Unit)
  (nearest : option Unit) (nearestDist : number) : option Unit :=
  match us with
  | [] => nearest
  | other :: us' =>
      if String.eqb (u_ownerId other) ownerId
      then nearestEnemyFrom ownerId x y us' nearest nearestDist
      else
        let dist := distTo x y (u_x other) (u_y other) in
        if (dist <? nearestDist)%num
        then nearestEnemyFrom ownerId x y us' (Some other) dist
        else nearestEnemyFrom ownerId x y us' nearest nearestDist
  end.

Definition findNearestEnemy (e : GameEngine) (unit : Unit) : option Unit :=
  nearestEnemyFrom (u_ownerId unit) (u_x unit) (u_y unit)
    (JsMap.values (e_units e)) None $400.

Definition findNearestEnemyInRange (e : GameEngine) (unit : Unit) : option Unit :=
  let range := us_range (UNIT_STATS (u_type unit)) in
  find (fun other =>
          negb (String.eqb (u_ownerId other) (u_ownerId unit))
          && (distTo (u_x unit) (u_y unit) (u_x other) (u_y other) <=? range)%num)
       (JsMap.values (e_units e)).

Definition findNearestDepositPoint (e : GameEngine) (unit : Unit) : option Position :=
  match
    find (fun b =>
            String.eqb (b_ownerId b) (u_ownerId unit)
            && (BuildingType_beq (b_type b) base || BuildingType_beq (b_type b) farm)
            && negb (b_progress b <? $100)%num)
         (JsMap.values (e_buildings e))
  with
  | Some b => Some (mkPosition (b_x b) (b_y b))
  | None => None
  end.

Fixpoint nearestResourceFrom (x y : number) (rs : list Resource)
  (nearest : option Resource) (nearestDist : number) : option Resource :=
  match rs with
  | [] => nearest
  | r :: rs' =>
      let dist := distTo x y (r_x r) (r_y r) in
      if (dist <? nearestDist)%num
      then nearestResourceFrom x y rs' (Some r) dist
      else nearestResourceFrom x y rs' nearest nearestDist
  end.

Definition findNearestResource (e : GameEngine) (unit : Unit) : option Resource :=
  nearestResourceFrom (u_x unit) (u_y unit) (JsMap.values (e_resources e)) None $1000.

Definition isTower (t : Entity) : bool :=
  match t with
  | EUnit _ => false
  | EBuilding b => BuildingType_beq (b_type b) tower
  end.

(** ** Damage *)

Definition attackOf (e : GameEngine) (ownerId : string) : option Z :=
  match JsMap.get (e_players e) ownerId with
  | Some p => Some (attack (pl_upgrades p))
  | None => None
  end.
Definition defenseOf (e : GameEngine) (ownerId : string) : option Z :=
  match JsMap.get (e_players e) ownerId with
  | Some p => Some (defense (pl_upgrades p))
  | None => None
  end.

Definition calculateDamage (e : GameEngine) (attacker : Unit) (target : Entity)
  : number :=
  let stats := UNIT_STATS (u_type attacker) in
  let attackerPlayer := attackOf e (u_ownerId attacker) in
  let targetPlayer := defenseOf e (ent_ownerId target) in
  let damage := us_damage stats in
  (* Apply attack upgrade *)
  let damage := match attackerPlayer with
                | Some a => (damage + $(a * 2))%num
                | None => damage
                end in
  (* Tower attack upgrade bonus *)
  let damage :=
    if UnitType_beq (u_type attacker) worker && isTower target then
      match attackerPlayer with
      | Some a => (damage + $(a * 3))%num
      | None => damage
      end
    else damage in
  (* Apply defense *)
  let damage := match targetPlayer with
                | Some d => (damage - $(d * 2))%num
                | None => damage
                end in
  Num.max $1 damage.

Definition calculateDamageFromProjectile (e : GameEngine) (projectile : Projectile)
  (target : Entity) : number :=
  let damage := pj_damage projectile in
  let damage := match attackOf e (pj_ownerId projectile) with
                | Some a => (damage + $(a * 2))%num
                | None => damage
                end in
  let damage := match defenseOf e (ent_ownerId target) with
                | Some d => (damage - $(d * 2))%num
                | None => damage
                end in
  Num.max $1 damage.

(** ** Projectiles *)

(** The fields of the source that [createProjectile] reads: a unit, or the
    stand-in object a tower passes for itself. *)
Definition makeProjectile (id : string) (sourceType : UnitType)
  (sx sy : number) (sourceDamage : number) (sourceOwner : string)
  (target : Entity) (tick : Z) : Projectile :=
  let isSplash := UnitType_beq sourceType catapult in
  mkProjectile id
    (match sourceType with healer => heal | catapult => boulder | _ => arrow end)
    sx sy (ent_id target) (mkPosition (ent_x target) (ent_y target))
    (match sourceType with catapult => $5 | healer => $6 | _ => $8 end)
    (orElse (Some sourceDamage) $10)
    sourceOwner
    (if isSplash then $50 else $0)
    tick.

Definition createProjectile (sourceType : UnitType) (sx sy : number)
  (sourceDamage : number) (sourceOwner : string) (target : Entity)
  (e : GameEngine) : M GameEngine :=
  do id <- generateId;
  ret (withProjectiles
         (e_projectiles e ++
            [makeProjectile id sourceType sx sy sourceDamage sourceOwner target
               (e_tick e)])%list e).

(** [target.hp -= damage; target.isUnderAttack = true] and, when [at] is
    given, [target.lastAttackTime = at], on the object found under [key]. *)
Definition hitEntity (key : string) (newHp : Entity -> number) (at_ : option Z)
  (e : GameEngine) : GameEngine :=
  match JsMap.get (e_units e) key with
  | Some u =>
      modifyUnit key
        (fun u => withUnderAttack true
                    (match at_ with Some t => t | None => u_lastAttackTime u end)
                    (withHp (newHp (EUnit u)) u)) e
  | None =>
      modifyBuilding key
        (fun b => withBUnderAttack true
                    (match at_ with Some t => t | None => b_lastAttackTime b end)
                    (withBHp (newHp (EBuilding b)) b)) e
  end.

(** ** Unit updates *)

(** [unit.x += (dx / dist) * speed; unit.y += (dy / dist) * speed] *)
Definition stepTowards (tx ty : number) (speed : number) (u : Unit) : Unit :=
  let dx := (tx - u_x u)%num in
  let dy := (ty - u_y u)%num in
  let dist := Num.hypot dx dy in
  withPos (u_x u + (dx / dist) * speed)%num (u_y u + (dy / dist) * speed)%num u.

Definition updateUnitMovement (uid : string) (e : GameEngine) : GameEngine :=
  match JsMap.get (e_units e) uid with
  | None => e
  | Some unit =>
      let target :=
        match u_targetPosition unit with
        | Some p => Some p
        | None =>
            match truthyId (u_targetId unit) with
            | Some tid => getUnitPosition e tid
            | None => None
            end
        end in
      match target with
      | None => modifyUnit uid (withState idle) e
      | Some target =>
          let dist := distTo (u_x unit) (u_y unit) (px target) (py target) in
          if (dist <? $5)%num then
            (* Reached target *)
            let unit1 :=
              if UnitState_beq (u_state unit) attackMove then
                match findNearestEnemy e unit with
                | Some enemy => withTargetId (Some (u_id enemy)) (withState attacking unit)
                | None => withState idle unit
                end
              else withState idle unit in
            modifyUnit uid (fun _ => withTargetPosition None unit1) e
          else
            (* Move towards target *)
            let speed := us_speed (UNIT_STATS (u_type unit)) in
            let moved := stepTowards (px target) (py target) speed unit in
            let e1 := modifyUnit uid (fun _ => moved) e in
            (* Attack move: attack enemies along the way *)
            if UnitState_beq (u_state moved) attackMove then
              match findNearestEnemyInRange e1 moved with
              | Some enemy =>
                  modifyUnit uid
                    (fun u => withTargetId (Some (u_id enemy)) (withState attacking u)) e1
              | None => e1
              end
            else e1
      end
  end.

Definition updateUnitAttack (uid : string) (e : GameEngine) : M GameEngine :=
  match JsMap.get (e_units e) uid with
  | None => ret e
  | Some unit =>
      match truthyId (u_targetId unit) with
      | None => ret (modifyUnit uid (withState idle) e)
      | Some tid =>
          let giveUp := modifyUnit uid (fun u => withTargetId None (withState idle u)) e in
          match getEntity e tid with
          | None => ret giveUp
          | Some target =>
              if String.eqb (ent_ownerId target) (u_ownerId unit) then ret giveUp
              else
                let dist := distTo (u_x unit) (u_y unit) (ent_x target) (ent_y target) in
                let stats := UNIT_STATS (u_type unit) in
                (* Check if in range *)
                if (dist >? us_range stats)%num then
                  ret (modifyUnit uid
                         (stepTowards (ent_x target) (ent_y target) (us_speed stats)) e)
                else if (u_attackCooldownRemaining unit <=? 0) then
                  do e1 <-
                    (if UnitType_beq (u_type unit) archer
                        || UnitType_beq (u_type unit) catapult
                        || isTower target
                     then createProjectile (u_type unit) (u_x unit) (u_y unit)
                            (u_attackDamage unit) (u_ownerId unit) target e
                     else
                       (* Melee instant damage *)
                       let damage := calculateDamage e unit target in
                       ret (hitEntity tid (fun t => (ent_hp t - damage)%num) None e));
                  ret (modifyUnit uid
                         (fun u => withCooldownRemaining (u_attackCooldown u) u) e1)
                else ret e
          end
      end
  end.

Definition updateUnitGather (uid : string) (e : GameEngine) : GameEngine :=
  match JsMap.get (e_units e) uid with
  | None => e
  | Some unit =>
      match truthyId (u_targetId unit) with
      | None => modifyUnit uid (withState idle) e
      | Some tid =>
          match JsMap.get (e_resources e) tid with
          | None => modifyUnit uid (fun u => withTargetId None (withState idle u)) e
          | Some resource =>
              let dist := distTo (u_x unit) (u_y unit) (r_x resource) (r_y resource) in
              let speed := us_speed (UNIT_STATS (u_type unit)) in
              if (dist >? $20)%num then
                modifyUnit uid (stepTowards (r_x resource) (r_y resource) speed) e
              else
                let gatherAmount :=
                  orElse (us_gatherAmount (UNIT_STATS (u_type unit))) $8 in
                if (r_amount resource >? $0)%num then
                  let taken := Num.min gatherAmount (r_amount resource) in
                  let e1 :=
                    modifyPlayer (u_ownerId unit)
                      (fun p =>
                         let r := pl_resources p in
                         withPlResources
                           (match r_type resource with
                            | resGold => withGold (gold r + taken)%num r
                            | resWood => withWood (wood r + taken)%num r
                            end) p) e in
                  let left := (r_amount resource - taken)%num in
                  let resource' :=
                    mkResource (r_id resource) (r_type resource) (r_x resource)
                      (r_y resource) left (r_maxAmount resource) in
                  let e2 := withResources (JsMap.set (e_resources e1) tid resource') e1 in
                  if (left <=? $0)%num then
                    modifyUnit uid (fun u => withTargetId None (withState returning u))
                      (withResources (JsMap.delete (e_resources e2) (r_id resource)) e2)
                  else e2
                else e
          end
      end
  end.

Definition updateUnitReturn (uid : string) (e : GameEngine) : GameEngine :=
  match JsMap.get (e_units e) uid with
  | None => e
  | Some unit =>
      match findNearestDepositPoint e unit with
      | None => modifyUnit uid (withState idle) e
      | Some depositPoint =>
          let dist := distTo (u_x unit) (u_y unit) (px depositPoint) (py depositPoint) in
          if (dist >? $30)%num then
            modifyUnit uid
              (stepTowards (px depositPoint) (py depositPoint)
                 (us_speed (UNIT_STATS (u_type unit)))) e
          else
            match findNearestResource e unit with
            | Some resource =>
                modifyUnit uid
                  (fun u => withTargetId (Some (r_id resource)) (withState gathering u)) e
            | None => modifyUnit uid (withState idle) e
            end
      end
  end.

Definition updateUnitBuild (uid : string) (e : GameEngine) : GameEngine :=
  match JsMap.get (e_units e) uid with
  | None => e
  | Some unit =>
      match truthyId (u_targetId unit) with
      | None => modifyUnit uid (withState idle) e
      | Some tid =>
          let done := modifyUnit uid (fun u => withTargetId None (withState idle u)) in
          match JsMap.get (e_buildings e) tid with
          | None => done e
          | Some bld =>
              if (b_progress bld >=? $100)%num then done e
              else
                let dist := distTo (u_x unit) (u_y unit) (b_x bld) (b_y bld) in
                if (dist >? $40)%num then
                  modifyUnit uid
                    (stepTowards (b_x bld) (b_y bld)
                       (us_speed (UNIT_STATS (u_type unit)))) e
                else
                  let progress := Num.min $100 (b_progress bld + $2)%num in
                  let e1 := modifyBuilding tid (withProgress progress) e in
                  if (progress >=? $100)%num then done e1 else e1
          end
      end
  end.

Definition updateUnitHeal (uid : string) (e : GameEngine) : GameEngine :=
  match JsMap.get (e_units e) uid with
  | None => e
  | Some unit =>
      match truthyId (u_targetId unit) with
      | None => modifyUnit uid (withState idle) e
      | Some tid =>
          let giveUp := modifyUnit uid (fun u => withTargetId None (withState idle u)) e in
          match JsMap.get (e_units e) tid with
          | None => giveUp
          | Some target =>
              if negb (String.eqb (u_ownerId target) (u_ownerId unit))
                 || (u_hp target >=? u_maxHp target)%num
              then giveUp
              else
                let dist := distTo (u_x unit) (u_y unit) (u_x target) (u_y target) in
                let stats := UNIT_STATS (u_type unit) in
                if (dist >? us_range stats)%num then
                  modifyUnit uid
                    (stepTowards (u_x target) (u_y target) (us_speed stats)) e
                else if (u_attackCooldownRemaining unit <=? 0) then
                  (* Heal (negative damage) *)
                  let e1 :=
                    modifyUnit tid
                      (fun t => withHp (Num.min (u_maxHp t) (u_hp t + $8)%num) t) e in
                  modifyUnit uid
                    (fun u => withCooldownRemaining (u_attackCooldown u) u) e1
                else e
          end
      end
  end.

(** The body of the loop of [updateUnits] for the unit stored under [uid]. *)
Definition updateUnit (e : GameEngine) (uid : string) : M GameEngine :=
  match JsMap.get (e_units e) uid with
  | None => ret e
  | Some unit =>
      (* Reduce cooldown *)
      let e1 :=
        if (u_attackCooldownRemaining unit >? 0)
        then modifyUnit uid
               (fun u => withCooldownRemaining (u_attackCooldownRemaining u - 1) u) e
        else e in
      (* Handle state *)
      match u_state unit with
      | moving | attackMove => ret (updateUnitMovement uid e1)
      | attacking => updateUnitAttack uid e1
      | gathering => ret (updateUnitGather uid e1)
      | returning => ret (updateUnitReturn uid e1)
      | building => ret (updateUnitBuild uid e1)
      | healing => ret (updateUnitHeal uid e1)
      | idle | patrol | holdPosition => ret e1
      end
  end.

Definition updateUnits (e : GameEngine) : M GameEngine :=
  foldM updateUnit (JsMap.keys (e_units e)) e.

(** ** Building updates *)

Definition updateTowerAttack (bid : string) (e : GameEngine) : M GameEngine :=
  match JsMap.get (e_buildings e) bid with
  | None => ret e
  | Some bld =>
      let stats := BUILDING_STATS tower in
      match bs_attackDamage stats with
      | None => ret e
      | Some attackDamage =>
          if negb (truthy attackDamage) then ret e
          else
            (* Find nearest enemy in range *)
            let nearestEnemy :=
              nearestEnemyFrom (b_ownerId bld) (b_x bld) (b_y bld)
                (JsMap.values (e_units e)) None (orElse (bs_attackRange stats) $150) in
            match nearestEnemy with
            | Some enemy =>
                (* Fire projectile; the stand-in source carries an id of its own *)
                do _ <- generateId;
                createProjectile worker (b_x bld) (b_y bld) attackDamage
                  (b_ownerId bld) (EUnit enemy) e
            | None => ret e
            end
      end
  end.

Definition bumpQueueHead (q : list ProductionQueueItem) : list ProductionQueueItem :=
  match q with
  | [] => []
  | item :: rest =>
      mkQueueItem (q_id item) (q_type item) (q_progress item + 1) (q_queuedAt item)
        :: rest
  end.

(** The body of the loop of [updateBuildings] for the building under [bid]. *)
Definition updateBuilding (e : GameEngine) (bid : string) : M GameEngine :=
  match JsMap.get (e_buildings e) bid with
  | None => ret e
  | Some bld =>
      (* Update production queue *)
      do e1 <-
        match b_productionQueue bld with
        | [] => ret e
        | item :: _ =>
            let e' := modifyBuilding bid (fun b => withQueue (bumpQueueHead (b_productionQueue b)) b) e in
            let stats := UNIT_STATS (q_type item) in
            if (q_progress item + 1 >=? us_buildTime stats) then
              (* Unit complete *)
              do e'' <- spawnUnit_ (q_type item) (b_ownerId bld) e';
              ret (modifyBuilding bid (fun b => withQueue (tl (b_productionQueue b)) b) e'')
            else ret e'
        end;
      (* Tower attacks *)
      do e2 <-
        (if BuildingType_beq (b_type bld) tower && (b_hp bld >? $0)%num
         then updateTowerAttack bid e1 else ret e1);
      (* Reset under attack flag *)
      if b_isUnderAttack bld then
        do now <- dateNow;
        if (now - b_lastAttackTime bld >? 120)
        then ret (modifyBuilding bid
                    (fun b => withBUnderAttack false (b_lastAttackTime b) b) e2)
        else ret e2
      else ret e2
  end.

Definition updateBuildings (e : GameEngine) : M GameEngine :=
  foldM updateBuilding (JsMap.keys (e_buildings e)) e.

(** ** Projectile updates *)

Definition splashHp (proj : Projectile) (dist : number) (hp : number) : number :=
  let falloff := ($1 - (dist / pj_splashRadius proj / $2))%num in
  (hp - pj_damage proj * falloff)%num.

Definition splashUnit (proj : Projectile) (e : GameEngine) (uid : string)
  : M GameEngine :=
  match JsMap.get (e_units e) uid with
  | None => ret e
  | Some target =>
      if String.eqb (u_ownerId target) (pj_ownerId proj) then ret e
      else
        let dist := distTo (pj_x proj) (pj_y proj) (u_x target) (u_y target) in
        if (dist <=? pj_splashRadius proj)%num then
          do now <- dateNow;
          ret (modifyUnit uid
                 (fun t => withUnderAttack true now (withHp (splashHp proj dist (u_hp t)) t)) e)
        else ret e
  end.

Definition splashBuilding (proj : Projectile) (e : GameEngine) (bid : string)
  : M GameEngine :=
  match JsMap.get (e_buildings e) bid with
  | None => ret e
  | Some target =>
      if String.eqb (b_ownerId target) (pj_ownerId proj) then ret e
      else
        let dist := distTo (pj_x proj) (pj_y proj) (b_x target) (b_y target) in
        if (dist <=? pj_splashRadius proj)%num then
          do now <- dateNow;
          ret (modifyBuilding bid
                 (fun t => withBUnderAttack true now (withBHp (splashHp proj dist (b_hp t)) t)) e)
        else ret e
  end.

Definition applySplashDamage (proj : Projectile) (e : GameEngine) : M GameEngine :=
  do e1 <- foldM (splashUnit proj) (JsMap.keys (e_units e)) e;
  foldM (splashBuilding proj) (JsMap.keys (e_buildings e)) e1.

(** What the loop of [updateProjectiles] carries: the engine, the
    projectiles as left by the loop so far, and [toRemove]. *)
Definition ProjLoop : Type := (GameEngine * list Projectile * list string)%type.

Definition updateProjectile (st : ProjLoop) (proj : Projectile) : M ProjLoop :=
  let '(e, seen, toRemove) := st in
  match getEntity e (pj_targetId proj) with
  | None => ret (e, seen ++ [proj], toRemove ++ [pj_id proj])%list
  | Some target =>
      let dx := (ent_x target - pj_x proj)%num in
      let dy := (ent_y target - pj_y proj)%num in
      let dist := Num.hypot dx dy in
      if (dist <? $10)%num then
        (* Hit! *)
        do e1 <-
          (if (pj_splashRadius proj >? $0)%num then applySplashDamage proj e
           else
             match pj_type proj with
             | heal =>
                 if String.eqb (ent_ownerId target) (pj_ownerId proj)
                    && (ent_hp target <? ent_maxHp target)%num
                 then
                   let healed t := Num.min (ent_maxHp t) (ent_hp t - pj_damage proj)%num in
                   ret (match JsMap.get (e_units e) (pj_targetId proj) with
                        | Some _ =>
                            modifyUnit (pj_targetId proj)
                              (fun u => withHp (healed (EUnit u)) u) e
                        | None =>
                            modifyBuilding (pj_targetId proj)
                              (fun b => withBHp (healed (EBuilding b)) b) e
                        end)
                 else ret e
             | _ =>
                 (* Regular damage *)
                 let damage := calculateDamageFromProjectile e proj target in
                 do now <- dateNow;
                 ret (hitEntity (pj_targetId proj)
                        (fun t => (ent_hp t - damage)%num) (Some now) e)
             end);
        ret (e1, seen ++ [proj], toRemove ++ [pj_id proj])%list
      else
        (* Move projectile *)
        let proj' :=
          mkProjectile (pj_id proj) (pj_type proj)
            (pj_x proj + (dx / dist) * pj_speed proj)%num
            (pj_y proj + (dy / dist) * pj_speed proj)%num
            (pj_targetId proj) (pj_targetPosition proj) (pj_speed proj)
            (pj_damage proj) (pj_ownerId proj) (pj_splashRadius proj)
            (pj_createdAt proj) in
        ret (e, seen ++ [proj'], toRemove)%list
  end.

Definition includes (l : list string) (s : string) : bool :=
  existsb (String.eqb s) l.

Definition updateProjectiles (e : GameEngine) : M GameEngine :=
  do st <- foldM updateProjectile (e_projectiles e) (e, [], []);
  let '(e1, seen, toRemove) := st in
  (* Remove hit projectiles *)
  ret (withProjectiles (filter (fun p => negb (includes toRemove (pj_id p))) seen) e1).

(** ** Economy *)

Definition updateEconomy (e : GameEngine) : GameEngine :=
  match aiActive e with
  | Some ai =>
      let incomeMultiplier :=
        match e_difficulty e with
        | easy => (1 # 2)%Q
        | hard => (3 # 2)%Q
        | normal => $1
        end in
      modifyPlayer ai
        (fun p =>
           let r := pl_resources p in
           withPlResources (withGold (gold r + (1 # 2)%Q * incomeMultiplier)%num r) p) e
  | None => e
  end.

(** ** Fog of war *)

Definition isTileVisible (e : GameEngine) (observerX observerY : number)
  (tileX tileY : Z) : bool :=
  let tsz := $(tileSize (e_map e)) in
  let tileCenterX := ($tileX * tsz + tsz / $2)%num in
  let tileCenterY := ($tileY * tsz + tsz / $2)%num in
  let dx := (tileCenterX - observerX)%num in
  let dy := (tileCenterY - observerY)%num in
  (Num.hypot dx dy <=? VISION_RANGE)%num.

(** [lo, lo + 1, ..., hi] *)
Definition zspan (lo hi : Z) : list Z :=
  map (fun i => lo + Z.of_nat i) (seq 0 (Z.to_nat (hi - lo + 1))).

(** The body of the two nested loops over [dy] and [dx]. *)
Definition discoverAt (e : GameEngine) (ex ey : number) (tiles : list DiscoveredTile)
  (d : Z * Z) : M (list DiscoveredTile) :=
  let (dy, dx) := d in
  let tsz := $(tileSize (e_map e)) in
  let tileX := Num.floor (ex / tsz)%num + dx in
  let tileY := Num.floor (ey / tsz)%num + dy in
  (* Check if within actual vision range *)
  let dist := (Num.sqrt ($dx * $dx + $dy * $dy) * tsz)%num in
  if (dist >? VISION_RANGE)%num then ret tiles
  (* Check bounds *)
  else if (tileX <? 0) || (tileX >=? width (e_map e))
          || (tileY <? 0) || (tileY >=? height (e_map e)) then ret tiles
  (* Check if tile visible *)
  else if isTileVisible e ex ey tileX tileY then
    do now <- dateNow;
    ret (tiles ++ [mkDiscovered tileX tileY now])%list
  else ret tiles.

Definition discoverAround (e : GameEngine) (tiles : list DiscoveredTile)
  (pos : number * number) : M (list DiscoveredTile) :=
  let (ex, ey) := pos in
  let tileRadius := Num.ceil (VISION_RANGE / $(tileSize (e_map e)))%num in
  foldM (discoverAt e ex ey)
    (flat_map (fun dy => map (fun dx => (dy, dx)) (zspan (- tileRadius) tileRadius))
       (zspan (- tileRadius) tileRadius))
    tiles.

Definition playerEntities (e : GameEngine) (playerId : string)
  : list (number * number) :=
  (map (fun u => (u_x u, u_y u))
     (filter (fun u => String.eqb (u_ownerId u) playerId) (JsMap.values (e_units e)))
   ++ map (fun b => (b_x b, b_y b))
        (filter (fun b => String.eqb (b_ownerId b) playerId)
           (JsMap.values (e_buildings e))))%list.

(** The body of the loop over the players: the list is built afresh and
    stored under the player's id. *)
Definition updateFogFor (e : GameEngine) (player : Player) : M GameEngine :=
  do tiles <- foldM (discoverAround e) (playerEntities e (pl_id player)) [];
  ret (withDiscoveredTiles (JsMap.set (e_discoveredTiles e) (pl_id player) tiles) e).

Definition updateFogOfWar (e : GameEngine) : M GameEngine :=
  foldM updateFogFor (JsMap.values (e_players e)) e.

(** ** Win condition *)

Definition isBaseOwnedBy (id : string) (b : Building) : bool :=
  BuildingType_beq (b_type b) base && String.eqb (b_ownerId b) id.

(** [a || b] on strings: the empty string is falsy. *)
Definition strOr (a : option string) (b : string) : string :=
  match truthyId a with Some s => s | None => b end.

(** The first player, in the order of the players map, without a base. *)
Definition firstWithoutBase (e : GameEngine) (playerIds : list string) : option string :=
  find (fun playerId =>
          Nat.eqb (List.length (filter (isBaseOwnedBy playerId)
                                  (JsMap.values (e_buildings e)))) 0)
       playerIds.

Definition checkWinCondition (e : GameEngine) : GameEngine :=
  if e_gameOver e then e
  else
    let playerIds := JsMap.keys (e_players e) in
    match firstWithoutBase e playerIds with
    | None => e
    | Some playerId =>
        (* This player has no base, they lose *)
        let enemyIds := filter (fun id => negb (String.eqb id playerId)) playerIds in
        let enemyBase :=
          find (fun o => match o with Some _ => true | None => false end)
            (map (fun id => find (isBaseOwnedBy id) (JsMap.values (e_buildings e)))
               enemyIds) in
        let winner :=
          match enemyBase with
          | Some (Some b) => truthyId (Some (b_ownerId b))
          | _ => None
          end in
        let name :=
          strOr (option_map pl_name (JsMap.get (e_players e) playerId)) "Player" in
        withOutcome true winner (Some (name ++ " eliminated")) e
    end.

(** ** AI *)

Definition queueUnitProduction (buildingId : string) (unitType : UnitType)
  (e : GameEngine) : M (bool * GameEngine) :=
  match JsMap.get (e_buildings e) buildingId with
  | None => ret (false, e)
  | Some _ =>
      do id <- generateId;
      ret (true,
           modifyBuilding buildingId
             (fun b => withQueue
                         (b_productionQueue b ++ [mkQueueItem id unitType 0 (e_tick e)])%list
                         b) e)
  end.

Definition queueUnitProduction_ (buildingId : string) (unitType : UnitType)
  (e : GameEngine) : M GameEngine :=
  do r <- queueUnitProduction buildingId unitType e; ret (snd r).

Definition hasType (t : BuildingType) (b : Building) : bool :=
  BuildingType_beq (b_type b) t.
Definition queueEmpty (b : Building) : bool :=
  Nat.eqb (List.length (b_productionQueue b)) 0.

Definition aiSendSoldier (hostId : string) (e : GameEngine) (sid : string)
  : M GameEngine :=
  ret (match JsMap.get (e_units e) sid with
       | Some soldier_ =>
           if UnitState_beq (u_state soldier_) idle then
             (* Find player base *)
             match find (isBaseOf hostId) (JsMap.values (e_buildings e)) with
             | Some playerBase =>
                 modifyUnit sid
                   (fun u => withTargetId (Some (b_id playerBase)) (withState attackMove u)) e
             | None => e
             end
           else e
       | None => e
       end).

Definition aiSendWorker (e : GameEngine) (wid : string) : M GameEngine :=
  ret (match JsMap.get (e_units e) wid with
       | Some worker_ =>
           if UnitState_beq (u_state worker_) idle then
             match findNearestResource e worker_ with
             | Some resource =>
                 modifyUnit wid
                   (fun u => withTargetId (Some (r_id resource)) (withState gathering u)) e
             | None => e
             end
           else e
       | None => e
       end).

Definition updateAI (e : GameEngine) : M GameEngine :=
  match aiActive e with
  | None => ret e
  | Some ai =>
      match JsMap.get (e_players e) ai with
      | None => ret e
      | Some aiPlayer =>
          let ownedByAI (owner : string) := String.eqb owner ai in
          let aiUnits := filter (fun u => ownedByAI (u_ownerId u)) (JsMap.values (e_units e)) in
          let aiBuildings :=
            filter (fun b => ownedByAI (b_ownerId b)) (JsMap.values (e_buildings e)) in
          (* Count workers *)
          let workers := filter (fun u => UnitType_beq (u_type u) worker) aiUnits in
          let soldiers := filter (fun u => UnitType_beq (u_type u) soldier) aiUnits in
          let res := pl_resources aiPlayer in
          (* Produce workers if we have resources and supply *)
          do e1 <-
            (if (gold res >=? $50)%num && (supply res <? maxSupply res)%num then
               match find (hasType base) aiBuildings with
               | Some b => if queueEmpty b then queueUnitProduction_ (b_id b) worker e
                           else ret e
               | None => ret e
               end
             else ret e);
          (* Produce combat units *)
          do e2 <-
            (if (gold res >=? $60)%num then
               match find (hasType barracks) aiBuildings with
               | Some b =>
                   if queueEmpty b then
                     do roll <- mathRandom;
                     if (roll <? (2 # 5)%Q)%num then queueUnitProduction_ (b_id b) soldier e1
                     else if (roll <? (7 # 10)%Q)%num then queueUnitProduction_ (b_id b) archer e1
                     else queueUnitProduction_ (b_id b) healer e1
                   else ret e1
               | None => ret e1
               end
             else ret e1);
          (* Attack with soldiers *)
          do e3 <-
            match find isHost (JsMap.values (e_players e2)) with
            | Some hostPlayer =>
                if (3 <=? List.length soldiers)%nat
                then foldM (aiSendSoldier (pl_id hostPlayer)) (map u_id soldiers) e2
                else ret e2
            | None => ret e2
            end;
          (* Gather with workers if idle *)
          foldM aiSendWorker (map u_id workers) e3
      end
  end.

(** ** Main game loop *)

Definition update (deltaTime : Z) (e : GameEngine) : M GameEngine :=
  if e_gameOver e then ret e
  else
    let e0 := withTick (e_tick e + 1) e in
    (* Update all systems *)
    do e1 <- updateUnits e0;
    do e2 <- updateBuildings e1;
    do e3 <- updateProjectiles e2;
    let e4 := updateEconomy e3 in
    do e5 <- updateFogOfWar e4;
    let e6 := checkWinCondition e5 in
    (* AI logic if enabled *)
    if e_aiEnabled e6 && Z.eqb (Z.rem (e_tick e6) 60) 0 then updateAI e6
    else ret e6.

(** ** Action processing *)

Definition ownUnit (e : GameEngine) (playerId unitId : string) : option Unit :=
  match JsMap.get (e_units e) unitId with
  | Some u => if String.eqb (u_ownerId u) playerId then Some u else None
  | None => None
  end.

Definition ownBuilding (e : GameEngine) (playerId buildingId : string)
  : option Building :=
  match JsMap.get (e_buildings e) buildingId with
  | Some b => if String.eqb (b_ownerId b) playerId then Some b else None
  | None => None
  end.

Definition handleMove (playerId unitId : string) (target : Position)
  (e : GameEngine) : bool * GameEngine :=
  match ownUnit e playerId unitId with
  | None => (false, e)
  | Some _ =>
      (true,
       modifyUnit unitId
         (fun u => withTargetId None (withTargetPosition (Some target) (withState moving u))) e)
  end.

Definition handleAttack (playerId unitId targetId : string) (e : GameEngine)
  : bool * GameEngine :=
  match ownUnit e playerId unitId with
  | None => (false, e)
  | Some _ =>
      match getEntity e targetId with
      | None => (false, e)
      | Some target =>
          if String.eqb (ent_ownerId target) playerId then (false, e)
          else
            (true,
             modifyUnit unitId
               (fun u => withTargetPosition None
                           (withTargetId (Some targetId) (withState attacking u))) e)
      end
  end.

Definition handleStop (playerId unitId : string) (e : GameEngine) : bool * GameEngine :=
  match ownUnit e playerId unitId with
  | None => (false, e)
  | Some _ =>
      (true,
       modifyUnit unitId
         (fun u => withWaypoints []
                     (withTargetPosition None (withTargetId None (withState idle u)))) e)
  end.

Definition handleHoldPosition (playerId unitId : string) (e : GameEngine)
  : bool * GameEngine :=
  handleStop playerId unitId e.

Definition handlePatrol (playerId unitId : string) (target : Position)
  (e : GameEngine) : bool * GameEngine :=
  match ownUnit e playerId unitId with
  | None => (false, e)
  | Some _ =>
      (true,
       modifyUnit unitId
         (fun u => let u' := withState patrol u in
                   withWaypoints (u_waypoints u' ++ [target])%list u') e)
  end.

Definition handleAttackMove (playerId unitId : string) (target : Position)
  (e : GameEngine) : bool * GameEngine :=
  match ownUnit e playerId unitId with
  | None => (false, e)
  | Some _ =>
      (true,
       modifyUnit unitId
         (fun u => withTargetId None
                     (withTargetPosition (Some target) (withState attackMove u))) e)
  end.

(** [player.resources.gold -= cost.gold; player.resources.wood -= cost.wood] *)
Definition debit (cost : Cost) (p : Player) : Player :=
  let r := pl_resources p in
  let r1 := withGold (gold r - c_gold cost)%num r in
  withPlResources (withWood (wood r1 - c_wood cost)%num r1) p.

Definition cannotAfford (p : Player) (cost : Cost) : bool :=
  (gold (pl_resources p) <? c_gold cost)%num
  || (wood (pl_resources p) <? c_wood cost)%num.

Definition handleProduce (playerId buildingId : string) (unitType : UnitType)
  (e : GameEngine) : M (bool * GameEngine) :=
  match ownBuilding e playerId buildingId with
  | None => ret (false, e)
  | Some _ =>
      let stats := UNIT_STATS unitType in
      match JsMap.get (e_players e) playerId with
      | None => ret (false, e)
      | Some player =>
          (* Check resources *)
          if cannotAfford player (us_cost stats) then ret (false, e)
          else
            (* Check supply *)
            let currentSupply :=
              List.length (filter (fun u => String.eqb (u_ownerId u) playerId)
                             (JsMap.values (e_units e))) in
            if ($(Z.of_nat currentSupply) + us_supply stats
                  >? maxSupply (pl_resources player))%num
            then ret (false, e)
            else
              (* Deduct resources *)
              let e1 := modifyPlayer playerId (debit (us_cost stats)) e in
              (* Add to queue *)
              do id <- generateId;
              ret (true,
                   modifyBuilding buildingId
                     (fun b => withQueue
                                 (b_productionQueue b
                                    ++ [mkQueueItem id unitType 0 (e_tick e1)])%list b) e1)
      end
  end.

(** [Math.sqrt(dx * dx + dy * dy) < (existing.size + size) / 2 + 10] *)
Definition tooClose (x y size : number) (b : Building) : bool :=
  (distTo x y (b_x b) (b_y b) <? (b_size b +~ size) /~ $2 +~ $10)%num.

Definition canBuildAt (e : GameEngine) (buildingType : BuildingType)
  (position : Position) : bool :=
  let stats := BUILDING_STATS buildingType in
  let halfSize := (bs_size stats /~ $2)%num in
  let m := e_map e in
  (* Check bounds *)
  if (px position -~ halfSize <? $0)%num
     || (px position +~ halfSize >? $(width m * tileSize m))%num then false
  else if (py position -~ halfSize <? $0)%num
     || (py position +~ halfSize >? $(height m * tileSize m))%num then false
  (* Check collision with other buildings *)
  else negb (existsb (tooClose (px position) (py position) (bs_size stats))
               (JsMap.values (e_buildings e))).

Definition handleBuild (playerId : string) (buildingType : BuildingType)
  (position : Position) (e : GameEngine) : M (bool * GameEngine) :=
  match JsMap.get (e_players e) playerId with
  | None => ret (false, e)
  | Some player =>
      let stats := BUILDING_STATS buildingType in
      (* Check resources *)
      if cannotAfford player (bs_cost stats) then ret (false, e)
      (* Check placement *)
      else if negb (canBuildAt e buildingType position) then ret (false, e)
      else
        (* Deduct resources *)
        let e1 := modifyPlayer playerId (debit (bs_cost stats)) e in
        (* Create building *)
        do id <- generateId;
        let b := mkBuilding id playerId (px position) (py position)
                   (bs_hp stats * (1 # 10)%Q)%num (bs_hp stats) (bs_size stats)
                   buildingType $10 [] None false 0 in
        ret (true, withBuildings (JsMap.set (e_buildings e1) id b) e1)
  end.

Definition upgradeLevel (t : UpgradeType) (u : PlayerUpgrades) : Z :=
  match t with
  | upAttack => attack u
  | upDefense => defense u
  | upRange => range u
  end.

(** [player.upgrades[upgradeType]++] *)
Definition bumpUpgrade (t : UpgradeType) (u : PlayerUpgrades) : PlayerUpgrades :=
  match t with
  | upAttack => mkUpgrades (attack u + 1) (defense u) (range u)
  | upDefense => mkUpgrades (attack u) (defense u + 1) (range u)
  | upRange => mkUpgrades (attack u) (defense u) (range u + 1)
  end.

Definition handleUpgrade (playerId buildingId : string) (upgradeType : UpgradeType)
  (e : GameEngine) : bool * GameEngine :=
  match ownBuilding e playerId buildingId with
  | None => (false, e)
  | Some _ =>
      match JsMap.get (e_players e) playerId with
      | None => (false, e)
      | Some player =>
          let currentLevel := upgradeLevel upgradeType (pl_upgrades player) in
          let maxLevel := match upgradeType with upRange => 2 | _ => 3 end in
          if currentLevel >=? maxLevel then (false, e)
          else if (gold (pl_resources player) <? $100)%num then (false, e)
          else
            (true,
             modifyPlayer playerId
               (fun p =>
                  let r := pl_resources p in
                  withPlUpgrades (bumpUpgrade upgradeType (pl_upgrades p))
                    (withPlResources (withGold (gold r - $100)%num r) p)) e)
      end
  end.

Definition handleGather (playerId unitId resourceId : string) (e : GameEngine)
  : bool * GameEngine :=
  match ownUnit e playerId unitId with
  | None => (false, e)
  | Some u =>
      if negb (UnitType_beq (u_type u) worker) then (false, e)
      else
        match JsMap.get (e_resources e) resourceId with
        | None => (false, e)
        | Some _ =>
            (true,
             modifyUnit unitId
               (fun u => withTargetId (Some resourceId) (withState gathering u)) e)
        end
  end.

Definition processAction (playerId : string) (action : ActionType) (e : GameEngine)
  : M (bool * GameEngine) :=
  match JsMap.get (e_players e) playerId with
  | None => ret (false, e)
  | Some _ =>
      match action with
      | A_move unitId target => ret (handleMove playerId unitId target e)
      | A_attack unitId targetId => ret (handleAttack playerId unitId targetId e)
      | A_stop unitId => ret (handleStop playerId unitId e)
      | A_holdPosition unitId => ret (handleHoldPosition playerId unitId e)
      | A_patrol unitId target => ret (handlePatrol playerId unitId target e)
      | A_attackMove unitId target => ret (handleAttackMove playerId unitId target e)
      | A_produce buildingId unitType => handleProduce playerId buildingId unitType e
      | A_build buildingType position => handleBuild playerId buildingType position e
      | A_upgrade buildingId upgradeType =>
          ret (handleUpgrade playerId buildingId upgradeType e)
      | A_gather unitId resourceId => ret (handleGather playerId unitId resourceId e)
      | A_attackGround _ _ | A_cancelProduction _ _ | A_setRallyPoint _ _
      | A_returnResources _ => ret (false, e)
      end
  end.

(* ===================================================================== *)
(** * validator.ts                                                         *)
(* ===================================================================== *)

(** [details] is only ever a diagnostic payload and is left out. *)
Record ValidationResult := mkValidation {
  valid : bool;
  reason : option string
}.

Definition accept : ValidationResult := mkValidation true None.
Definition reject (why : string) : ValidationResult := mkValidation false (Some why).

(** The optional [gameState] argument of [validateAction]; of the
    [resources] map only the ids of its values are read. *)
Record ValidatorState := mkValidatorState {
  mapWidth : number;
  mapHeight : number;
  vs_units : JsMap.t Unit;
  vs_buildings : JsMap.t Building;
  vs_resources : option (list string)
}.

Definition outOfBounds (gs : ValidatorState) (p : Position) : bool :=
  (px p <? $0)%num || (px p >? mapWidth gs)%num
  || (py p <? $0)%num || (py p >? mapHeight gs)%num.

Definition validateMovementAction (unitId : string) (target : Position)
  (ownedUnitIds : list string) (gameState : option ValidatorState) : ValidationResult :=
  if String.eqb unitId "" then reject "Missing unit ID"
  else if negb (includes ownedUnitIds unitId) then reject "Unit not owned by player"
  else match gameState with
       | Some gs =>
           if outOfBounds gs target then reject "Target position out of bounds"
           else accept
       | None => accept
       end.

(** [s.split('-')[0]] *)
Fixpoint firstSegment (s : string) : string :=
  match s with
  | EmptyString => EmptyString
  | String c s' => if Ascii.eqb c "-"%char then EmptyString else String c (firstSegment s')
  end.

Definition validateAttackAction (unitId targetId : string)
  (ownedUnitIds : list string) (gameState : option ValidatorState) : ValidationResult :=
  if String.eqb unitId "" then reject "Missing unit ID"
  else if negb (includes ownedUnitIds unitId) then reject "Unit not owned by player"
  else if String.eqb targetId "" then reject "Missing target ID"
  else match gameState with
       | Some gs =>
           match JsMap.get (vs_units gs) targetId, JsMap.get (vs_buildings gs) targetId with
           | None, None => reject "Target not found"
           | Some targetUnit, _ =>
               if String.eqb (u_ownerId targetUnit) (firstSegment unitId)
               then reject "Cannot attack own units"
               else accept
           | None, Some _ => accept
           end
       | None => accept
       end.

Definition validateStopAction (unitId : string) (ownedUnitIds : list string)
  : ValidationResult :=
  if String.eqb unitId "" then reject "Missing unit ID"
  else if negb (includes ownedUnitIds unitId) then reject "Unit not owned by player"
  else accept.

Definition validateProduceAction (buildingId : string) (unitType : UnitType)
  (ownedBuildingIds : list string) (playerResources : PlayerResources)
  : ValidationResult :=
  if String.eqb buildingId "" then reject "Missing building ID"
  else if negb (includes ownedBuildingIds buildingId)
  then reject "Building not owned by player"
  else
    let stats := UNIT_STATS unitType in
    if (gold playerResources <? c_gold (us_cost stats))%num
       || (wood playerResources <? c_wood (us_cost stats))%num
    then reject "Insufficient resources"
    else if (supply playerResources >=? maxSupply playerResources)%num
    then reject "Insufficient supply"
    else accept.

Definition validateBuildAction (buildingType : BuildingType) (position : Position)
  (playerResources : PlayerResources) (gameState : option ValidatorState)
  : ValidationResult :=
  let stats := BUILDING_STATS buildingType in
  if (gold playerResources <? c_gold (bs_cost stats))%num
     || (wood playerResources <? c_wood (bs_cost stats))%num
  then reject "Insufficient resources"
  else match gameState with
       | Some gs =>
           let halfSize := (bs_size stats /~ $2)%num in
           if (px position -~ halfSize <? $0)%num
              || (px position +~ halfSize >? mapWidth gs)%num
              || (py position -~ halfSize <? $0)%num
              || (py position +~ halfSize >? mapHeight gs)%num
           then reject "Build position out of bounds"
           else if existsb (tooClose (px position) (py position) (bs_size stats))
                     (JsMap.values (vs_buildings gs))
           then reject "Cannot build here: too close to another building"
           else accept
       | None => accept
       end.

Definition validateUpgradeAction (buildingId : string) (upgradeType : UpgradeType)
  (ownedBuildingIds : list string) (playerResources : PlayerResources)
  : ValidationResult :=
  if String.eqb buildingId "" then reject "Missing building ID"
  else if negb (includes ownedBuildingIds buildingId)
  then reject "Building not owned by player"
  else if (gold playerResources <? $100)%num
  then reject "Insufficient resources (need 100 gold)"
  else accept.

Definition validateGatherAction (unitId resourceId : string)
  (ownedUnitIds : list string) (gameState : option ValidatorState) : ValidationResult :=
  if String.eqb unitId "" then reject "Missing unit ID"
  else if negb (includes ownedUnitIds unitId) then reject "Unit not owned by player"
  else if String.eqb resourceId "" then reject "Missing resource ID"
  else match gameState with
       | Some gs =>
           match vs_resources gs with
           | Some ids =>
               if includes ids resourceId then accept else reject "Resource not found"
           | None => accept
           end
       | None => accept
       end.

Definition validateReturnResourcesAction (unitId : string) (ownedUnitIds : list string)
  : ValidationResult :=
  validateStopAction unitId ownedUnitIds.

Definition validateCancelProductionAction (buildingId queueItemId : string)
  (ownedBuildingIds : list string) : ValidationResult :=
  if String.eqb buildingId "" then reject "Missing building ID"
  else if negb (includes ownedBuildingIds buildingId)
  then reject "Building not owned by player"
  else if String.eqb queueItemId "" then reject "Missing queue item ID"
  else accept.

Definition validateSetRallyPointAction (buildingId : string) (position : Position)
  (ownedBuildingIds : list string) : ValidationResult :=
  if String.eqb buildingId "" then reject "Missing building ID"
  else if negb (includes ownedBuildingIds buildingId)
  then reject "Building not owned by player"
  else accept.

Definition validateAction (action : ActionType) (playerId : string)
  (playerResources : PlayerResources) (ownedUnitIds ownedBuildingIds : list string)
  (gameState : option ValidatorState) : ValidationResult :=
  match action with
  | A_move unitId target | A_attackMove unitId target | A_patrol unitId target
  | A_attackGround unitId target =>
      validateMovementAction unitId target ownedUnitIds gameState
  | A_attack unitId targetId =>
      validateAttackAction unitId targetId ownedUnitIds gameState
  | A_stop unitId | A_holdPosition unitId => validateStopAction unitId ownedUnitIds
  | A_produce buildingId unitType =>
      validateProduceAction buildingId unitType ownedBuildingIds playerResources
  | A_build buildingType position =>
      validateBuildAction buildingType position playerResources gameState
  | A_upgrade buildingId upgradeType =>
      validateUpgradeAction buildingId upgradeType ownedBuildingIds playerResources
  | A_gather unitId resourceId =>
      validateGatherAction unitId resourceId ownedUnitIds gameState
  | A_returnResources unitId => validateReturnResourcesAction unitId ownedUnitIds
  | A_cancelProduction buildingId queueItemId =>
      validateCancelProductionAction buildingId queueItemId ownedBuildingIds
  | A_setRallyPoint buildingId position =>
      validateSetRallyPointAction buildingId position ownedBuildingIds
  end.

(* ===================================================================== *)
(** * anticheat.ts                                                         *)
(* ===================================================================== *)

Inductive Severity := warning | suspicious | confirmed.

(** The message templates of [validateResources], with the numbers they
    interpolate. *)
Inductive Discrepancy :=
| SignificantGold (client server : number)
| MinorGold (client server : number)
| SignificantWood (client server : number)
| MinorWood (client server : number)
| InvalidSupply (supply maxSupply : number).

Record CheatDetectionResult := mkCheat {
  flagged : bool;
  cheat_reason : option Discrepancy;
  severity : Severity
}.

Module AntiCheat.

Definition validateResources (playerId : string)
  (clientResources serverResources : PlayerResources) (tolerance : number)
  : CheatDetectionResult :=
  (* Check gold *)
  let goldDiff := Num.abs (gold clientResources -~ gold serverResources)%num in
  if (goldDiff >? tolerance *~ $10)%num then
    mkCheat true (Some (SignificantGold (gold clientResources) (gold serverResources)))
      confirmed
  else if (goldDiff >? tolerance)%num then
    mkCheat true (Some (MinorGold (gold clientResources) (gold serverResources)))
      warning
  else
    (* Check wood *)
    let woodDiff := Num.abs (wood clientResources -~ wood serverResources)%num in
    if (woodDiff >? tolerance *~ $10)%num then
      mkCheat true (Some (SignificantWood (wood clientResources) (wood serverResources)))
        confirmed
    else if (woodDiff >? tolerance)%num then
      mkCheat true (Some (MinorWood (wood clientResources) (wood serverResources)))
        warning
    (* Check supply *)
    else if (supply clientResources >? maxSupply clientResources)%num then
      mkCheat true
        (Some (InvalidSupply (supply clientResources) (maxSupply clientResources)))
        confirmed
    else mkCheat false None warning.

(** The default value of the [tolerance] parameter. *)
Definition defaultTolerance : number := $5.

End AntiCheat.

(* ===================================================================== *)
(** * win-conditions: the win condition manager                            *)
(* ===================================================================== *)

Record WinConditionResult := mkWin {
  w_gameOver : bool;
  w_winner : option string;
  w_reason : option string;
  w_eliminatedPlayers : list string
}.

(** [player.name || `Player ${player.id.substring(0, 8)}`] *)
Definition getPlayerName (player : Player) : string :=
  strOr (Some (pl_name player)) ("Player " ++ substring 0 8 (pl_id player)).

Definition ownedBy (id : string) (b : Building) : bool := String.eqb (b_ownerId b) id.
Definition unitOwnedBy (id : string) (u : Unit) : bool := String.eqb (u_ownerId u) id.

Definition hasBase (gs : GameEngine) (id : string) : bool :=
  existsb (hasType base) (filter (ownedBy id) (JsMap.values (e_buildings gs))).

Definition isEmpty {A} (l : list A) : bool :=
  match l with [] => true | _ => false end.

Definition checkWinConditions (gameState : GameEngine) : WinConditionResult :=
  let players := JsMap.values (e_players gameState) in
  let buildings := JsMap.values (e_buildings gameState) in
  let units := JsMap.values (e_units gameState) in
  (* Check if any player has lost their base *)
  let eliminatedPlayers :=
    map pl_id (filter (fun p => negb (hasBase gameState (pl_id p))) players) in
  let won (p : Player) (how : string) (eliminated : list string) :=
    mkWin true (Some (pl_id p)) (Some (getPlayerName p ++ how)) eliminated in
  let byElimination :=
    if isEmpty eliminatedPlayers then None
    else
      let remainingPlayers :=
        filter (fun p => negb (includes eliminatedPlayers (pl_id p))) players in
      match remainingPlayers, players with
      | [p], _ => Some (won p " wins by elimination!" eliminatedPlayers)
      | _, [p0; p1] =>
          (* Check if host or guest has base (for 2-player games) *)
          let hostHasBase := existsb (isBaseOwnedBy (pl_id p0)) buildings in
          let guestHasBase := existsb (isBaseOwnedBy (pl_id p1)) buildings in
          if negb hostHasBase && guestHasBase
          then Some (won p1 " wins! Enemy base destroyed!" [pl_id p0])
          else if negb guestHasBase && hostHasBase
          then Some (won p0 " wins! Enemy base destroyed!" [pl_id p1])
          else None
      | _, _ => None
      end in
  match byElimination with
  | Some r => r
  | None =>
      (* Check for victory by destruction *)
      let byDestruction :=
        match players with
        | [player1; player2] =>
            let player1Units := filter (unitOwnedBy (pl_id player1)) units in
            let player1Buildings := filter (ownedBy (pl_id player1)) buildings in
            let player2Units := filter (unitOwnedBy (pl_id player2)) units in
            let player2Buildings := filter (ownedBy (pl_id player2)) buildings in
            if isEmpty player1Units && isEmpty player1Buildings
               && isEmpty (filter (hasType base) player1Buildings)
            then Some (won player2 " wins! Enemy army destroyed!" [pl_id player1])
            else if isEmpty player2Units && isEmpty player2Buildings
               && isEmpty (filter (hasType base) player2Buildings)
            then Some (won player1 " wins! Enemy army destroyed!" [pl_id player2])
            else None
        | _ => None
        end in
      match byDestruction with
      | Some r => r
      | None => mkWin false None None []
      end
  end.

(* ===================================================================== *)
(** * room-manager.ts                                                      *)
(* ===================================================================== *)

Inductive RoomStatus := waiting | starting | playing | ended.

(** What [setInterval] registered: the 60 Hz tick loop or the 10 Hz
    snapshot broadcast. *)
Inductive Timeout := TickLoop | SnapshotLoop.

Record RoomConfig := mkRoomConfig {
  cfg_roomId : string;
  cfg_roomName : string;
  cfg_mapSeed : Z;
  cfg_difficulty : Difficulty;
  cfg_maxPlayers : nat
}.

Record PlayerConnection := mkConnection {
  pc_id : string;
  pc_name : string;
  pc_team : Team;
  pc_color : string;
  pc_ready : bool;
  pc_lastPing : Z;
  pc_isConnected : bool;
  pc_resources : PlayerResources;
  pc_ownedUnitIds : list string;
  pc_ownedBuildingIds : list string
}.

Record GameRoom := mkRoom {
  room_id : string;
  room_name : string;
  room_config : RoomConfig;
  room_players : JsMap.t PlayerConnection;
  room_status : RoomStatus;
  room_engine : option GameEngine;
  room_createdAt : Z;
  room_startedAt : option Z;
  room_hostId : string;
  room_tickInterval : option Timeout;
  room_snapshotInterval : option Timeout
}.

(** The API view of a room. *)
Record RoomState := mkRoomState {
  rs_config : RoomConfig;
  rs_players : list Player;
  rs_gameState : option GameEngine;
  rs_gameStarted : bool;
  rs_createdAt : Z;
  rs_hostId : string
}.

(** The module-level [rooms] map. *)
Definition Rooms := JsMap.t GameRoom.

Definition generateRoomId : M string :=
  do t <- dateNow;
  do r <- mathRandom;
  ret ("room-" ++ showZ t ++ "-" ++ base36_frac 7 r).

Definition convertToRoomState (room : GameRoom) : RoomState :=
  mkRoomState (room_config room)
    (map (fun p => mkPlayer (pc_id p) (pc_name p) (pc_team p) (pc_color p)
                     (pc_resources p) (mkUpgrades 0 0 0) (pc_ready p))
       (JsMap.values (room_players room)))
    (room_engine room)
    (match room_status room with playing | ended => true | _ => false end)
    (room_createdAt room)
    (room_hostId room).

Definition createRoom (hostId hostName roomName : string) (difficulty : Difficulty)
  (rooms : Rooms) : M (option RoomState * Rooms) :=
  do roomId <- generateRoomId;
  do r <- mathRandom;
  let config := mkRoomConfig roomId roomName (Num.floor (r * $1000000)%num) difficulty 2 in
  do lastPing <- dateNow;
  let hostConnection :=
    mkConnection hostId hostName host "#4169E1" false lastPing true
      (mkResources $200 $100 $5 $10) [] [] in
  do createdAt <- dateNow;
  let room := mkRoom roomId roomName config [(hostId, hostConnection)] waiting None
                createdAt None hostId None None in
  ret (Some (convertToRoomState room), JsMap.set rooms roomId room).

Definition joinRoom (roomId playerId playerName : string) (rooms : Rooms)
  : M (option RoomState * Rooms) :=
  match JsMap.get rooms roomId with
  | None => ret (None, rooms)
  | Some room =>
      match room_status room with
      | waiting =>
          if (cfg_maxPlayers (room_config room) <=? JsMap.size (room_players room))%nat
          then ret (None, rooms)
          else if JsMap.has (room_players room) playerId
          then ret (Some (convertToRoomState room), rooms)
          else
            do lastPing <- dateNow;
            let guestConnection :=
              mkConnection playerId playerName guest "#DC143C" false lastPing true
                (mkResources $200 $100 $5 $10) [] [] in
            let room' :=
              mkRoom (room_id room) (room_name room) (room_config room)
                (JsMap.set (room_players room) playerId guestConnection)
                (room_status room) (room_engine room) (room_createdAt room)
                (room_startedAt room) (room_hostId room) (room_tickInterval room)
                (room_snapshotInterval room) in
            ret (Some (convertToRoomState room'), JsMap.set rooms roomId room')
      | _ => ret (None, rooms)
      end
  end.

Definition setReady (ready : bool) (p : PlayerConnection) : PlayerConnection :=
  mkConnection (pc_id p) (pc_name p) (pc_team p) (pc_color p) ready (pc_lastPing p)
    (pc_isConnected p) (pc_resources p) (pc_ownedUnitIds p) (pc_ownedBuildingIds p).

Definition setPlayerReady (roomId playerId : string) (ready : bool) (rooms : Rooms)
  : option RoomState * Rooms :=
  match JsMap.get rooms roomId with
  | None => (None, rooms)
  | Some room =>
      match JsMap.get (room_players room) playerId with
      | None => (None, rooms)
      | Some player =>
          let room' :=
            mkRoom (room_id room) (room_name room) (room_config room)
              (JsMap.set (room_players room) playerId (setReady ready player))
              (room_status room) (room_engine room) (room_createdAt room)
              (room_startedAt room) (room_hostId room) (room_tickInterval room)
              (room_snapshotInterval room) in
          (Some (convertToRoomState room'), JsMap.set rooms roomId room')
      end
  end.

Definition isWaiting (s : RoomStatus) : bool :=
  match s with waiting => true | _ => false end.

(** [Array.from(room.players.values()).every(p => p.ready)] *)
Definition allReady (room : GameRoom) : bool :=
  forallb pc_ready (JsMap.values (room_players room)).

(** The engine [startGame] builds: constructed from the room's seed, one
    [addPlayer] per connection in join order, then [initializeGame]. *)
Definition startEngine (room : GameRoom) : M GameEngine :=
  do engine <- newGameEngine (cfg_mapSeed (room_config room))
                 (cfg_difficulty (room_config room));
  let engine :=
    fold_left (fun en kv => addPlayer (fst kv) (pc_name (snd kv)) (pc_team (snd kv))
                              (pc_color (snd kv)) en)
      (room_players room) engine in
  initializeGame engine.

Definition startGame (roomId hostId : string) (rooms : Rooms)
  : M (option RoomState * Rooms) :=
  match JsMap.get rooms roomId with
  | None => ret (None, rooms)
  | Some room =>
      if negb (String.eqb (room_hostId room) hostId) then
        ret (None, rooms) (* Only host can start *)
      else if negb (isWaiting (room_status room)) then
        ret (None, rooms) (* Game already started *)
      (* Check all players ready *)
      else if negb (allReady room) && (1 <? JsMap.size (room_players room))%nat then
        ret (None, rooms) (* Not all ready *)
      else
        do engine <- startEngine room;
        do startedAt <- dateNow;
        let room' :=
          mkRoom (room_id room) (room_name room) (room_config room) (room_players room)
            playing (Some engine) (room_createdAt room) (Some startedAt)
            (room_hostId room) (Some TickLoop) (Some SnapshotLoop) in
        ret (Some (convertToRoomState room'), JsMap.set rooms roomId room')
  end.

(* ===================================================================== *)
(** * Scenarios                                                            *)
(* ===================================================================== *)

(** Concrete worlds and runs used to evaluate the code. *)
Module Scenario.

(** A clock that advances one millisecond per reading. *)
Definition clockFrom (t0 : Z) : nat -> Z := fun n => Z.of_nat n + t0.

Definition world (draws : nat -> number) : World :=
  mkWorld (clockFrom 1700000000000) 0 draws 0 0.

(** The value a computation returns, and the world it leaves. *)
Definition value {A} (m : M A) (w : World) : Result A := fst (m w).
Definition after {A} (m : M A) (w : World) : World := snd (m w).

Definition worldA : World := world (fun _ => (1 # 3)%Q).

End Scenario.

(** ** Seeded map parity *)

Definition resourceIds (e : GameEngine) : list string :=
  map r_id (map_resources (e_map e)).

Definition sameIdSet (l1 l2 : list string) : Prop :=
  forall i, In i l1 <-> In i l2.

Definition sameIdSetb (l1 l2 : list string) : bool :=
  forallb (includes l2) l1 && forallb (includes l1) l2.

(** A resource without its id. *)
Definition resourceBody (r : Resource)
  : ResourceType * number * number * number * number :=
  (r_type r, r_x r, r_y r, r_amount r, r_maxAmount r).

(** Two engines constructed with [seed] in the worlds [wA] and [wB] have
    the same tile grid and the same set of resource ids. *)
Definition MapParity (seed : Z) (wA wB : World) : Prop :=
  match Scenario.value (newGameEngine seed normal) wA,
        Scenario.value (newGameEngine seed normal) wB with
  | Ok eA, Ok eB =>
      tiles (e_map eA) = tiles (e_map eB)
      /\ sameIdSet (resourceIds eA) (resourceIds eB)
  | _, _ => False
  end.

(** The seeds [createRoom] draws. *)
Definition seedDrawn (seed : Z) : Prop := 0 <= seed < 1000000.

(** A grid of [h] rows of [w] tiles. *)
Definition gridShape (w h : nat) (ts : list (list TileType)) : Prop :=
  List.length ts = h /\ Forall (fun row => List.length row = w) ts.

(** Two loop states of the resource placement agree up to resource ids. *)
Definition genAgree (a b : GenState) : Prop :=
  let '(tsA, rsA, sA) := a in
  let '(tsB, rsB, sB) := b in
  tsA = tsB /\ map resourceBody rsA = map resourceBody rsB /\ sA = sB.

(** A loop state the generator reaches from a seed that is not negative:
    the grid is 60 by 60 and the generator state is not negative. *)
Definition genSound (a : GenState) : Prop :=
  let '(ts, _, s) := a in gridShape 60 60 ts /\ 0 <= s.

(** From sound states that agree, [body] returns in both worlds, in sound
    states that agree. *)
Definition stepAgrees (body : GenState -> M GenState) : Prop :=
  forall a b wA wB, genAgree a b -> genSound a ->
    exists a' b' wA' wB',
      body a wA = (Ok a', wA') /\ body b wB = (Ok b', wB')
      /\ genAgree a' b' /\ genSound a'.


(** ** A small match in progress, for the examples *)

Module Demo.

Definition grid : list (list TileType) := repeat (repeat tGrass 60) 60.

Definition alice : Player :=
  mkPlayer "alice" "Alice" host "#4169E1" (mkResources $50 $0 $5 $20)
    (mkUpgrades 0 0 0) false.
Definition bob : Player :=
  mkPlayer "bob" "Bob" guest "#DC143C" (mkResources $200 $100 $5 $20)
    (mkUpgrades 0 0 0) false.

Definition baseOf (id owner : string) (x y : number) : Building :=
  mkBuilding id owner x y $800 $800 $96 base $100 [] None false 0.

(** Two players, a completed base each, nothing else. *)
Definition engine : GameEngine :=
  mkEngine 0 (mkGameMap 60 60 40 grid [])
    [] [("b-alice", baseOf "b-alice" "alice" $308 $308);
        ("b-bob", baseOf "b-bob" "bob" $2132 $2132)]
    [] [] [("alice", alice); ("bob", bob)] [("alice", []); ("bob", [])]
    false None None normal false None.

Definition workerOf (id owner : string) (x y : number) : Unit :=
  mkUnit id owner x y $50 $50 $16 worker idle None None [] $5 $3 60 0 $2 $0 $8 $60
    false 0.

(** Both bases have fallen in the same tick; a worker of each side is
    still alive. *)
Definition bothBaseless : GameEngine :=
  withUnits [("u-alice", workerOf "u-alice" "alice" $300 $300);
             ("u-bob", workerOf "u-bob" "bob" $2100 $2100)]
    (withBuildings [] engine).


(** Alice's soldier stands next to Bob's worker and has it as target. *)
Definition brawl : GameEngine :=
  withUnits
    [("u-alice",
      mkUnit "u-alice" "alice" $1000 $1000 $80 $80 $16 soldier attacking
        (Some "u-bob") None [] $10 $10 60 0 (9 # 5)%Q $1 $0 $0 false 0);
     ("u-bob", workerOf "u-bob" "bob" $1006 $1000)]
    engine.




(** A worker of each side near Alice's base. *)
Definition skirmish : GameEngine :=
  withUnits [("u-alice", workerOf "u-alice" "alice" $300 $300);
             ("u-bob", workerOf "u-bob" "bob" $2100 $2100)]
    engine.

(** Only Alice's base has fallen. *)
Definition aliceBaseless : GameEngine :=
  withBuildings [("b-bob", baseOf "b-bob" "bob" $2132 $2132)] engine.

(** The rooms of a server on which Alice has created a room and waits in
    it alone, not ready. *)
Definition lobby : Rooms :=
  [("room-1",
    mkRoom "room-1" "duel" (mkRoomConfig "room-1" "duel" 424242 normal 2)
      [("alice",
        mkConnection "alice" "Alice" host "#4169E1" false 1700000000000 true
          (mkResources $200 $100 $5 $10) [] [])]
      waiting None 1700000000000 None "alice" None None)].

End Demo.

(** ** Starting a room *)

(** The condition under which [startGame] goes ahead. *)
Definition mayStart (roomId hostId : string) (rooms : Rooms) : bool :=
  match JsMap.get rooms roomId with
  | None => false
  | Some room =>
      String.eqb (room_hostId room) hostId
      && isWaiting (room_status room)
      && (allReady room || (JsMap.size (room_players room) <=? 1)%nat)
  end.

(** Every player is stored under its own id. *)
Definition playersKeyed (e : GameEngine) : Prop :=
  Forall (fun kv => pl_id (snd kv) = fst kv) (e_players e).

Definition knowsPlayer (e : GameEngine) (id : string) : Prop :=
  JsMap.get (e_players e) id <> None.

(** [e'] is at the tick of [e], with its outcome. *)
Definition sameClock (e e' : GameEngine) : Prop :=
  e_gameOver e' = e_gameOver e /\ e_tick e' = e_tick e.

(** ** Build placement *)

(** The game state the room manager hands to [validateAction]. *)
Definition validatorView (e : GameEngine) : ValidatorState :=
  mkValidatorState
    $(width (e_map e) * tileSize (e_map e))
    $(height (e_map e) * tileSize (e_map e))
    (e_units e) (e_buildings e)
    (Some (map pl_id (JsMap.values (e_players e)))).

(** The tile under a pixel. *)
Definition tileUnder (e : GameEngine) (x y : number) : option TileType :=
  let tsz := $(tileSize (e_map e)) in
  tileAt (tiles (e_map e)) (Num.floor (x / tsz)%num) (Num.floor (y / tsz)%num).

(** The square footprint of side [size] centred at [pos] lies inside a map
    of [w] by [h] pixels: its four edges, computed in binary64 as the code
    computes them, are within [0, w] and [0, h]. *)
Definition withinMap (pos : Position) (size w h : number) : Prop :=
  let halfSize := (size /~ $2)%num in
  (0 <= (px pos -~ halfSize)%num /\ (px pos +~ halfSize)%num <= w
   /\ 0 <= (py pos -~ halfSize)%num /\ (py pos +~ halfSize)%num <= h)%Q.

(** The centre distance to [b], [Math.sqrt(dx * dx + dy * dy)] in binary64,
    is at least [(b.size + size) / 2 + 10]. *)
Definition clearOf (pos : Position) (size : number) (b : Building) : Prop :=
  (((b_size b +~ size) /~ $2 +~ $10)%num
   <= distTo (px pos) (py pos) (b_x b) (b_y b))%Q.

Definition affordable (r : PlayerResources) (cost : Cost) : Prop :=
  (c_gold cost <= gold r /\ c_wood cost <= wood r)%Q.

(** A single-player match on the map of seed 424242: Alice joins and the
    game is initialized. *)
Definition soloMatch : M GameEngine :=
  do e <- newGameEngine 424242 normal;
  initializeGame (addPlayer "alice" "Alice" host "#4169E1" e).

(** ** Win check *)

(** [id] owns a building of type base. *)
Definition ownsBase (e : GameEngine) (id : string) : bool :=
  existsb (isBaseOwnedBy id) (JsMap.values (e_buildings e)).

(** The reason the engine records: the name of the eliminated player. *)
Definition eliminatedReason (p : Player) : string :=
  strOr (Some (pl_name p)) "Player" ++ " eliminated".

(** ** Damage, as the specification words it *)

(** [max(1, base + 2 * attackUpgrade - 2 * defenseUpgrade)] *)
Definition specDamage (baseDamage : Q) (attackUpgrade defenseUpgrade : Z) : Q :=
  let raw := (baseDamage + 2 * inject_Z attackUpgrade - 2 * inject_Z defenseUpgrade)%Q in
  if Qlt_le_dec 1 raw then raw else 1%Q.




(** [proj] is a projectile [createProjectile] made for the unit [shooter]:
    it has the kind, damage, owner and splash radius [createProjectile]
    gives a projectile of that unit.  (Its position changes in flight.) *)
Definition firedBy (shooter : Unit) (proj : Projectile) : Prop :=
  exists id target tick,
    let made := makeProjectile id (u_type shooter) (u_x shooter) (u_y shooter)
                  (u_attackDamage shooter) (u_ownerId shooter) target tick in
    pj_type proj = pj_type made /\ pj_damage proj = pj_damage made
    /\ pj_ownerId proj = pj_ownerId made
    /\ pj_splashRadius proj = pj_splashRadius made.

(** The unit's [attackDamage] is the damage stat of its type, as
    [spawnUnit] sets it for an owner without attack upgrade. *)
Definition carriesStatDamage (u : Unit) : Prop :=
  u_attackDamage u = us_damage (UNIT_STATS (u_type u)).


(** ** Runs of the engine *)

(** [n] calls of [update(1)], as the tick loop makes them. *)
Fixpoint ticks (n : nat) (e : GameEngine) : M GameEngine :=
  match n with
  | O => ret e
  | S n' => do e' <- update 1 e; ticks n' e'
  end.

(** [pid] has the tile in column [x] of row [y] in its discovered list. *)
Definition discovered (e : GameEngine) (pid : string) (x y : Z) : bool :=
  match JsMap.get (e_discoveredTiles e) pid with
  | Some ts => existsb (fun t => Z.eqb (dt_x t) x && Z.eqb (dt_y t) y) ts
  | None => false
  end.

Module FogRun.

(** The random source answers 1/2 throughout, except for the two draws
    that place Alice's first worker, which are 1/4: the base stands at
    (308, 308), the first worker appears at (293, 293), the other two on
    the base. *)
Definition draws (n : nat) : number :=
  if ((37 <=? n) && (n <=? 38))%nat then (1 # 4)%Q else (1 # 2)%Q.

Definition world : World := Scenario.world draws.

(** Alice creates a room and starts it on her own. *)
Definition started : M GameEngine :=
  do created <- createRoom "alice" "Alice" "solo" normal [];
  match fst created with
  | Some view =>
      do r <- startGame (cfg_roomId (rs_config view)) "alice" (snd created);
      match fst r with
      | Some view' =>
          match rs_gameState view' with
          | Some e => ret e
          | None => throw "no engine"
          end
      | None => throw "not started"
      end
  | None => throw "no room"
  end.

(** She sends her first worker east and the engine runs [n] ticks. *)
Definition run (n : nat) : M GameEngine :=
  do e <- started;
  match JsMap.keys (e_units e) with
  | first :: _ =>
      do r <- processAction "alice" (A_move first (mkPosition $2000 $293)) e;
      ticks n (snd r)
  | [] => throw "no unit"
  end.

(** Where Alice's units stand. *)
Definition positions (e : GameEngine) : list (number * number) :=
  map (fun u => (u_x u, u_y u)) (JsMap.values (e_units e)).

End FogRun.

Module UnfinishedRun.

(** Bob puts up a barracks and queues a soldier in it. *)
Definition barracksRun (n : nat) : M GameEngine :=
  do r1 <- processAction "bob" (A_build barracks (mkPosition $1900 $2132)) Demo.skirmish;
  match JsMap.keys (e_buildings (snd r1)) with
  | [_; _; built] =>
      do r2 <- processAction "bob" (A_produce built soldier) (snd r1);
      ticks n (snd r2)
  | _ => throw "not built"
  end.

(** Bob puts up a tower within reach of Alice's worker. *)
Definition towerRun (n : nat) : M GameEngine :=
  do r1 <- processAction "bob" (A_build tower (mkPosition $420 $308)) Demo.skirmish;
  ticks n (snd r1).

Definition lastBuilding (e : GameEngine) : option Building :=
  last (map Some (JsMap.values (e_buildings e))) None.

End UnfinishedRun.

(* ===================================================================== *)
(** * Further properties: definitions                                      *)
(* ===================================================================== *)

(** ** The generated map *)

(** The two 5 by 5 corners [generateMap] reserves for the players. *)
Definition inSpawnCorner (x y : Z) : Prop :=
  (0 <= x < 5 /\ 0 <= y < 5) \/ (54 < x < 60 /\ 54 < y < 60).

Definition tileOfResource (t : ResourceType) : TileType :=
  match t with resGold => tGold | resWood => tForest end.

(** A resource as [generateMap] leaves it: at the centre of the tile in
    column [tx] of row [ty], away from the border, on a tile of its own
    kind, with an amount of [lo] to [hi]. *)
Definition resourcePlaced (ts : list (list TileType)) (r : Resource) : Prop :=
  exists tx ty amount,
    2 <= tx <= 57 /\ 2 <= ty <= 57
    /\ r_x r = $(tx * 40 + 20) /\ r_y r = $(ty * 40 + 20)
    /\ tileAt ts tx ty = Some (tileOfResource (r_type r))
    /\ r_amount r = $amount
    /\ match r_type r with
       | resGold => 1500 <= amount <= 2999 /\ r_maxAmount r = $3000
       | resWood => 800 <= amount <= 1499 /\ r_maxAmount r = $1500
       end.

(** What the two resource loops of [generateMap] maintain.  While gold is
    being placed ([goldOnly]) every resource is a gold mine; [bound] caps
    the number of resources. *)
Definition mapInv (goldOnly : bool) (bound : nat) (st : GenState) : Prop :=
  let '(ts, rs, s) := st in
  gridShape 60 60 ts
  /\ (forall x y, inSpawnCorner x y -> tileAt ts x y = Some tGrass)
  /\ Forall (resourcePlaced ts) rs
  /\ (goldOnly = true -> Forall (fun r => r_type r = resGold) rs)
  /\ (List.length rs <= bound)%nat
  /\ 0 <= s.

(** ** Engine actions *)

(** What an action of player [p] leaves alone: the units and buildings of
    the other players ([newId] is the id [generateId] is about to hand out,
    under which a build action stores its building), the other players
    themselves, and the clock, map, projectiles and outcome of the game. *)
Definition actionFrame (p : string) (newId : Result string) (e e' : GameEngine) : Prop :=
  (forall k u, JsMap.get (e_units e) k = Some u -> u_ownerId u <> p ->
               JsMap.get (e_units e') k = Some u)
  /\ (forall k b, JsMap.get (e_buildings e) k = Some b -> b_ownerId b <> p ->
                  newId <> Ok k -> JsMap.get (e_buildings e') k = Some b)
  /\ (forall q, q <> p -> JsMap.get (e_players e') q = JsMap.get (e_players e) q)
  /\ e_tick e' = e_tick e /\ e_map e' = e_map e
  /\ e_resources e' = e_resources e
  /\ e_projectiles e' = e_projectiles e
  /\ e_discoveredTiles e' = e_discoveredTiles e
  /\ (e_gameOver e', e_winner e', e_winnerReason e')
     = (e_gameOver e, e_winner e, e_winnerReason e).

(** [player.upgrades[upgradeType]++; player.resources.gold -= 100] *)
Definition research (t : UpgradeType) (p : Player) : Player :=
  let r := pl_resources p in
  withPlUpgrades (bumpUpgrade t (pl_upgrades p))
    (withPlResources (withGold (gold r - $100)%num r) p).

Definition maxLevel (t : UpgradeType) : Z :=
  match t with upRange => 2 | _ => 3 end.

(** The two ways an action rewrites its sender: paying a cost the sender
    can afford, or researching an upgrade below its cap for 100 gold. *)
Definition ledgerStep (pl pl' : Player) : Prop :=
  (exists cost, cannotAfford pl cost = false /\ pl' = debit cost pl)
  \/ (exists t, upgradeLevel t (pl_upgrades pl) < maxLevel t
                /\ (100 <= gold (pl_resources pl))%Q
                /\ pl' = research t pl).

Definition solvent (pl : Player) : Prop :=
  (0 <= gold (pl_resources pl) /\ 0 <= wood (pl_resources pl))%Q.

Definition withinCaps (pl : Player) : Prop :=
  attack (pl_upgrades pl) <= 3 /\ defense (pl_upgrades pl) <= 3
  /\ range (pl_upgrades pl) <= 2.

(** ** win-conditions: the per-player checks *)

(** [checkPlayerVictory]: the loop returns false at the first other player
    that owns a base. *)
Definition checkPlayerVictory (playerId : string) (gameState : GameEngine) : bool :=
  let players := JsMap.values (e_players gameState) in
  let otherPlayers := filter (fun p => negb (String.eqb (pl_id p) playerId)) players in
  forallb
    (fun otherPlayer =>
       negb (existsb (fun b => String.eqb (b_ownerId b) (pl_id otherPlayer)
                               && BuildingType_beq (b_type b) base)
               (JsMap.values (e_buildings gameState))))
    otherPlayers.

Definition checkPlayerDefeat (playerId : string) (gameState : GameEngine) : bool :=
  let playerBuildings := filter (ownedBy playerId) (JsMap.values (e_buildings gameState)) in
  negb (existsb (hasType base) playerBuildings).

(** [id] has no unit and no building left. *)
Definition wipedOut (gs : GameEngine) (id : string) : bool :=
  isEmpty (filter (unitOwnedBy id) (JsMap.values (e_units gs)))
  && isEmpty (filter (ownedBy id) (JsMap.values (e_buildings gs))).

(** ** validator.ts: rate limiting and the resource check *)

Record RateLimitConfig := mkRateLimitConfig {
  maxActionsPerSecond : Z;
  maxActionsPerMinute : Z
}.

Definition DEFAULT_RATE_LIMIT : RateLimitConfig := mkRateLimitConfig 10 300.

Record PlayerRateLimit := mkRateLimit {
  actionCount : Z;
  minuteCount : Z;
  lastActionTime : Z;
  recentActions : list Z
}.

(** The module-level [playerRateLimits] map. *)
Definition RateLimits := JsMap.t PlayerRateLimit.

Definition checkRateLimit (playerId : string) (config : RateLimitConfig)
  (limits : RateLimits) : M (ValidationResult * RateLimits) :=
  do now <- dateNow;
  let rateLimit :=
    match JsMap.get limits playerId with
    | Some rl => rl
    | None => mkRateLimit 0 0 now []
    end in
  (* Clean old actions from recentActions (keep last 1 second) *)
  let recent := filter (fun t => now - t <? 1000) (recentActions rateLimit) in
  let cleaned :=
    mkRateLimit (actionCount rateLimit) (minuteCount rateLimit)
      (lastActionTime rateLimit) recent in
  (* Check per-second limit *)
  if Z.of_nat (List.length recent) >=? maxActionsPerSecond config then
    ret (reject "Rate limit exceeded: too many actions per second",
         JsMap.set limits playerId cleaned)
  (* Check per-minute limit *)
  else if minuteCount rateLimit >=? maxActionsPerMinute config then
    ret (reject "Rate limit exceeded: too many actions per minute",
         JsMap.set limits playerId cleaned)
  else
    (* Update counters; reset minute counter if needed *)
    let expired := now - lastActionTime rateLimit >=? 60000 in
    ret (accept,
         JsMap.set limits playerId
           (mkRateLimit (actionCount rateLimit)
              ((if expired then 0 else minuteCount rateLimit) + 1)
              (if expired then now else lastActionTime rateLimit)
              (recent ++ [now])%list)).

(** [cleanupRateLimits]: the loop deletes, key by key, the entries idle for
    more than five minutes. *)
Definition cleanupRateLimits (limits : RateLimits) : M RateLimits :=
  do now <- dateNow;
  ret (fold_left
         (fun m kv =>
            if now - lastActionTime (snd kv) >? 300000 then JsMap.delete m (fst kv) else m)
         limits limits).

(** The validator's own resource check; the [details] it attaches to a
    rejection are left out. *)
Definition validateResources (clientResources serverResources : PlayerResources)
  (tolerance : number) : ValidationResult :=
  if (Num.abs (gold clientResources -~ gold serverResources) >? tolerance)%num
  then reject "Resource mismatch detected"
  else if (Num.abs (wood clientResources -~ wood serverResources) >? tolerance)%num
  then reject "Resource mismatch detected"
  else accept.

(** The default value of its [tolerance] parameter. *)
Definition validatorTolerance : number := $10.

(** The unit, respectively the building, an action is addressed to; a
    build action names neither. *)
Definition unitOf (a : ActionType) : option string :=
  match a with
  | A_move u _ | A_attack u _ | A_stop u | A_holdPosition u | A_patrol u _
  | A_attackMove u _ | A_attackGround u _ | A_gather u _ | A_returnResources u => Some u
  | _ => None
  end.

Definition buildingOf (a : ActionType) : option string :=
  match a with
  | A_produce b _ | A_cancelProduction b _ | A_setRallyPoint b _ | A_upgrade b _ => Some b
  | _ => None
  end.


(** ** anticheat.ts: unit stats *)

(** The message templates of [validateUnitStats], with the numbers they
    interpolate; the [details] objects are left out. *)
Inductive Finding :=
| HpTooHigh (actual expected : number)
| DamageTooHigh (actual expected : number)
| RangeTooHigh (actual expected : number)
| SpeedTooHigh (actual expected : number).

Record Detection := mkDetection {
  det_flagged : bool;
  det_reason : option Finding;
  det_severity : Severity
}.

(** [{ flagged: false, severity: 'warning' }] *)
Definition clean : Detection := mkDetection false None warning.

Record ExpectedStats := mkExpectedStats {
  ex_hp : number;
  ex_damage : number;
  ex_range : number;
  ex_speed : number
}.

Definition validateUnitStats (unit : Unit) (expectedStats : ExpectedStats) : Detection :=
  if (u_hp unit >? ex_hp expectedStats * (3 # 2)%Q)%num then
    mkDetection true (Some (HpTooHigh (u_hp unit) (ex_hp expectedStats))) confirmed
  else if (u_attackDamage unit >? ex_damage expectedStats * $2)%num then
    mkDetection true
      (Some (DamageTooHigh (u_attackDamage unit) (ex_damage expectedStats))) confirmed
  else if (u_attackRange unit >? ex_range expectedStats * $2)%num
          && (ex_range expectedStats >? $0)%num then
    mkDetection true
      (Some (RangeTooHigh (u_attackRange unit) (ex_range expectedStats))) suspicious
  else if (u_moveSpeed unit >? ex_speed expectedStats * (3 # 2)%Q)%num then
    mkDetection true
      (Some (SpeedTooHigh (u_moveSpeed unit) (ex_speed expectedStats))) confirmed
  else clean.

(** The stats table entry of a unit type, as [validateUnitStats] expects it. *)
Definition expectedOf (t : UnitType) : ExpectedStats :=
  let stats := UNIT_STATS t in
  mkExpectedStats (us_hp stats) (us_damage stats) (us_range stats) (us_speed stats).

(** [u] has exactly the hp, damage, range and speed it is expected to
    have. *)
Definition carriesStats (u : Unit) (expected : ExpectedStats) : Prop :=
  u_hp u = ex_hp expected /\ u_attackDamage u = ex_damage expected
  /\ u_attackRange u = ex_range expected /\ u_moveSpeed u = ex_speed expected.

(** ** room-manager.ts: the rest of the room API *)

Definition getRoom (roomId : string) (rooms : Rooms) : option RoomState :=
  match JsMap.get rooms roomId with
  | Some room => Some (convertToRoomState room)
  | None => None
  end.

Definition getAvailableRooms (rooms : Rooms) : list RoomState :=
  map convertToRoomState
    (filter (fun room => isWaiting (room_status room)
                         && (JsMap.size (room_players room)
                             <? cfg_maxPlayers (room_config room))%nat)
       (JsMap.values rooms)).

(** [clearInterval] on both timers, then [rooms.delete(roomId)]. *)
Definition cleanupRoom (roomId : string) (rooms : Rooms) : Rooms :=
  match JsMap.get rooms roomId with
  | None => rooms
  | Some _ => JsMap.delete rooms roomId
  end.

Definition withRoomPlayers (players : JsMap.t PlayerConnection) (room : GameRoom)
  : GameRoom :=
  mkRoom (room_id room) (room_name room) (room_config room) players
    (room_status room) (room_engine room) (room_createdAt room)
    (room_startedAt room) (room_hostId room) (room_tickInterval room)
    (room_snapshotInterval room).

Definition withHostId (hostId : string) (room : GameRoom) : GameRoom :=
  mkRoom (room_id room) (room_name room) (room_config room) (room_players room)
    (room_status room) (room_engine room) (room_createdAt room)
    (room_startedAt room) hostId (room_tickInterval room)
    (room_snapshotInterval room).

Definition withRoomEngine (engine : option GameEngine) (room : GameRoom) : GameRoom :=
  mkRoom (room_id room) (room_name room) (room_config room) (room_players room)
    (room_status room) engine (room_createdAt room)
    (room_startedAt room) (room_hostId room) (room_tickInterval room)
    (room_snapshotInterval room).

(** [newHost.team = 'host'; newHost.color = '#4169E1'] *)
Definition promote (p : PlayerConnection) : PlayerConnection :=
  mkConnection (pc_id p) (pc_name p) host "#4169E1" (pc_ready p) (pc_lastPing p)
    (pc_isConnected p) (pc_resources p) (pc_ownedUnitIds p) (pc_ownedBuildingIds p).

(** [leaveRoom] looks for the first room, in creation order, that holds the
    player, takes the player out and returns. *)
Definition leaveRoom (playerId : string) (rooms : Rooms) : Rooms :=
  match find (fun kv => JsMap.has (room_players (snd kv)) playerId) rooms with
  | None => rooms
  | Some (roomId, room) =>
      let players := JsMap.delete (room_players room) playerId in
      (* Handle host leaving *)
      if String.eqb (room_hostId room) playerId then
        match players with
        | (k, newHost) :: rest =>
            (* Assign new host *)
            JsMap.set rooms roomId
              (withHostId (pc_id newHost)
                 (withRoomPlayers ((k, promote newHost) :: rest) room))
        | [] =>
            (* No players left, delete room *)
            cleanupRoom roomId rooms
        end
      (* If game not started and no players left, delete room *)
      else if isWaiting (room_status room) && Nat.eqb (JsMap.size players) 0
      then cleanupRoom roomId (JsMap.set rooms roomId (withRoomPlayers players room))
      else JsMap.set rooms roomId (withRoomPlayers players room)
  end.

Definition pinged (at_ : Z) (p : PlayerConnection) : PlayerConnection :=
  mkConnection (pc_id p) (pc_name p) (pc_team p) (pc_color p) (pc_ready p) at_
    true (pc_resources p) (pc_ownedUnitIds p) (pc_ownedBuildingIds p).

(** [handlePing] reads the clock twice: once for [lastPing], once for the
    value it returns. *)
Definition handlePing (roomId playerId : string) (rooms : Rooms) : M (Z * Rooms) :=
  match JsMap.get rooms roomId with
  | None => ret (0, rooms)
  | Some room =>
      match JsMap.get (room_players room) playerId with
      | None => ret (0, rooms)
      | Some player =>
          do lastPing <- dateNow;
          let room' :=
            withRoomPlayers
              (JsMap.set (room_players room) playerId (pinged lastPing player)) room in
          do now <- dateNow;
          ret (now, JsMap.set rooms roomId room')
      end
  end.

Definition disconnected (p : PlayerConnection) : PlayerConnection :=
  mkConnection (pc_id p) (pc_name p) (pc_team p) (pc_color p) (pc_ready p)
    (pc_lastPing p) false (pc_resources p) (pc_ownedUnitIds p) (pc_ownedBuildingIds p).

(** Consider disconnected if no ping for 30 seconds. *)
Definition isStale (now : Z) (p : PlayerConnection) : bool :=
  now - pc_lastPing p >? 30000.

Definition checkConnections (roomId : string) (rooms : Rooms)
  : M (list string * Rooms) :=
  match JsMap.get rooms roomId with
  | None => ret ([], rooms)
  | Some room =>
      do now <- dateNow;
      let players' :=
        map (fun kv => if isStale now (snd kv) then (fst kv, disconnected (snd kv)) else kv)
          (room_players room) in
      let stale := map fst (filter (fun kv => isStale now (snd kv)) (room_players room)) in
      ret (stale, JsMap.set rooms roomId (withRoomPlayers players' room))
  end.

(** [endGame]: the status becomes ended and both timers are cleared; the
    final snapshot is only logged. *)
Definition endGame (roomId : string) (winnerId : option string) (rooms : Rooms) : Rooms :=
  match JsMap.get rooms roomId with
  | None => rooms
  | Some room =>
      JsMap.set rooms roomId
        (mkRoom (room_id room) (room_name room) (room_config room) (room_players room)
           ended (room_engine room) (room_createdAt room) (room_startedAt room)
           (room_hostId room) None None)
  end.

(** The callback [startGame] registers with [setInterval] as the tick
    loop; it runs for as long as the room keeps the timer. *)
Definition tickLoop (roomId : string) (rooms : Rooms) : M Rooms :=
  match JsMap.get rooms roomId with
  | None => ret rooms
  | Some room =>
      match room_tickInterval room, room_engine room with
      | Some _, Some engine =>
          do engine' <- update 1 engine;
          let rooms' := JsMap.set rooms roomId (withRoomEngine (Some engine') room) in
          (* Check game over *)
          if e_gameOver engine' then ret (endGame roomId (e_winner engine') rooms')
          else ret rooms'
      | _, _ => ret rooms
      end
  end.

Module RoomManager.

(** [processAction] of the room manager: rate limit, validation against
    the player's connection, then the engine. *)
Definition processAction (roomId playerId : string) (action : ActionType)
  (rooms : Rooms) (limits : RateLimits) : M (ValidationResult * Rooms * RateLimits) :=
  match JsMap.get rooms roomId with
  | None => ret (reject "Room or game not found", rooms, limits)
  | Some room =>
      match room_engine room with
      | None => ret (reject "Room or game not found", rooms, limits)
      | Some engine =>
          match JsMap.get (room_players room) playerId with
          | None => ret (reject "Player not in room", rooms, limits)
          | Some player =>
              (* Check rate limit *)
              do '(rateLimitResult, limits') <-
                checkRateLimit playerId DEFAULT_RATE_LIMIT limits;
              if negb (valid rateLimitResult) then ret (rateLimitResult, rooms, limits')
              else
                (* Validate action *)
                let validationResult :=
                  validateAction action playerId (pc_resources player)
                    (pc_ownedUnitIds player) (pc_ownedBuildingIds player)
                    (Some (validatorView engine)) in
                if negb (valid validationResult) then ret (validationResult, rooms, limits')
                else
                  (* Process action in engine *)
                  do '(success, engine') <- processAction playerId action engine;
                  ret (mkValidation success
                         (if success then None else Some "Failed to process action"),
                       JsMap.set rooms roomId (withRoomEngine (Some engine') room),
                       limits')
          end
      end
  end.

End RoomManager.

(** The periodic cleanup: stale rate limits go, and so do rooms created
    more than an hour ago. *)
Definition periodicCleanup (rooms : Rooms) (limits : RateLimits)
  : M (Rooms * RateLimits) :=
  do limits' <- cleanupRateLimits limits;
  do rooms' <-
    foldM (fun (rs : Rooms) (kv : string * GameRoom) =>
             do now <- dateNow;
             if now - room_createdAt (snd kv) >? 3600000
             then ret (cleanupRoom (fst kv) rs)
             else ret rs)
      rooms rooms;
  ret (rooms', limits').

(** ** The server as a whole *)

(** The two module-level maps: the rooms and the rate limits. *)
Record Server := mkServer {
  sv_rooms : Rooms;
  sv_limits : RateLimits
}.

(** What can happen to the server: a call of its API, a firing of a
    room's tick loop, or the periodic cleanup. *)
Inductive Call :=
| CreateRoom (hostId hostName roomName : string) (difficulty : Difficulty)
| JoinRoom (roomId playerId playerName : string)
| LeaveRoom (playerId : string)
| SetPlayerReady (roomId playerId : string) (ready : bool)
| StartGame (roomId hostId : string)
| ProcessAction (roomId playerId : string) (action : ActionType)
| HandlePing (roomId playerId : string)
| CheckConnections (roomId : string)
| Tick (roomId : string)
| PeriodicCleanup.

Definition perform (s : Server) (c : Call) : M Server :=
  let rooms := sv_rooms s in
  let limits := sv_limits s in
  match c with
  | CreateRoom hostId hostName roomName difficulty =>
      do r <- createRoom hostId hostName roomName difficulty rooms;
      ret (mkServer (snd r) limits)
  | JoinRoom roomId playerId playerName =>
      do r <- joinRoom roomId playerId playerName rooms;
      ret (mkServer (snd r) limits)
  | LeaveRoom playerId => ret (mkServer (leaveRoom playerId rooms) limits)
  | SetPlayerReady roomId playerId ready =>
      ret (mkServer (snd (setPlayerReady roomId playerId ready rooms)) limits)
  | StartGame roomId hostId =>
      do r <- startGame roomId hostId rooms;
      ret (mkServer (snd r) limits)
  | ProcessAction roomId playerId action =>
      do r <- RoomManager.processAction roomId playerId action rooms limits;
      ret (mkServer (snd (fst r)) (snd r))
  | HandlePing roomId playerId =>
      do r <- handlePing roomId playerId rooms;
      ret (mkServer (snd r) limits)
  | CheckConnections roomId =>
      do r <- checkConnections roomId rooms;
      ret (mkServer (snd r) limits)
  | Tick roomId =>
      do rooms' <- tickLoop roomId rooms;
      ret (mkServer rooms' limits)
  | PeriodicCleanup =>
      do r <- periodicCleanup rooms limits;
      ret (mkServer (fst r) (snd r))
  end.

(** The server after a history of calls, starting with no room and no
    rate limit. *)
Definition serverAfter (history : list Call) : M Server :=
  foldM perform history (mkServer [] []).

(** What every room of the server satisfies at all times. *)
Definition roomOk (room : GameRoom) : Prop :=
  let players := room_players room in
  (1 <= JsMap.size players <= 2)%nat
  /\ cfg_maxPlayers (room_config room) = 2%nat
  /\ Forall (fun kv => fst kv = pc_id (snd kv)) players
  /\ (exists hostConnection,
        JsMap.get players (room_hostId room) = Some hostConnection
        /\ pc_team hostConnection = host)
  /\ Forall (fun p => pc_ownedUnitIds p = [] /\ pc_ownedBuildingIds p = []
                      /\ pc_resources p = mkResources $200 $100 $5 $10)
       (JsMap.values players)
  /\ (room_engine room = None <-> room_status room = waiting)
  /\ (room_tickInterval room <> None <-> room_status room = playing).

Definition serverOk (s : Server) : Prop :=
  Forall roomOk (JsMap.values (sv_rooms s)).

(** A connection rewritten in place keeps its seat: id, team, owned ids
    and resources. *)
Definition sameSeat (p p' : PlayerConnection) : Prop :=
  pc_id p' = pc_id p /\ pc_team p' = pc_team p
  /\ pc_ownedUnitIds p' = pc_ownedUnitIds p
  /\ pc_ownedBuildingIds p' = pc_ownedBuildingIds p
  /\ pc_resources p' = pc_resources p.

(** Histories used to evaluate the server. *)
Module Play.

(** The id [createRoom] gives the first room in [Scenario.worldA]. *)
Definition room : string := "room-1700000000000-c".

(** Alice opens a room, Bob joins, both declare ready and Alice starts. *)
Definition started : list Call :=
  [CreateRoom "alice" "Alice" "duel" normal; JoinRoom room "bob" "Bob";
   SetPlayerReady room "alice" true; SetPlayerReady room "bob" true;
   StartGame room "alice"].

(** Then Bob sends an order, the tick loop fires once and Alice leaves. *)
Definition duel : list Call :=
  (started ++ [ProcessAction room "bob" (A_stop "u-1"); Tick room; LeaveRoom "alice"])%list.

(** The server a history leaves in [Scenario.worldA]. *)
Definition serverOf (history : list Call) : Server :=
  match Scenario.value (serverAfter history) Scenario.worldA with
  | Ok s => s
  | Throw _ => mkServer [] []
  end.

(** A room with Alice as host and Bob as guest, both ready. *)
Definition hostSeat : PlayerConnection :=
  mkConnection "alice" "Alice" host "#4169E1" true 1700000000000 true
    (mkResources $200 $100 $5 $10) [] [].
Definition guestSeat : PlayerConnection :=
  mkConnection "bob" "Bob" guest "#DC143C" true 1700000000001 true
    (mkResources $200 $100 $5 $10) [] [].
Definition duelRoom : GameRoom :=
  mkRoom "room-1" "duel" (mkRoomConfig "room-1" "duel" 424242 normal 2)
    [("alice", hostSeat); ("bob", guestSeat)]
    waiting None 1700000000000 None "alice" None None.

(** The engine [startGame] builds for that room, and the engine after its
    first tick. *)
Definition duelEngine : GameEngine :=
  match Scenario.value (startEngine duelRoom) Scenario.worldA with
  | Ok e => e
  | Throw _ => Demo.engine
  end.
Definition duelAfterTick : GameEngine :=
  match Scenario.value (update 1 duelEngine)
          (Scenario.after (startEngine duelRoom) Scenario.worldA) with
  | Ok e => e
  | Throw _ => Demo.engine
  end.

End Play.

(* ===================================================================== *)
(** * tick-manager.ts                                                      *)
(* ===================================================================== *)

Module TickManager.

Inductive Status := running | paused | stopped.

Record TickManagerConfig := mkConfig {
  tickRate : Z;
  snapshotRate : Z;
  maxPlayers : Z;
  timeoutMs : Z
}.

Definition DEFAULT_CONFIG : TickManagerConfig := mkConfig 60 10 2 30000.

(** [Partial<TickManagerConfig>] *)
Record PartialConfig := mkPartial {
  p_tickRate : option Z;
  p_snapshotRate : option Z;
  p_maxPlayers : option Z;
  p_timeoutMs : option Z
}.

Definition orDefault (o : option Z) (d : Z) : Z :=
  match o with Some v => v | None => d end.

(** [{ ...DEFAULT_CONFIG, ...config }] *)
Definition fullConfig (config : PartialConfig) : TickManagerConfig :=
  mkConfig (orDefault (p_tickRate config) (tickRate DEFAULT_CONFIG))
    (orDefault (p_snapshotRate config) (snapshotRate DEFAULT_CONFIG))
    (orDefault (p_maxPlayers config) (maxPlayers DEFAULT_CONFIG))
    (orDefault (p_timeoutMs config) (timeoutMs DEFAULT_CONFIG)).

Record TickInput := mkTickInput {
  ti_tick : Z;
  ti_action : ActionType;
  ti_timestamp : Z
}.

Record PlayerState := mkPlayerState {
  ps_id : string;
  lastAckedTick : Z;
  lastInputTick : Z;
  pendingInputs : list TickInput
}.

(** The broadcast callback of a managed room is left out: it only
    receives snapshots. *)
Record ManagedRoom := mkManagedRoom {
  mr_id : string;
  mr_engine : GameEngine;
  mr_players : JsMap.t PlayerState;
  mr_config : TickManagerConfig;
  mr_status : Status;
  mr_tickInterval : option Timeout;
  mr_snapshotInterval : option Timeout;
  lastTick : Z;
  tickCount : Z;
  startTime : Z
}.

(** The module-level [managedRooms] map. *)
Definition ManagedRooms := JsMap.t ManagedRoom.

Definition createTickManager (roomId : string) (engine : GameEngine)
  (config : PartialConfig) (rooms : ManagedRooms) : ManagedRoom * ManagedRooms :=
  let manager :=
    mkManagedRoom roomId engine JsMap.empty (fullConfig config) stopped None None 0 0 0 in
  (manager, JsMap.set rooms roomId manager).

Definition withPlayers (players : JsMap.t PlayerState) (room : ManagedRoom)
  : ManagedRoom :=
  mkManagedRoom (mr_id room) (mr_engine room) players (mr_config room) (mr_status room)
    (mr_tickInterval room) (mr_snapshotInterval room) (lastTick room) (tickCount room)
    (startTime room).

Definition addPlayer (roomId playerId : string) (rooms : ManagedRooms)
  : bool * ManagedRooms :=
  match JsMap.get rooms roomId with
  | None => (false, rooms)
  | Some room =>
      (true,
       JsMap.set rooms roomId
         (withPlayers (JsMap.set (mr_players room) playerId
                         (mkPlayerState playerId 0 0 [])) room))
  end.

Definition removePlayer (roomId playerId : string) (rooms : ManagedRooms)
  : bool * ManagedRooms :=
  match JsMap.get rooms roomId with
  | None => (false, rooms)
  | Some room =>
      (true,
       JsMap.set rooms roomId (withPlayers (JsMap.delete (mr_players room) playerId) room))
  end.

Definition isRunning (s : Status) : bool :=
  match s with running => true | _ => false end.

Definition withPending (pending : list TickInput) (p : PlayerState) : PlayerState :=
  mkPlayerState (ps_id p) (lastAckedTick p) (lastInputTick p) pending.

(** [xs.slice(-n)]: the last [n] elements. *)
Definition sliceLast {A} (n : nat) (xs : list A) : list A :=
  skipn (List.length xs - n) xs.

Definition submitInput (roomId playerId : string) (input : ActionType) (tick : Z)
  (rooms : ManagedRooms) : M (bool * ManagedRooms) :=
  match JsMap.get rooms roomId with
  | None => ret (false, rooms)
  | Some room =>
      if negb (isRunning (mr_status room)) then ret (false, rooms)
      else
        match JsMap.get (mr_players room) playerId with
        | None => ret (false, rooms)
        | Some player =>
            (* Queue input for processing *)
            do timestamp <- dateNow;
            let pending := (pendingInputs player ++ [mkTickInput tick input timestamp])%list in
            (* Keep only last 60 inputs *)
            let pending :=
              if (60 <? List.length pending)%nat then sliceLast 60 pending else pending in
            ret (true,
                 JsMap.set rooms roomId
                   (withPlayers
                      (JsMap.set (mr_players room) playerId (withPending pending player))
                      room))
        end
  end.

Definition startTickManager (roomId : string) (rooms : ManagedRooms)
  : M (bool * ManagedRooms) :=
  match JsMap.get rooms roomId with
  | None => ret (false, rooms)
  | Some room =>
      if isRunning (mr_status room) then ret (false, rooms)
      else
        do now <- dateNow;
        ret (true,
             JsMap.set rooms roomId
               (mkManagedRoom (mr_id room) (mr_engine room) (mr_players room)
                  (mr_config room) running (Some TickLoop) (Some SnapshotLoop) 0 0 now))
  end.

Definition stopped_ (room : ManagedRoom) : ManagedRoom :=
  mkManagedRoom (mr_id room) (mr_engine room) (mr_players room) (mr_config room)
    stopped None None (lastTick room) (tickCount room) (startTime room).

Definition stopTickManager (roomId : string) (rooms : ManagedRooms)
  : bool * ManagedRooms :=
  match JsMap.get rooms roomId with
  | None => (false, rooms)
  | Some room => (true, JsMap.set rooms roomId (stopped_ room))
  end.

(** The inputs of one player in the tick loop: those stamped with the
    current tick go to the engine, in order; those stamped with a later
    tick stay; the rest are dropped. *)
Definition processInputs (currentTick : Z)
  (st : GameEngine * JsMap.t PlayerState) (kv : string * PlayerState)
  : M (GameEngine * JsMap.t PlayerState) :=
  let '(engine, seen) := st in
  let '(playerId, playerState) := kv in
  (* Get inputs for this tick *)
  let tickInputs :=
    filter (fun i => ti_tick i =? currentTick) (pendingInputs playerState) in
  do engine' <-
    foldM (fun en input => do r <- processAction playerId (ti_action input) en; ret (snd r))
      tickInputs engine;
  (* Clear processed inputs *)
  let playerState' :=
    withPending (filter (fun i => ti_tick i >? currentTick) (pendingInputs playerState))
      playerState in
  ret (engine', (seen ++ [(playerId, playerState')])%list).

(** The callback [startTickManager] registers as the main tick loop; it
    runs for as long as the room keeps the timer. *)
Definition tick (roomId : string) (rooms : ManagedRooms) : M ManagedRooms :=
  match JsMap.get rooms roomId with
  | None => ret rooms
  | Some room =>
      match mr_tickInterval room with
      | None => ret rooms
      | Some _ =>
          if negb (isRunning (mr_status room)) then ret rooms
          else
            let currentTick := tickCount room + 1 in
            (* Process player inputs for this tick *)
            do st <- foldM (processInputs currentTick) (mr_players room)
                       (mr_engine room, []);
            (* Update game state *)
            do engine <- update 1 (fst st);
            let ticked :=
              mkManagedRoom (mr_id room) engine (snd st) (mr_config room)
                (mr_status room) (mr_tickInterval room) (mr_snapshotInterval room)
                (lastTick room) currentTick (startTime room) in
            (* Check win condition *)
            if e_gameOver engine
            then ret (snd (stopTickManager roomId (JsMap.set rooms roomId ticked)))
            else
              ret (JsMap.set rooms roomId
                     (mkManagedRoom (mr_id room) engine (snd st) (mr_config room)
                        (mr_status room) (mr_tickInterval room)
                        (mr_snapshotInterval room) currentTick currentTick
                        (startTime room)))
      end
  end.

End TickManager.

(** The players of a managed room with every pending input removed. *)
Definition noInputs (players : JsMap.t TickManager.PlayerState)
  : JsMap.t TickManager.PlayerState :=
  map (fun kv => (fst kv, TickManager.withPending [] (snd kv))) players.

(** Every pending input of every player is stamped with tick [t] or an
    earlier one. *)
Definition allStale (t : Z) (players : JsMap.t TickManager.PlayerState) : Prop :=
  Forall (fun kv => Forall (fun i => TickManager.ti_tick i <= t)
                      (TickManager.pendingInputs (snd kv)))
    players.

(** ** The main loop *)

(** What the systems run by a tick never change: the unit ids present
    before are still present, in the same order, possibly followed by
    those of units born meanwhile; the building ids and the player ids are
    the same; so are the tick count, the map and the AI settings. *)
Definition sameRoster (e e' : GameEngine) : Prop :=
  (exists born, JsMap.keys (e_units e') = (JsMap.keys (e_units e) ++ born)%list)
  /\ JsMap.keys (e_buildings e') = JsMap.keys (e_buildings e)
  /\ JsMap.keys (e_players e') = JsMap.keys (e_players e)
  /\ e_map e' = e_map e
  /\ e_tick e' = e_tick e
  /\ (e_difficulty e', e_aiEnabled e', e_aiPlayerId e')
     = (e_difficulty e, e_aiEnabled e, e_aiPlayerId e).

(** A step of the loop that keeps the roster whenever it returns. *)
Definition keepsRoster (f : GameEngine -> M GameEngine) : Prop :=
  forall e w e' w', f e w = (Ok e', w') -> sameRoster e e'.

(** A running managed room for the tick manager. *)
Module Managed.

(** An order stamped with tick 0, which the loop has already passed. *)
Definition lateInput : TickManager.TickInput :=
  TickManager.mkTickInput 0 (A_stop "u-alice") 1700000000001.

Definition room : TickManager.ManagedRoom :=
  TickManager.mkManagedRoom "duel" Demo.skirmish
    [("alice", TickManager.mkPlayerState "alice" 0 0 [lateInput])]
    TickManager.DEFAULT_CONFIG TickManager.running (Some TickLoop) (Some SnapshotLoop)
    0 0 1700000000000.

Definition rooms : TickManager.ManagedRooms := [("duel", room)].

End Managed.

(** ** A duel of two humans *)

(** Nothing is going on: every unit is idle with its weapon ready, no
    building produces, shoots or is under attack, nothing flies and no AI
    plays. *)
Definition quiet (e : GameEngine) : Prop :=
  Forall (fun u => u_state u = idle /\ u_attackCooldownRemaining u = 0)
    (JsMap.values (e_units e))
  /\ Forall (fun b => b_productionQueue b = [] /\ b_type b <> tower
                      /\ b_isUnderAttack b = false)
       (JsMap.values (e_buildings e))
  /\ e_projectiles e = []
  /\ e_aiEnabled e = false.

(** Every building is a base of player [h]. *)
Definition onlyBasesOf (h : string) (e : GameEngine) : Prop :=
  Forall (fun b => b_type b = base /\ b_ownerId b = h) (JsMap.values (e_buildings e)).

(** The engine of a duel between host [h] and guest [g] before its first
    tick: nothing is going on, the game is not over, no tick has run, the
    players are [h] and [g] in this order, [g] goes by [name], and every
    building is a base of [h]. *)
Definition duelReady (h g name : string) (e : GameEngine) : Prop :=
  quiet e
  /\ (e_gameOver e = false /\ e_tick e = 0)
  /\ JsMap.keys (e_players e) = [h; g]
  /\ (exists guestPlayer, JsMap.get (e_players e) g = Some guestPlayer
                          /\ pl_name guestPlayer = name)
  /\ JsMap.get (e_players e) h <> None
  /\ onlyBasesOf h e.
(* ===================================================================== *)
(** * Basic facts                                                          *)
(* ===================================================================== *)

Lemma includes_In (l : list string) (s : string) :
  includes l s = true <-> In s l.
Proof.
  unfold includes. rewrite existsb_exists. split.
  - intros [x [Hin Heq]]. apply String.eqb_eq in Heq. now subst.
  - intros Hin. exists s. split; [assumption | apply String.eqb_refl].
Qed.

Lemma sameIdSet_sameIdSetb (l1 l2 : list string) :
  sameIdSet l1 l2 -> sameIdSetb l1 l2 = true.
Proof.
  intros H. unfold sameIdSetb. apply andb_true_intro. split.
  - apply forallb_forall. intros x Hx. apply includes_In. now apply H.
  - apply forallb_forall. intros x Hx. apply includes_In. now apply H.
Qed.

Lemma generateId_runs (w : World) :
  exists id w', generateId w = (Ok id, w').
Proof. unfold generateId, bind, dateNow, nextIdCounter, mathRandom, ret. eauto. Qed.

(** ** The seeded generator *)

Lemma seededRandom_state (s : Z) :
  0 <= s -> 0 <= snd (seededRandom s) < 233280.
Proof.
  intros Hs. unfold seededRandom. simpl.
  apply Z.rem_bound_pos; lia.
Qed.

Lemma seededRandom_draw (s : Z) :
  0 <= s -> (0 <= fst (seededRandom s) /\ fst (seededRandom s) < 1)%Q.
Proof.
  intros Hs. pose proof (seededRandom_state s Hs) as Hst.
  unfold seededRandom in *. simpl in *.
  set (s' := Z.rem (s * 9301 + 49297) 233280) in *.
  unfold Num.div, Num.ofZ. rewrite Qred_correct.
  unfold Qdiv, Qmult, Qinv, Qle, Qlt, inject_Z; simpl. lia.
Qed.

Lemma floorMul_range (r : number) (k : Z) :
  (0 <= r)%Q -> (r < 1)%Q -> 0 < k -> 0 <= Num.floorMul r k <= k - 1.
Proof.
  intros H0 H1 Hk.
  assert (Hlo : 0 <= Qfloor (r * inject_Z k)).
  { change 0 with (Qfloor 0). apply Qfloor_resp_le.
    apply Qmult_le_0_compat; [assumption|]. change 0%Q with (inject_Z 0).
    rewrite <- Zle_Qle. lia. }
  assert (Hhi : Qfloor (r * inject_Z k) < k).
  { rewrite Zlt_Qlt. eapply Qle_lt_trans; [apply Qfloor_le|].
    setoid_replace (inject_Z k) with (1 * inject_Z k)%Q at 2 by ring.
    apply Qmult_lt_compat_r; [|assumption].
    change 0%Q with (inject_Z 0). rewrite <- Zlt_Qlt. lia. }
  unfold Num.floorMul.
  destruct (Z.eqb k 700 && (Qeq_bool r (7 # 20) || Qeq_bool r (7 # 10))) eqn:E;
    [|lia].
  apply andb_true_iff in E. destruct E as [Ek Er].
  apply Z.eqb_eq in Ek. subst k.
  apply orb_true_iff in Er. destruct Er as [Er|Er]; apply Qeq_bool_iff in Er;
    rewrite Er; vm_compute; split; discriminate.
Qed.

(** ** The grid *)

Lemma length_setNth {A} (n : nat) (a : A) (l : list A) :
  List.length (setNth n a l) = List.length l.
Proof.
  revert n. induction l as [|b l IH]; intros [|n]; simpl; auto.
Qed.

Lemma nth_error_setNth_same {A} (n : nat) (a b : A) (l : list A) :
  nth_error l n = Some b -> nth_error (setNth n a l) n = Some a.
Proof.
  revert n. induction l as [|c l IH]; intros [|n]; simpl; try discriminate; auto.
Qed.

Lemma nth_error_setNth_other {A} (n m : nat) (a : A) (l : list A) :
  n <> m -> nth_error (setNth n a l) m = nth_error l m.
Proof.
  revert n m. induction l as [|c l IH]; intros [|n] [|m] H; simpl; auto;
    try contradiction; try (apply IH; lia).
Qed.

Lemma rowAt_nth (ts : list (list TileType)) (y : Z) (row : list TileType) :
  rowAt ts y = Some row -> 0 <= y /\ nth_error ts (Z.to_nat y) = Some row.
Proof.
  unfold rowAt. destruct (Z.ltb_spec y 0); [discriminate | auto].
Qed.

Lemma gridShape_setTile (w h : nat) (ts : list (list TileType)) (x y : Z)
  (t : TileType) :
  gridShape w h ts -> gridShape w h (setTile ts x y t).
Proof.
  intros [Hh Hw]. unfold setTile.
  destruct (x <? 0); [now split|].
  destruct (rowAt ts y) as [row|] eqn:Hrow; [|now split].
  apply rowAt_nth in Hrow. destruct Hrow as [_ Hrow].
  split; [now rewrite length_setNth|].
  rewrite Forall_forall in *. intros r Hr.
  apply In_nth_error in Hr. destruct Hr as [i Hi].
  destruct (Nat.eq_dec (Z.to_nat y) i) as [Heq|Hne].
  - subst i. rewrite (nth_error_setNth_same _ _ row) in Hi by assumption.
    inversion Hi; subst. rewrite length_setNth.
    apply Hw. eapply nth_error_In; eassumption.
  - rewrite nth_error_setNth_other in Hi by assumption.
    apply Hw. eapply nth_error_In; eassumption.
Qed.

Lemma gridShape_rowAt (w h : nat) (ts : list (list TileType)) (y : Z) :
  gridShape w h ts -> 0 <= y < Z.of_nat h ->
  exists row, rowAt ts y = Some row /\ List.length row = w.
Proof.
  intros [Hh Hw] Hy. unfold rowAt.
  destruct (Z.ltb_spec y 0); [lia|].
  destruct (nth_error ts (Z.to_nat y)) as [row|] eqn:Hrow.
  - exists row. split; [reflexivity|].
    rewrite Forall_forall in Hw. apply Hw. eapply nth_error_In; eassumption.
  - apply nth_error_None in Hrow. lia.
Qed.

(** Inside the grid, [tiles[y][x]] does not throw. *)
Lemma readTile_inside (w h : nat) (ts : list (list TileType)) (x y : Z) (wd : World) :
  gridShape w h ts -> 0 <= y < Z.of_nat h ->
  readTile ts x y wd = (Ok (tileAt ts x y), wd).
Proof.
  intros Hshape Hy. unfold readTile.
  destruct (gridShape_rowAt w h ts y Hshape Hy) as (row & Hrow & _).
  now rewrite Hrow.
Qed.

(** ** The terrain pass *)

Lemma terrainRow_length (y : Z) (xs : list Z) (s : Z) :
  List.length (fst (terrainRow y xs s)) = List.length xs.
Proof.
  revert s. induction xs as [|x xs IH]; intros s; simpl; [reflexivity|].
  destruct (terrainTile x y s) as [t s1]. specialize (IH s1).
  destruct (terrainRow y xs s1) as [row s2]. simpl in *. now rewrite IH.
Qed.

Lemma terrainTile_state (x y s : Z) : 0 <= s -> 0 <= snd (terrainTile x y s).
Proof.
  intros Hs. unfold terrainTile.
  destruct (_ || _); [assumption|].
  pose proof (seededRandom_state s Hs). destruct (seededRandom s). simpl in *. lia.
Qed.

Lemma terrainRow_state (y : Z) (xs : list Z) (s : Z) :
  0 <= s -> 0 <= snd (terrainRow y xs s).
Proof.
  revert s. induction xs as [|x xs IH]; intros s Hs; simpl; [assumption|].
  pose proof (terrainTile_state x y s Hs) as H1.
  destruct (terrainTile x y s) as [t s1]. specialize (IH s1 H1).
  destruct (terrainRow y xs s1) as [row s2]. assumption.
Qed.

Lemma terrainRows_state (w : nat) (ys : list Z) (s : Z) :
  0 <= s -> 0 <= snd (terrainRows w ys s).
Proof.
  revert s. induction ys as [|y ys IH]; intros s Hs; simpl; [assumption|].
  pose proof (terrainRow_state y (zrange w) s Hs) as H1.
  destruct (terrainRow y (zrange w) s) as [row s1]. specialize (IH s1 H1).
  destruct (terrainRows w ys s1) as [rows s2]. assumption.
Qed.

Lemma zrange_length (n : nat) : List.length (zrange n) = n.
Proof. unfold zrange. now rewrite length_map, length_seq. Qed.

Lemma terrainRows_shape (w : nat) (ys : list Z) (s : Z) :
  gridShape w (List.length ys) (fst (terrainRows w ys s)).
Proof.
  revert s. induction ys as [|y ys IH]; intros s; simpl.
  - split; [reflexivity | constructor].
  - pose proof (terrainRow_length y (zrange w) s) as Hlen.
    destruct (terrainRow y (zrange w) s) as [row s1]. specialize (IH s1).
    destruct (terrainRows w ys s1) as [rows s2]. simpl in *.
    destruct IH as [Hh Hw]. split; [cbn [List.length]; now rewrite Hh|].
    constructor; [now rewrite Hlen, zrange_length | assumption].
Qed.

(** ** The resource loops return, and do not depend on the world *)

(** The cell a resource loop draws from a state that is not negative: both
    indices are between 2 and 57, and the two draws leave a state that is
    not negative. *)
Lemma drawn_cell (s : Z) :
  0 <= s ->
  let (r1, s1) := seededRandom s in
  let (r2, s2) := seededRandom s1 in
  2 <= Num.floorMul r1 (60 - 4) + 2 <= 57
  /\ 2 <= Num.floorMul r2 (60 - 4) + 2 <= 57
  /\ 0 <= s2.
Proof.
  intros Hs.
  pose proof (seededRandom_state s Hs) as Hs1.
  pose proof (seededRandom_draw s Hs) as Hr1.
  destruct (seededRandom s) as [r1 s1]. simpl in Hs1, Hr1.
  assert (Hs1' : 0 <= s1) by lia.
  pose proof (seededRandom_state s1 Hs1') as Hs2.
  pose proof (seededRandom_draw s1 Hs1') as Hr2.
  destruct (seededRandom s1) as [r2 s2]. simpl in Hs2, Hr2.
  change (60 - 4) with 56.
  pose proof (floorMul_range r1 56 (proj1 Hr1) (proj2 Hr1) eq_refl).
  pose proof (floorMul_range r2 56 (proj1 Hr2) (proj2 Hr2) eq_refl).
  lia.
Qed.

Lemma placeGold_agrees : stepAgrees (placeGold 60 60 40).
Proof.
  intros [[tsA rsA] sA] [[tsB rsB] sB] wA wB (Hts & Hrs & Hs) (Hshape & Hpos).
  subst tsB sB. unfold placeGold.
  pose proof (drawn_cell sA Hpos) as Hcell.
  destruct (seededRandom sA) as [r1 s1].
  destruct (seededRandom s1) as [r2 s2].
  destruct Hcell as (Hx & Hy & Hs2).
  unfold bind at 1 3.
  rewrite !(readTile_inside 60 60 tsA _ _ _ Hshape)
    by (change (Z.of_nat 60) with 60; lia).
  destruct (negb (tileIs (tileAt tsA _ _) tGrass)).
  - destruct (generateId_runs wA) as (idA & wA' & HA).
    destruct (generateId_runs wB) as (idB & wB' & HB).
    unfold bind. rewrite HA, HB.
    pose proof (seededRandom_state s2 Hs2) as Hs3.
    destruct (seededRandom s2) as [r3 s3]. simpl in Hs3. unfold ret.
    do 4 eexists. split; [reflexivity|]. split; [reflexivity|]. split.
    + split; [reflexivity|]. split; [|reflexivity].
      rewrite !map_app, Hrs. reflexivity.
    + split; [now apply gridShape_setTile | lia].
  - unfold ret. do 4 eexists. split; [reflexivity|]. split; [reflexivity|].
    split; [split; [reflexivity | split; [assumption | reflexivity]]
           | split; assumption].
Qed.

Lemma placeForest_agrees : stepAgrees (placeForest 60 60 40).
Proof.
  intros [[tsA rsA] sA] [[tsB rsB] sB] wA wB (Hts & Hrs & Hs) (Hshape & Hpos).
  subst tsB sB. unfold placeForest.
  pose proof (drawn_cell sA Hpos) as Hcell.
  destruct (seededRandom sA) as [r1 s1].
  destruct (seededRandom s1) as [r2 s2].
  destruct Hcell as (Hx & Hy & Hs2).
  unfold bind at 1 3.
  rewrite !(readTile_inside 60 60 tsA _ _ _ Hshape)
    by (change (Z.of_nat 60) with 60; lia).
  destruct (negb (tileIs (tileAt tsA _ _) tGrass) && _).
  - destruct (generateId_runs wA) as (idA & wA' & HA).
    destruct (generateId_runs wB) as (idB & wB' & HB).
    unfold bind. rewrite HA, HB.
    pose proof (seededRandom_state s2 Hs2) as Hs3.
    destruct (seededRandom s2) as [r3 s3]. simpl in Hs3. unfold ret.
    do 4 eexists. split; [reflexivity|]. split; [reflexivity|]. split.
    + split; [reflexivity|]. split; [|reflexivity].
      rewrite !map_app, Hrs. reflexivity.
    + split; [now apply gridShape_setTile | lia].
  - unfold ret. do 4 eexists. split; [reflexivity|]. split; [reflexivity|].
    split; [split; [reflexivity | split; [assumption | reflexivity]]
           | split; assumption].
Qed.

Lemma repeatM_agrees (body : GenState -> M GenState) (n : nat) :
  stepAgrees body -> stepAgrees (repeatM n body).
Proof.
  intros Hbody. induction n as [|n IH]; intros a b wA wB Hab Ha; simpl.
  - unfold ret. do 4 eexists. repeat split; assumption.
  - destruct (Hbody a b wA wB Hab Ha) as (a1 & b1 & wA1 & wB1 & HA & HB & H1 & Hs1).
    unfold bind. rewrite HA, HB.
    apply IH; assumption.
Qed.

(** For a seed that is not negative [generateMap] returns, in any two
    worlds, maps that differ in their resource ids at most. *)
Lemma generateMap_agrees (seed : Z) (wA wB : World) :
  0 <= seed ->
  exists mA mB wA' wB',
    generateMap seed wA = (Ok mA, wA') /\ generateMap seed wB = (Ok mB, wB')
    /\ tiles mA = tiles mB
    /\ map resourceBody (map_resources mA) = map resourceBody (map_resources mB)
    /\ (width mA, height mA, tileSize mA) = (width mB, height mB, tileSize mB).
Proof.
  intros Hseed. unfold generateMap.
  pose proof (terrainRows_shape 60 (zrange 60) seed) as Hshape.
  pose proof (terrainRows_state 60 (zrange 60) seed Hseed) as Hs0.
  rewrite zrange_length in Hshape.
  change (Z.to_nat 60) with 60%nat.
  destruct (terrainRows _ _ seed) as [ts s0]. simpl in Hshape, Hs0.
  pose proof (seededRandom_state s0 Hs0) as Hs1.
  destruct (seededRandom s0) as [rg s1]. simpl in Hs1.
  assert (Hs1' : 0 <= s1) by lia.
  pose proof (seededRandom_state s1 Hs1') as Hs2.
  destruct (seededRandom s1) as [rf s2]. simpl in Hs2.
  set (st0 := (ts, @nil Resource, s2)).
  assert (H0 : genAgree st0 st0) by (cbv [genAgree st0]; auto).
  assert (G0 : genSound st0) by (cbv [genSound st0]; split; [assumption | lia]).
  destruct (repeatM_agrees _ (Z.to_nat (20 + Num.floorMul rg 10))
              placeGold_agrees st0 st0 wA wB H0 G0)
    as (a1 & b1 & wA1 & wB1 & HA1 & HB1 & H1 & G1).
  unfold bind. rewrite HA1, HB1.
  destruct (repeatM_agrees _ (Z.to_nat (30 + Num.floorMul rf 15))
              placeForest_agrees a1 b1 wA1 wB1 H1 G1)
    as ([[tsA rsA] sA] & [[tsB rsB] sB] & wA2 & wB2 & HA2 & HB2 & H2 & _).
  rewrite HA2, HB2. unfold ret.
  destruct H2 as (Hts & Hrs & _).
  do 4 eexists. repeat split; simpl; assumption.
Qed.

(* ===================================================================== *)
(** * C1: seeded map parity                                                *)
(* ===================================================================== *)

(** C1, as stated, fails: build two engines with seed 424242 one after the
    other in one process (the second in the world the first leaves behind).
    Their resource ids come from [generateId] and share no element. *)
Lemma C1_resource_ids_differ :
  ~ MapParity 424242 Scenario.worldA
      (Scenario.after (newGameEngine 424242 normal) Scenario.worldA).
Proof.
  unfold MapParity.
  destruct (Scenario.value (newGameEngine 424242 normal) Scenario.worldA)
    as [eA|] eqn:HA; [|tauto].
  destruct (Scenario.value (newGameEngine 424242 normal)
              (Scenario.after (newGameEngine 424242 normal) Scenario.worldA))
    as [eB|] eqn:HB; [|tauto].
  intros [_ Hids]. apply sameIdSet_sameIdSetb in Hids.
  assert (Hb : match Scenario.value (newGameEngine 424242 normal) Scenario.worldA,
                     Scenario.value (newGameEngine 424242 normal)
                       (Scenario.after (newGameEngine 424242 normal) Scenario.worldA)
               with
               | Ok a, Ok b => sameIdSetb (resourceIds a) (resourceIds b)
               | _, _ => true
               end = false) by (vm_compute; reflexivity).
  rewrite HA, HB in Hb. congruence.
Qed.

(** C1, amended: for every seed [createRoom] can draw and every
    difficulty, two engines constructed in any two worlds both come into
    being (map generation does not throw), have identical tile grids and
    map dimensions, and carry the same resources in the same order up to
    the resource ids (type, position, amount and maximum agree). *)
Theorem C1_map_determined_by_seed (seed : Z) (d : Difficulty) (wA wB : World) :
  seedDrawn seed ->
  exists eA eB,
    Scenario.value (newGameEngine seed d) wA = Ok eA
    /\ Scenario.value (newGameEngine seed d) wB = Ok eB
    /\ tiles (e_map eA) = tiles (e_map eB)
    /\ (width (e_map eA), height (e_map eA), tileSize (e_map eA))
       = (width (e_map eB), height (e_map eB), tileSize (e_map eB))
    /\ map resourceBody (map_resources (e_map eA))
       = map resourceBody (map_resources (e_map eB)).
Proof.
  intros [Hseed _].
  destruct (generateMap_agrees seed wA wB Hseed)
    as (mA & mB & wA' & wB' & HA & HB & Hts & Hrs & Hdim).
  unfold Scenario.value, newGameEngine, bind. rewrite HA, HB. unfold ret. simpl.
  do 2 eexists. repeat split; simpl; assumption.
Qed.

(** Seed 424242, in a fresh process and in the world a first construction
    leaves behind. *)
Lemma C1_map_determined_by_seed_witness :
  seedDrawn 424242
  /\ exists eA eB,
       Scenario.value (newGameEngine 424242 normal) Scenario.worldA = Ok eA
       /\ Scenario.value (newGameEngine 424242 normal)
            (Scenario.after (newGameEngine 424242 normal) Scenario.worldA) = Ok eB
       /\ tiles (e_map eA) = tiles (e_map eB)
       /\ (width (e_map eA), height (e_map eA), tileSize (e_map eA))
          = (width (e_map eB), height (e_map eB), tileSize (e_map eB))
       /\ map resourceBody (map_resources (e_map eA))
          = map resourceBody (map_resources (e_map eB)).
Proof.
  assert (H : seedDrawn 424242) by (unfold seedDrawn; lia).
  split; [exact H|].
  exact (C1_map_determined_by_seed 424242 normal Scenario.worldA
           (Scenario.after (newGameEngine 424242 normal) Scenario.worldA) H).
Defined.

(** Seed -6 is none [createRoom] draws.  It makes the draws negative; the
    second cell the gold loop draws lies above the grid, and the
    constructor throws, as [tiles[y][x]] does in the source. *)
Example negative_seed_throws :
  Scenario.value (newGameEngine (-6) normal) Scenario.worldA
  = Throw "TypeError: Cannot read properties of undefined".
Proof. vm_compute. reflexivity. Qed.

(** ** Maps *)

Lemma get_set_same {V} (m : JsMap.t V) (k : string) (v : V) :
  JsMap.get (JsMap.set m k v) k = Some v.
Proof.
  induction m as [|[k' v'] m IH]; simpl.
  - now rewrite String.eqb_refl.
  - destruct (String.eqb k' k) eqn:E; simpl.
    + now rewrite String.eqb_refl.
    + now rewrite E.
Qed.

Lemma get_set_other {V} (m : JsMap.t V) (k k' : string) (v : V) :
  k <> k' -> JsMap.get (JsMap.set m k v) k' = JsMap.get m k'.
Proof.
  intros Hne. induction m as [|[k0 v0] m IH]; simpl.
  - destruct (String.eqb k k') eqn:E; [apply String.eqb_eq in E; contradiction | reflexivity].
  - destruct (String.eqb k0 k) eqn:E; simpl.
    + apply String.eqb_eq in E. subst k0.
      destruct (String.eqb k k') eqn:E'; [apply String.eqb_eq in E'; contradiction | reflexivity].
    + now rewrite IH.
Qed.

(* ===================================================================== *)
(** * C10: a rejected action changes nothing                               *)
(* ===================================================================== *)

Ltac split_cases H :=
  repeat match type of H with
         | context [match ?x with _ => _ end] => destruct x eqn:?
         | context [if ?x then _ else _] => destruct x eqn:?
         end.

Ltac rejected H :=
  split_cases H; inversion H; subst; auto.

Lemma handleMove_rejected p u t e e' :
  handleMove p u t e = (false, e') -> e' = e.
Proof. unfold handleMove. intros H. rejected H. Qed.

Lemma handleAttack_rejected p u t e e' :
  handleAttack p u t e = (false, e') -> e' = e.
Proof. unfold handleAttack. intros H. rejected H. Qed.

Lemma handleStop_rejected p u e e' :
  handleStop p u e = (false, e') -> e' = e.
Proof. unfold handleStop. intros H. rejected H. Qed.

Lemma handlePatrol_rejected p u t e e' :
  handlePatrol p u t e = (false, e') -> e' = e.
Proof. unfold handlePatrol. intros H. rejected H. Qed.

Lemma handleAttackMove_rejected p u t e e' :
  handleAttackMove p u t e = (false, e') -> e' = e.
Proof. unfold handleAttackMove. intros H. rejected H. Qed.

Lemma handleUpgrade_rejected p b t e e' :
  handleUpgrade p b t e = (false, e') -> e' = e.
Proof. unfold handleUpgrade. intros H. rejected H. Qed.

Lemma handleGather_rejected p u r e e' :
  handleGather p u r e = (false, e') -> e' = e.
Proof. unfold handleGather. intros H. rejected H. Qed.

Lemma handleProduce_rejected p b t e w e' w' :
  handleProduce p b t e w = (Ok (false, e'), w') -> e' = e /\ w' = w.
Proof.
  unfold handleProduce, bind, ret. intros H.
  destruct (ownBuilding e p b); [|inversion H; auto].
  destruct (JsMap.get (e_players e) p); [|inversion H; auto].
  destruct (cannotAfford _ _); [inversion H; auto|].
  destruct (_ >? _)%num; [inversion H; auto|].
  destruct (generateId_runs w) as (id & w1 & Hid). rewrite Hid in H. inversion H.
Qed.

Lemma handleBuild_rejected p t pos e w e' w' :
  handleBuild p t pos e w = (Ok (false, e'), w') -> e' = e /\ w' = w.
Proof.
  unfold handleBuild, bind, ret. intros H.
  destruct (JsMap.get (e_players e) p); [|inversion H; auto].
  destruct (cannotAfford _ _); [inversion H; auto|].
  destruct (negb _); [inversion H; auto|].
  destruct (generateId_runs w) as (id & w1 & Hid). rewrite Hid in H. inversion H.
Qed.

(** C10: whenever [processAction] returns [false], the engine state it
    leaves is the state it was given: no resource is debited, no entity is
    created, no field of a unit or a building is changed; the id counter,
    the clock and the random source are untouched as well. *)
Theorem C10_processAction_atomic
  (playerId : string) (action : ActionType) (e e' : GameEngine) (w w' : World) :
  processAction playerId action e w = (Ok (false, e'), w') ->
  e' = e /\ w' = w.
Proof.
  unfold processAction. intros H.
  destruct (JsMap.get (e_players e) playerId); [|inversion H; auto].
  destruct action; unfold ret in H;
    try (inversion H; subst; split; [|reflexivity];
         eauto using handleMove_rejected, handleAttack_rejected, handleStop_rejected,
           handlePatrol_rejected, handleAttackMove_rejected, handleUpgrade_rejected,
           handleGather_rejected; fail).
  - eapply handleProduce_rejected; eassumption.
  - eapply handleBuild_rejected; eassumption.
Qed.

(** Alice has 50 gold and no wood: a soldier (80 gold, 20 wood) is refused
    and nothing moves. *)
Lemma C10_processAction_atomic_witness :
  processAction "alice" (A_produce "b-alice" soldier) Demo.engine Scenario.worldA
  = (Ok (false, Demo.engine), Scenario.worldA)
  /\ (Demo.engine = Demo.engine /\ Scenario.worldA = Scenario.worldA).
Proof.
  assert (H : processAction "alice" (A_produce "b-alice" soldier) Demo.engine
                Scenario.worldA
              = (Ok (false, Demo.engine), Scenario.worldA)) by reflexivity.
  split; [exact H|].
  exact (C10_processAction_atomic "alice" (A_produce "b-alice" soldier)
           Demo.engine Demo.engine Scenario.worldA Scenario.worldA H).
Defined.

(** [processAction] always returns: no handler throws. *)
Lemma processAction_returns
  (playerId : string) (action : ActionType) (e : GameEngine) (w : World) :
  exists ok e' w', processAction playerId action e w = (Ok (ok, e'), w').
Proof.
  unfold processAction.
  destruct (JsMap.get (e_players e) playerId); [|unfold ret; eauto].
  destruct action; unfold ret;
    try match goal with
        | |- context [Ok ?p] => destruct p eqn:?; eauto
        end.
  - unfold handleProduce, bind, ret.
    destruct (ownBuilding _ _ _); eauto.
    destruct (JsMap.get (e_players e) playerId); eauto.
    destruct (cannotAfford _ _); eauto.
    destruct (_ >? _)%num; eauto.
    destruct (generateId_runs w) as (id & w1 & Hid). rewrite Hid. eauto.
  - unfold handleBuild, bind, ret.
    destruct (JsMap.get (e_players e) playerId); eauto.
    destruct (cannotAfford _ _); eauto.
    destruct (negb _); eauto.
    destruct (generateId_runs w) as (id & w1 & Hid). rewrite Hid. eauto.
Qed.

(* ===================================================================== *)
(** * C3: production accounting                                            *)
(* ===================================================================== *)

(** The validator refuses a produce action the sender cannot pay for, with
    the reason the specification quotes. *)
Lemma validateProduceAction_insufficient (b : string) (t : UnitType)
  (owned : list string) (r : PlayerResources) :
  b <> "" -> In b owned ->
  (gold r <? c_gold (us_cost (UNIT_STATS t)))%num = true
  \/ (wood r <? c_wood (us_cost (UNIT_STATS t)))%num = true ->
  validateProduceAction b t owned r = reject "Insufficient resources".
Proof.
  intros Hb Hin Hpoor. unfold validateProduceAction.
  destruct (String.eqb b "") eqn:E; [apply String.eqb_eq in E; contradiction|].
  apply includes_In in Hin. rewrite Hin. simpl.
  destruct Hpoor as [H|H]; rewrite H; [reflexivity | now rewrite orb_true_r].
Qed.




(** The rest of the scenario, evaluated: the resources become [{0, 0}], the
    validator refuses the repeated action for "Insufficient resources", and
    so does the engine. *)
Example C3_scenario :
  match Scenario.value (handleProduce "alice" "b-alice" worker Demo.engine)
          Scenario.worldA with
  | Ok (true, e1) =>
      match JsMap.get (e_players e1) "alice" with
      | Some p =>
          pl_resources p = mkResources $0 $0 $5 $20
          /\ validateProduceAction "b-alice" worker ["b-alice"] (pl_resources p)
             = reject "Insufficient resources"
          /\ Scenario.value (handleProduce "alice" "b-alice" worker e1) Scenario.worldA
             = Ok (false, e1)
      | None => False
      end
  | _ => False
  end.
Proof. vm_compute. repeat split. Qed.

(* ===================================================================== *)
(** * C8: starting a game                                                  *)
(* ===================================================================== *)

Lemma get_of_In {V} (m : JsMap.t V) (k : string) (v : V) :
  In (k, v) m -> JsMap.get m k <> None.
Proof.
  induction m as [|[k' v'] m IH]; simpl; [tauto|].
  intros [H|H].
  - inversion H; subst. now rewrite String.eqb_refl.
  - destruct (String.eqb k' k); [discriminate | auto].
Qed.

Lemma get_set_keeps {V} (m : JsMap.t V) (k k' : string) (v : V) :
  JsMap.get m k' <> None -> JsMap.get (JsMap.set m k v) k' <> None.
Proof.
  intros H. destruct (string_dec k k') as [->|Hne].
  - rewrite get_set_same. discriminate.
  - now rewrite get_set_other.
Qed.

Lemma modifyPlayer_keeps (id : string) (f : Player -> Player) (e : GameEngine)
  (id' : string) :
  knowsPlayer e id' -> knowsPlayer (modifyPlayer id f e) id'.
Proof.
  unfold knowsPlayer, modifyPlayer. intros H.
  destruct (JsMap.get (e_players e) id); [|assumption].
  simpl. now apply get_set_keeps.
Qed.

Lemma modifyPlayer_aiEnabled (id : string) (f : Player -> Player) (e : GameEngine) :
  e_aiEnabled (modifyPlayer id f e) = e_aiEnabled e.
Proof. unfold modifyPlayer. now destruct (JsMap.get (e_players e) id). Qed.

Lemma modifyPlayer_clock (id : string) (f : Player -> Player) (e : GameEngine) :
  sameClock e (modifyPlayer id f e).
Proof. unfold modifyPlayer, sameClock. now destruct (JsMap.get (e_players e) id). Qed.

Lemma createBuildingAtPosition_runs (t : BuildingType) (owner : string)
  (tx ty : number) (e : GameEngine) (w : World) :
  exists e' w',
    createBuildingAtPosition t owner tx ty e w = (Ok e', w')
    /\ e_aiEnabled e' = e_aiEnabled e
    /\ (forall id, knowsPlayer e id -> knowsPlayer e' id)
    /\ sameClock e e'.
Proof.
  unfold createBuildingAtPosition, bind, ret.
  destruct (generateId_runs w) as (id & w1 & Hid). rewrite Hid.
  do 2 eexists. split; [reflexivity|].
  destruct (bs_supply (BUILDING_STATS t)) as [sup|]; [destruct (truthy sup)|];
    (split; [|split]); try reflexivity; try (intros; assumption);
    try (split; reflexivity).
  - now rewrite modifyPlayer_aiEnabled.
  - intros id' H. now apply modifyPlayer_keeps.
  - apply (modifyPlayer_clock owner _ (withBuildings _ e)).
Qed.

Lemma mathRandom_runs (w : World) : exists r w', mathRandom w = (Ok r, w').
Proof. unfold mathRandom. eauto. Qed.

Lemma spawnUnit__runs (t : UnitType) (owner : string) (e : GameEngine) (w : World) :
  knowsPlayer e owner ->
  exists e' w',
    spawnUnit_ t owner e w = (Ok e', w')
    /\ e_aiEnabled e' = e_aiEnabled e
    /\ e_players e' = e_players e
    /\ sameClock e e'.
Proof.
  unfold knowsPlayer, spawnUnit_, spawnUnit. intros Hp.
  destruct (JsMap.get (e_players e) owner) as [player|]; [|contradiction].
  destruct (find (isBaseOf owner) (JsMap.values (e_buildings e))) as [b|].
  - unfold bind, ret.
    destruct (mathRandom_runs w) as (r1 & w1 & H1). rewrite H1.
    destruct (mathRandom_runs w1) as (r2 & w2 & H2). rewrite H2.
    destruct (generateId_runs w2) as (id & w3 & H3). rewrite H3.
    simpl. do 2 eexists. repeat split.
  - unfold bind, ret.
    destruct (generateId_runs w) as (id & w3 & H3). rewrite H3.
    simpl. do 2 eexists. repeat split.
Qed.

Lemma sameClock_trans (e1 e2 e3 : GameEngine) :
  sameClock e1 e2 -> sameClock e2 e3 -> sameClock e1 e3.
Proof. unfold sameClock. intros [? ?] [? ?]. split; congruence. Qed.

(** Without an AI opponent [initializeGame] returns: the host it looks up
    is a player of the engine, so no [spawnUnit] throws.  It keeps every
    player, the tick and the outcome of the game. *)
Lemma initializeGame_runs (e : GameEngine) (w : World) :
  e_aiEnabled e = false -> playersKeyed e ->
  exists e' w',
    initializeGame e w = (Ok e', w')
    /\ (forall id, knowsPlayer e id -> knowsPlayer e' id)
    /\ sameClock e e'.
Proof.
  intros Hai Hkeyed. unfold initializeGame.
  destruct (find isHost (JsMap.values (e_players e))) as [hp|] eqn:Hhost.
  - assert (Hknown : knowsPlayer e (pl_id hp)).
    { apply find_some in Hhost. destruct Hhost as [Hin _].
      unfold JsMap.values in Hin. apply in_map_iff in Hin.
      destruct Hin as ([k p] & Heq & Hin). simpl in Heq. subst p.
      unfold playersKeyed in Hkeyed. rewrite Forall_forall in Hkeyed.
      specialize (Hkeyed _ Hin). simpl in Hkeyed. rewrite Hkeyed.
      eapply get_of_In; eassumption. }
    destruct (createBuildingAtPosition_runs base (pl_id hp)
                ($12 * (3 # 5)%Q)%num ($12 * (3 # 5)%Q)%num e w)
      as (e1 & w1 & H1 & Hai1 & Hk1 & Hc1).
    unfold bind at 1. rewrite H1.
    assert (Hnoai1 : aiActive e1 = None) by (unfold aiActive; now rewrite Hai1, Hai).
    rewrite Hnoai1. unfold bind at 1, ret at 1.
    destruct (spawnUnit__runs worker (pl_id hp) e1 w1 (Hk1 _ Hknown))
      as (a & wa & Ha & Haia & Hpa & Hca).
    destruct (spawnUnit__runs worker (pl_id hp) a wa)
      as (b & wb & Hb & Haib & Hpb & Hcb).
    { unfold knowsPlayer. rewrite Hpa. apply Hk1, Hknown. }
    destruct (spawnUnit__runs worker (pl_id hp) b wb)
      as (c & wc & Hc & Haic & Hpc & Hcc).
    { unfold knowsPlayer. rewrite Hpb, Hpa. apply Hk1, Hknown. }
    unfold bind. rewrite Ha, Hb, Hc.
    assert (Hnoai3 : aiActive c = None).
    { unfold aiActive. now rewrite Haic, Haib, Haia, Hai1, Hai. }
    rewrite Hnoai3. unfold ret. do 2 eexists. split; [reflexivity|]. split.
    + intros id Hid. unfold knowsPlayer. rewrite Hpc, Hpb, Hpa. now apply Hk1.
    + eauto using sameClock_trans.
  - assert (Hnoai : aiActive e = None) by (unfold aiActive; now rewrite Hai).
    unfold bind, ret. rewrite Hnoai. rewrite Hnoai.
    do 2 eexists. split; [reflexivity|]. split; [auto | split; reflexivity].
Qed.

Lemma set_keyed (m : JsMap.t Player) (k : string) (p : Player) :
  pl_id p = k ->
  Forall (fun kv => pl_id (snd kv) = fst kv) m ->
  Forall (fun kv => pl_id (snd kv) = fst kv) (JsMap.set m k p).
Proof.
  intros Hp Hm. induction m as [|[k' v'] m IH]; simpl.
  - constructor; [assumption | constructor].
  - apply Forall_cons_iff in Hm. destruct Hm as [Hhd Htl].
    destruct (String.eqb k' k); constructor; auto.
Qed.

(** The loop of [startGame] over the room's connections: it leaves an
    engine without AI whose players are stored under their ids and include
    every connection of the room, at the tick and with the outcome it
    started from. *)
Lemma addPlayers_keyed (conns : JsMap.t PlayerConnection) (e : GameEngine) :
  e_aiEnabled e = false -> playersKeyed e ->
  let e' :=
    fold_left (fun en kv => addPlayer (fst kv) (pc_name (snd kv)) (pc_team (snd kv))
                              (pc_color (snd kv)) en) conns e in
  e_aiEnabled e' = false /\ playersKeyed e'
  /\ (forall id, knowsPlayer e id \/ JsMap.get conns id <> None -> knowsPlayer e' id)
  /\ sameClock e e'.
Proof.
  revert e. induction conns as [|[k c] conns IH]; intros e Hai Hk; simpl.
  - split; [assumption|]. split; [assumption|]. split; [|split; reflexivity].
    intros id [H|H]; [assumption | contradiction].
  - destruct (IH (addPlayer k (pc_name c) (pc_team c) (pc_color c) e)) as (A & B & C & D).
    + assumption.
    + unfold playersKeyed, addPlayer. simpl. apply set_keyed; [reflexivity | assumption].
    + split; [assumption|]. split; [assumption|]. split; [|exact D].
      intros id Hid. apply C.
      destruct (String.eqb k id) eqn:E.
      * apply String.eqb_eq in E. subst id. left.
        unfold knowsPlayer, addPlayer. simpl. rewrite get_set_same. discriminate.
      * destruct Hid as [Hid|Hid]; [|now right].
        left. unfold knowsPlayer, addPlayer. simpl. now apply get_set_keeps.
Qed.

(** For a seed [createRoom] can draw, the engine of [startGame] comes into
    being: the map generator stays inside its grid and [initializeGame]
    finds its host.  The engine is at tick 0, not over, and holds every
    connection of the room as a player. *)
Lemma startEngine_runs (room : GameRoom) (w : World) :
  seedDrawn (cfg_mapSeed (room_config room)) ->
  exists engine w',
    startEngine room w = (Ok engine, w')
    /\ e_gameOver engine = false /\ e_tick engine = 0
    /\ (forall id, JsMap.get (room_players room) id <> None -> knowsPlayer engine id).
Proof.
  intros [Hseed _]. unfold startEngine, newGameEngine.
  destruct (generateMap_agrees (cfg_mapSeed (room_config room)) w w Hseed)
    as (m & _ & w1 & _ & Hm & _).
  unfold bind at 1. unfold bind at 1. rewrite Hm. unfold ret at 1.
  set (e0 := mkEngine 0 m JsMap.empty JsMap.empty JsMap.empty []
               JsMap.empty JsMap.empty false None None
               (cfg_difficulty (room_config room)) false None).
  destruct (addPlayers_keyed (room_players room) e0 eq_refl (Forall_nil _))
    as (Hai & Hk & Hknown & Hc0).
  match goal with
  | |- context [initializeGame ?en] =>
      destruct (initializeGame_runs en w1 Hai Hk) as (e' & w' & Hrun & Hkeep & Hc1)
  end.
  exists e', w'. split; [exact Hrun|].
  destruct (sameClock_trans _ _ _ Hc0 Hc1) as [Hover Htick].
  split; [exact Hover|]. split; [exact Htick|].
  intros id Hid. apply Hkeep, Hknown. now right.
Qed.

(** C8, as stated, fails: a room holding only its host, who has not declared
    ready and has no AI opponent, is started all the same. *)
Lemma C8_lone_unready_host_starts :
  match Scenario.value (createRoom "alice" "Alice" "duel" normal []) Scenario.worldA with
  | Ok (Some created, rooms) =>
      let roomId := cfg_roomId (rs_config created) in
      map pl_ready (rs_players created) = [false]
      /\ match Scenario.value (startGame roomId "alice" rooms) Scenario.worldA with
         | Ok (Some started, _) => rs_gameStarted started = true
         | _ => False
         end
  | _ => False
  end.
Proof. vm_compute. split; reflexivity. Qed.

(** C8, amended, for a room whose map seed is one [createRoom] draws.
    [startGame] goes ahead exactly when the room exists, the caller is its
    host, its status is [waiting], and either every player is ready or the
    room holds at most one player.  Then the engine comes into being (at
    tick 0, not over, with every connection of the room as a player), and
    [startGame] stores the room with that engine, status [playing], the
    clock reading as [startedAt] and the tick and snapshot loops
    registered, every other field as it was, and returns its view.  In
    every other case it returns [null] and leaves the rooms, and the world,
    untouched. *)
Theorem C8_startGame_guard (roomId hostId : string) (rooms : Rooms) (w : World) :
  (forall room, JsMap.get rooms roomId = Some room ->
                seedDrawn (cfg_mapSeed (room_config room))) ->
  if mayStart roomId hostId rooms then
    exists room engine w1,
      JsMap.get rooms roomId = Some room
      /\ startEngine room w = (Ok engine, w1)
      /\ e_gameOver engine = false /\ e_tick engine = 0
      /\ (forall id, JsMap.get (room_players room) id <> None -> knowsPlayer engine id)
      /\ let room' :=
           mkRoom (room_id room) (room_name room) (room_config room)
             (room_players room) playing (Some engine) (room_createdAt room)
             (Some (clock w1 (clock_reads w1))) (room_hostId room)
             (Some TickLoop) (Some SnapshotLoop) in
         startGame roomId hostId rooms w
         = (Ok (Some (convertToRoomState room'), JsMap.set rooms roomId room'),
            Scenario.after dateNow w1)
         /\ rs_gameStarted (convertToRoomState room') = true
  else
    startGame roomId hostId rooms w = (Ok (None, rooms), w).
Proof.
  intros Hseeds. unfold mayStart, startGame.
  destruct (JsMap.get rooms roomId) as [room|]; [|reflexivity].
  specialize (Hseeds room eq_refl).
  destruct (String.eqb (room_hostId room) hostId); simpl; [|reflexivity].
  destruct (isWaiting (room_status room)); simpl; [|reflexivity].
  assert (Hsize : (1 <? JsMap.size (room_players room))%nat
                  = negb (JsMap.size (room_players room) <=? 1)%nat).
  { destruct (Nat.ltb_spec 1 (JsMap.size (room_players room)));
      destruct (Nat.leb_spec (JsMap.size (room_players room)) 1); simpl; lia. }
  rewrite Hsize.
  destruct (allReady room); simpl;
    [|destruct (JsMap.size (room_players room) <=? 1)%nat; simpl; [|reflexivity]].
  all: destruct (startEngine_runs room w Hseeds)
         as (engine & w1 & He & Hover & Htick & Hknown);
    exists room, engine, w1;
    split; [reflexivity|]; split; [exact He|]; split; [exact Hover|];
    split; [exact Htick|]; split; [exact Hknown|];
    unfold bind, ret, dateNow, Scenario.after; rewrite He; split; reflexivity.
Qed.

(** Alice starts the room she has created and waits in alone. *)
Lemma C8_startGame_guard_witness :
  (forall room, JsMap.get Demo.lobby "room-1" = Some room ->
                seedDrawn (cfg_mapSeed (room_config room)))
  /\ if mayStart "room-1" "alice" Demo.lobby then
       exists room engine w1,
         JsMap.get Demo.lobby "room-1" = Some room
         /\ startEngine room Scenario.worldA = (Ok engine, w1)
         /\ e_gameOver engine = false /\ e_tick engine = 0
         /\ (forall id, JsMap.get (room_players room) id <> None -> knowsPlayer engine id)
         /\ let room' :=
              mkRoom (room_id room) (room_name room) (room_config room)
                (room_players room) playing (Some engine) (room_createdAt room)
                (Some (clock w1 (clock_reads w1))) (room_hostId room)
                (Some TickLoop) (Some SnapshotLoop) in
            startGame "room-1" "alice" Demo.lobby Scenario.worldA
            = (Ok (Some (convertToRoomState room'), JsMap.set Demo.lobby "room-1" room'),
               Scenario.after dateNow w1)
            /\ rs_gameStarted (convertToRoomState room') = true
     else
       startGame "room-1" "alice" Demo.lobby Scenario.worldA
       = (Ok (None, Demo.lobby), Scenario.worldA).
Proof.
  assert (H : forall room, JsMap.get Demo.lobby "room-1" = Some room ->
                           seedDrawn (cfg_mapSeed (room_config room))).
  { intros room Hroom. simpl in Hroom. inversion Hroom. unfold seedDrawn. simpl. lia. }
  split; [exact H|].
  exact (C8_startGame_guard "room-1" "alice" Demo.lobby Scenario.worldA H).
Defined.

(* ===================================================================== *)
(** * Comparisons of numbers                                               *)
(* ===================================================================== *)

Lemma ltb_true (a b : number) : Num.ltb a b = true <-> (a < b)%Q.
Proof.
  unfold Num.ltb. rewrite Qlt_alt.
  destruct (a ?= b)%Q; split; congruence.
Qed.

Lemma ltb_false (a b : number) : Num.ltb a b = false <-> (b <= a)%Q.
Proof.
  split; intros H.
  - apply Qnot_lt_le. intros Hlt. apply ltb_true in Hlt. congruence.
  - destruct (Num.ltb a b) eqn:E; [|reflexivity].
    apply ltb_true in E. exfalso. apply (Qlt_not_le _ _ E H).
Qed.

Lemma gtb_true (a b : number) : Num.gtb a b = true <-> (b < a)%Q.
Proof. apply ltb_true. Qed.

Lemma gtb_false (a b : number) : Num.gtb a b = false <-> (a <= b)%Q.
Proof. apply ltb_false. Qed.


(* ===================================================================== *)
(** * C9: the anti-cheat resource check                                    *)
(* ===================================================================== *)

(** C9, as stated, fails on the name of the middle severity: a client that
    asserts 206 gold against the server's 200 is flagged with severity
    [warning], and [suspicious] is never returned. *)
Lemma C9_minor_drift_is_warning :
  let r := AntiCheat.validateResources "alice"
             (mkResources $206 $100 $5 $10) (mkResources $200 $100 $5 $10)
             AntiCheat.defaultTolerance in
  flagged r = true /\ severity r = warning /\ severity r <> suspicious.
Proof. vm_compute. repeat split. discriminate. Qed.

(** The drift is the difference the check computes, in binary64: a client
    that asserts [-2^-60] gold against the server's 50 is at drift 50
    exactly, not above it, and gets a [warning]. *)
Example drift_is_rounded :
  let c := mkResources (- (1 # 2 ^ 60))%Q $100 $5 $10 in
  let s := mkResources $50 $100 $5 $10 in
  let r := AntiCheat.validateResources "alice" c s AntiCheat.defaultTolerance in
  Qabs (gold c -~ gold s)%num = $50
  /\ (50 < Qabs (gold c - gold s))%Q
  /\ flagged r = true /\ severity r = warning.
Proof. vm_compute. repeat split. Qed.

(** C9, amended: with the default tolerance of 5, gold is judged first and
    wood second, each by its drift: the absolute value of the difference
    between the client's and the server's value, as binary64 subtraction
    gives it.  A drift above 50 is flagged [confirmed]; a drift above 5
    and at most 50 is flagged [warning]; when both drifts are within 5 the
    result is unflagged, unless the client asserts more supply than its own
    cap, which is flagged [confirmed]. *)
Theorem C9_resource_drift (playerId : string) (c s : PlayerResources) :
  let r := AntiCheat.validateResources playerId c s AntiCheat.defaultTolerance in
  let goldDrift := Qabs (gold c -~ gold s)%num in
  let woodDrift := Qabs (wood c -~ wood s)%num in
  ((50 < goldDrift)%Q -> flagged r = true /\ severity r = confirmed)
  /\ ((5 < goldDrift)%Q -> (goldDrift <= 50)%Q ->
      flagged r = true /\ severity r = warning)
  /\ ((goldDrift <= 5)%Q -> (50 < woodDrift)%Q ->
      flagged r = true /\ severity r = confirmed)
  /\ ((goldDrift <= 5)%Q -> (5 < woodDrift)%Q -> (woodDrift <= 50)%Q ->
      flagged r = true /\ severity r = warning)
  /\ ((goldDrift <= 5)%Q -> (woodDrift <= 5)%Q -> (maxSupply c < supply c)%Q ->
      flagged r = true /\ severity r = confirmed)
  /\ ((goldDrift <= 5)%Q -> (woodDrift <= 5)%Q -> (supply c <= maxSupply c)%Q ->
      flagged r = false).
Proof.
  intros r goldDrift woodDrift. subst r.
  unfold AntiCheat.validateResources.
  change (AntiCheat.defaultTolerance *~ $10)%num with 50%Q.
  change AntiCheat.defaultTolerance with 5%Q.
  assert (Hg : (Num.abs (gold c -~ gold s)%num == goldDrift)%Q) by reflexivity.
  assert (Hw : (Num.abs (wood c -~ wood s)%num == woodDrift)%Q) by reflexivity.
  destruct (Num.gtb (Num.abs (gold c -~ gold s)%num) 50%Q) eqn:G50;
    [apply gtb_true in G50 | apply gtb_false in G50]; rewrite Hg in G50.
  { repeat split; intros; try reflexivity; exfalso;
      repeat match goal with
             | H1 : (?a < ?b)%Q, H2 : (?b <= ?c)%Q |- _ =>
                 pose proof (Qlt_le_trans _ _ _ H1 H2); clear H1
             end; try (eapply Qlt_irrefl; eassumption);
      match goal with H : (50 < 5)%Q |- _ => vm_compute in H; discriminate end. }
  destruct (Num.gtb (Num.abs (gold c -~ gold s)%num) 5%Q) eqn:G5;
    [apply gtb_true in G5 | apply gtb_false in G5]; rewrite Hg in G5.
  { repeat split; intros; try reflexivity; exfalso;
      try (apply (Qlt_irrefl 50%Q); eapply Qlt_le_trans; eassumption);
      try (apply (Qlt_irrefl 5%Q); eapply Qlt_le_trans; eassumption). }
  destruct (Num.gtb (Num.abs (wood c -~ wood s)%num) 50%Q) eqn:W50;
    [apply gtb_true in W50 | apply gtb_false in W50]; rewrite Hw in W50.
  { repeat split; intros; try reflexivity; exfalso;
      try (apply (Qlt_irrefl 50%Q); eapply Qlt_le_trans; eassumption);
      try (apply (Qlt_irrefl 5%Q); eapply Qlt_le_trans; eassumption);
      assert (H505 : (50 < 5)%Q) by (eapply Qlt_le_trans; eassumption);
      vm_compute in H505; discriminate. }
  destruct (Num.gtb (Num.abs (wood c -~ wood s)%num) 5%Q) eqn:W5;
    [apply gtb_true in W5 | apply gtb_false in W5]; rewrite Hw in W5.
  { repeat split; intros; try reflexivity; exfalso;
      try (apply (Qlt_irrefl 50%Q); eapply Qlt_le_trans; eassumption);
      try (apply (Qlt_irrefl 5%Q); eapply Qlt_le_trans; eassumption). }
  destruct (Num.gtb (supply c) (maxSupply c)) eqn:S;
    [apply gtb_true in S | apply gtb_false in S].
  - repeat split; intros; try reflexivity; exfalso;
      try (apply (Qlt_irrefl 50%Q); eapply Qlt_le_trans; eassumption);
      try (apply (Qlt_irrefl 5%Q); eapply Qlt_le_trans; eassumption);
      try (apply (Qlt_irrefl (maxSupply c)); eapply Qlt_le_trans; eassumption).
  - repeat split; intros; try reflexivity; exfalso;
      try (apply (Qlt_irrefl 50%Q); eapply Qlt_le_trans; eassumption);
      try (apply (Qlt_irrefl 5%Q); eapply Qlt_le_trans; eassumption);
      try (apply (Qlt_irrefl (maxSupply c)); eapply Qlt_le_trans; eassumption).
Qed.

(* ===================================================================== *)
(** * C7: build placement                                                  *)
(* ===================================================================== *)

Lemma existsb_false_Forall {A} (f : A -> bool) (l : list A) :
  existsb f l = false <-> Forall (fun a => f a = false) l.
Proof.
  induction l as [|a l IH]; simpl.
  - split; [constructor | reflexivity].
  - rewrite orb_false_iff, IH. split.
    + intros [Ha Hl]. now constructor.
    + intros H. now inversion H.
Qed.

Lemma tooClose_false (pos : Position) (size : number) (b : Building) :
  tooClose (px pos) (py pos) size b = false <-> clearOf pos size b.
Proof.
  unfold tooClose, clearOf. now rewrite ltb_false.
Qed.

Lemma outside_false (pos : Position) (size w h : number) :
  ((px pos -~ size /~ $2 <? $0)%num || (px pos +~ size /~ $2 >? w)%num
   || (py pos -~ size /~ $2 <? $0)%num || (py pos +~ size /~ $2 >? h)%num) = false
  <-> withinMap pos size w h.
Proof.
  unfold withinMap. rewrite !orb_false_iff, !ltb_false, !gtb_false.
  unfold Num.ofZ. simpl inject_Z. tauto.
Qed.

Lemma cannotAfford_false (cost : Cost) (r : PlayerResources) :
  ((gold r <? c_gold cost)%num || (wood r <? c_wood cost)%num) = false
  <-> affordable r cost.
Proof. unfold affordable. rewrite orb_false_iff, !ltb_false. tauto. Qed.

(** C7, as stated, fails on the terrain: on the map of seed 424242 the tile
    in column 5 of row 0 is water and its neighbour in column 6 is forest.
    Alice's wall centred at (240, 20) covers both; the validator accepts
    the action and the engine builds the wall. *)
Lemma C7_wall_built_over_water :
  match Scenario.value soloMatch Scenario.worldA with
  | Ok e =>
      let pos := mkPosition $240 $20 in
      tileUnder e $220 $20 = Some tWater
      /\ tileUnder e $259 $20 = Some tForest
      /\ match JsMap.get (e_players e) "alice" with
         | Some alice =>
             valid (validateBuildAction wall pos (pl_resources alice)
                      (Some (validatorView e))) = true
         | None => False
         end
      /\ match Scenario.value (handleBuild "alice" wall pos e) Scenario.worldA with
         | Ok (true, e') =>
             map (fun b => (b_type b, b_x b, b_y b)) (JsMap.values (e_buildings e'))
             = [(base, $308, $308); (wall, $240, $20)]
         | _ => False
         end
  | Throw _ => False
  end.
Proof. vm_compute. repeat split. Qed.

(** The placement tests are those of the code, in binary64.  A wall stands
    at (20, 20); a second wall at (50.00000000000001, 59.99999999999999) is
    at distance 50 as [Math.sqrt(dx * dx + dy * dy)] gives it, and is
    accepted, although its exact distance is a little under 50. *)
Example placement_distance_is_rounded :
  let first := mkBuilding "b-1" "alice" $20 $20 $500 $500 $40 wall $100
                 [] None false 0 in
  let gs := mkValidatorState $2400 $2400 [] [("b-1", first)] None in
  let pos := mkPosition (7036874417766401 # 140737488355328)%Q
               (8444249301319679 # 140737488355328)%Q in
  validateBuildAction wall pos (mkResources $200 $100 $5 $10) (Some gs) = accept
  /\ distTo (px pos) (py pos) $20 $20 = $50
  /\ ((px pos - 20) * (px pos - 20) + (py pos - 20) * (py pos - 20) < 50 * 50)%Q.
Proof. vm_compute. repeat split. Qed.

(** C7, amended: the validator accepts a build action exactly when the
    sender can pay, the footprint lies inside the map, and every existing
    building is at centre distance at least [(size + existing.size) / 2 + 10],
    edges, distance and threshold being the binary64 values the code
    computes; the engine's [canBuildAt] applies the same two placement
    tests, and [handleBuild] builds only where [canBuildAt] holds.  The
    terrain under the footprint is not consulted. *)
Theorem C7_build_placement
  (buildingType : BuildingType) (pos : Position) (r : PlayerResources)
  (gs : ValidatorState) (e : GameEngine) :
  let size := bs_size (BUILDING_STATS buildingType) in
  (valid (validateBuildAction buildingType pos r (Some gs)) = true
   <-> affordable r (bs_cost (BUILDING_STATS buildingType))
       /\ withinMap pos size (mapWidth gs) (mapHeight gs)
       /\ Forall (clearOf pos size) (JsMap.values (vs_buildings gs)))
  /\ (canBuildAt e buildingType pos = true
      <-> withinMap pos size
            $(width (e_map e) * tileSize (e_map e))
            $(height (e_map e) * tileSize (e_map e))
          /\ Forall (clearOf pos size) (JsMap.values (e_buildings e)))
  /\ (forall playerId w e' w',
        handleBuild playerId buildingType pos e w = (Ok (true, e'), w') ->
        canBuildAt e buildingType pos = true).
Proof.
  intros size. split; [|split].
  - unfold validateBuildAction. fold size.
    destruct (_ || _) eqn:Hpay at 1.
    + split; [discriminate|]. intros (Haff & _).
      apply cannotAfford_false in Haff. congruence.
    + apply cannotAfford_false in Hpay.
      destruct (_ || _) eqn:Hout at 1.
      * split; [discriminate|]. intros (_ & Hin & _).
        apply outside_false in Hin. congruence.
      * apply outside_false in Hout.
        destruct (existsb _ _) eqn:Hex.
        -- split; [discriminate|]. intros (_ & _ & Hfar).
           assert (existsb (tooClose (px pos) (py pos) size)
                     (JsMap.values (vs_buildings gs)) = false).
           { apply existsb_false_Forall. eapply Forall_impl; [|exact Hfar].
             intros b Hb. now apply tooClose_false. }
           congruence.
        -- split; [|reflexivity]. intros _. repeat split; try apply Hpay; try apply Hout.
           apply existsb_false_Forall in Hex. eapply Forall_impl; [|exact Hex].
           intros b Hb. now apply tooClose_false.
  - unfold canBuildAt. fold size.
    set (W := $(width (e_map e) * tileSize (e_map e))).
    set (H := $(height (e_map e) * tileSize (e_map e))).
    rewrite <- (outside_false pos size W H).
    destruct (px pos -~ size /~ $2 <? $0)%num; destruct (px pos +~ size /~ $2 >? W)%num;
      destruct (py pos -~ size /~ $2 <? $0)%num; destruct (py pos +~ size /~ $2 >? H)%num;
      simpl; try (split; [discriminate | intros [Hc _]; discriminate]).
    rewrite negb_true_iff, existsb_false_Forall.
    split.
    + intros Hfar. split; [reflexivity|].
      eapply Forall_impl; [|exact Hfar]. intros b Hb. now apply tooClose_false.
    + intros [_ Hfar].
      eapply Forall_impl; [|exact Hfar]. intros b Hb. now apply tooClose_false.
  - intros playerId w e' w'. unfold handleBuild, bind, ret. intros Hb.
    destruct (JsMap.get (e_players e) playerId); [|inversion Hb].
    destruct (cannotAfford _ _); [inversion Hb|].
    destruct (canBuildAt e buildingType pos); [reflexivity | inversion Hb].
Qed.

(** The scenario of the specification: a barracks stands at (1000, 1000);
    a second one 30 pixels to its right is refused, because 30 < 90. *)
Example C7_second_barracks_refused :
  let first := mkBuilding "b-1" "alice" $1000 $1000 $400 $400 $80 barracks $100
                 [] None false 0 in
  let gs := mkValidatorState $2400 $2400 [] [("b-1", first)] None in
  validateBuildAction barracks (mkPosition $1030 $1000) (mkResources $200 $100 $5 $10)
    (Some gs)
  = reject "Cannot build here: too close to another building"
  /\ distTo $1030 $1000 $1000 $1000 = $30
  /\ (($80 +~ $80) /~ $2 +~ $10)%num = $90.
Proof. vm_compute. repeat split. Qed.

(* ===================================================================== *)
(** * C6: the win check                                                    *)
(* ===================================================================== *)

Lemma no_match_iff {A} (f : A -> bool) (l : list A) :
  Nat.eqb (List.length (filter f l)) 0 = negb (existsb f l).
Proof.
  induction l as [|a l IH]; simpl; [reflexivity|].
  destruct (f a); simpl; [reflexivity | assumption].
Qed.

Lemma find_of_existsb {A} (f : A -> bool) (l : list A) :
  existsb f l = true -> exists x, find f l = Some x /\ f x = true.
Proof.
  induction l as [|a l IH]; simpl; [discriminate|].
  destruct (f a) eqn:E; simpl; eauto.
Qed.

Lemma find_none_of_existsb {A} (f : A -> bool) (l : list A) :
  existsb f l = false -> find f l = None.
Proof.
  induction l as [|a l IH]; simpl; [reflexivity|].
  destruct (f a); simpl; [discriminate | assumption].
Qed.

Lemma truthyId_nonempty (s : string) : s <> "" -> truthyId (Some s) = Some s.
Proof. destruct s; [contradiction | reflexivity]. Qed.

Lemma eqb_neq (a b : string) : a <> b -> String.eqb a b = false.
Proof. intros H. now apply String.eqb_neq. Qed.

Lemma hasBase_ownsBase (e : GameEngine) (id : string) :
  hasBase e id = ownsBase e id.
Proof.
  unfold hasBase, ownsBase.
  induction (JsMap.values (e_buildings e)) as [|b bs IH]; simpl; [reflexivity|].
  unfold ownedBy, isBaseOwnedBy, hasType in *.
  destruct (String.eqb (b_ownerId b) id); simpl.
  - rewrite IH. now rewrite andb_true_r.
  - rewrite IH. now rewrite andb_false_r.
Qed.

(** The winner the engine picks when the only other player is [other]:
    [other] itself if it owns a base, nobody otherwise. *)
Lemma winner_of_other (e : GameEngine) (other : string) :
  other <> "" ->
  match
    find (fun o : option Building => match o with Some _ => true | None => false end)
      (map (fun id => find (isBaseOwnedBy id) (JsMap.values (e_buildings e))) [other])
  with
  | Some (Some b) => truthyId (Some (b_ownerId b))
  | _ => None
  end = if ownsBase e other then Some other else None.
Proof.
  intros Hne. unfold ownsBase. simpl.
  destruct (existsb (isBaseOwnedBy other) (JsMap.values (e_buildings e))) eqn:E.
  - destruct (find_of_existsb _ _ E) as (b & Hf & Hb). rewrite Hf.
    unfold isBaseOwnedBy in Hb. apply andb_true_iff in Hb. destruct Hb as [_ Hb].
    apply String.eqb_eq in Hb. rewrite Hb. now apply truthyId_nonempty.
  - now rewrite (find_none_of_existsb _ _ E).
Qed.

(** C6, as stated, fails.  When both bases fall in one tick the engine ends
    the game with no winner but records "Alice eliminated", not "draw", and
    the win condition manager, seeing a unit alive on each side, reports no
    game over at all.  When only Alice's base falls the engine's reason
    names Alice, the loser, and not Bob, the winner. *)
Lemma C6_no_draw_and_loser_named :
  (let e' := checkWinCondition Demo.bothBaseless in
   e_gameOver e' = true /\ e_winner e' = None
   /\ e_winnerReason e' = Some "Alice eliminated"
   /\ e_winnerReason e' <> Some "draw")
  /\ checkWinConditions Demo.bothBaseless = mkWin false None None []
  /\ (let e' := checkWinCondition Demo.aliceBaseless in
      e_gameOver e' = true /\ e_winner e' = Some "bob"
      /\ e_winnerReason e' = Some "Alice eliminated").
Proof. vm_compute. repeat split. discriminate. Qed.

Lemma checkWinCondition_duel (e : GameEngine) (a b : string) (pa pb : Player) :
  e_gameOver e = false ->
  e_players e = [(a, pa); (b, pb)] ->
  a <> b -> a <> "" -> b <> "" ->
  checkWinCondition e =
  match ownsBase e a, ownsBase e b with
  | true, true => e
  | false, true => withOutcome true (Some b) (Some (eliminatedReason pa)) e
  | true, false => withOutcome true (Some a) (Some (eliminatedReason pb)) e
  | false, false => withOutcome true None (Some (eliminatedReason pa)) e
  end.
Proof.
  intros Hover Hplayers Hab Ha Hb.
  assert (Hba : b <> a) by congruence.
  unfold checkWinCondition. rewrite Hover, Hplayers.
  unfold JsMap.keys, firstWithoutBase. cbn [map fst find].
  rewrite !no_match_iff.
  fold (ownsBase e a). fold (ownsBase e b).
  pose proof (winner_of_other e a Ha) as Wa.
  pose proof (winner_of_other e b Hb) as Wb.
  destruct (ownsBase e a) eqn:Ea; destruct (ownsBase e b) eqn:Eb; cbn [negb].
  - reflexivity.
  - cbn [filter]. rewrite String.eqb_refl, (eqb_neq a b Hab). cbn [negb].
    rewrite Wa. cbn [JsMap.get]. rewrite (eqb_neq a b Hab), String.eqb_refl.
    reflexivity.
  - cbn [filter]. rewrite String.eqb_refl, (eqb_neq b a Hba). cbn [negb].
    rewrite Wb. cbn [JsMap.get]. rewrite String.eqb_refl.
    reflexivity.
  - cbn [filter]. rewrite String.eqb_refl, (eqb_neq b a Hba). cbn [negb].
    rewrite Wb. cbn [JsMap.get]. rewrite String.eqb_refl.
    reflexivity.
Qed.

Lemma checkWinConditions_last_standing (e : GameEngine) (pw pl : Player)
  (players : list Player) :
  JsMap.values (e_players e) = players ->
  players = [pw; pl] \/ players = [pl; pw] ->
  pl_id pw <> pl_id pl ->
  ownsBase e (pl_id pw) = true -> ownsBase e (pl_id pl) = false ->
  checkWinConditions e
  = mkWin true (Some (pl_id pw)) (Some (getPlayerName pw ++ " wins by elimination!"))
      [pl_id pl].
Proof.
  intros Hplayers Horder Hne Hw Hl.
  assert (Hne' : pl_id pl <> pl_id pw) by congruence.
  unfold checkWinConditions. rewrite Hplayers.
  destruct Horder as [-> | ->]; cbn [filter map];
    rewrite !hasBase_ownsBase, Hw, Hl; cbn [negb map isEmpty filter includes existsb];
    rewrite ?String.eqb_refl, ?(eqb_neq _ _ Hne), ?(eqb_neq _ _ Hne');
    cbn [negb orb filter]; reflexivity.
Qed.

(** C6, amended, for a match of two players [a] and [b] (in join order).
    The engine's check, run on a game not yet over, changes nothing while
    both own a base.  Otherwise it sets [gameOver]; the eliminated player it
    reports is the first, in join order, that owns no base; [winner] is the
    other player if that one still owns a base and [null] if both are
    without one; the reason is the eliminated player's name followed by
    " eliminated".  The win condition manager, when exactly one of the two
    owns a base, reports game over with that player as winner and the
    reason "<winner's name> wins by elimination!". *)
Theorem C6_win_check (e : GameEngine) (a b : string) (pa pb : Player) :
  e_gameOver e = false ->
  e_players e = [(a, pa); (b, pb)] ->
  pl_id pa = a -> pl_id pb = b ->
  a <> b -> a <> "" -> b <> "" ->
  match ownsBase e a, ownsBase e b with
  | true, true => checkWinCondition e = e
  | false, true =>
      checkWinCondition e = withOutcome true (Some b) (Some (eliminatedReason pa)) e
      /\ checkWinConditions e
         = mkWin true (Some b) (Some (getPlayerName pb ++ " wins by elimination!")) [a]
  | true, false =>
      checkWinCondition e = withOutcome true (Some a) (Some (eliminatedReason pb)) e
      /\ checkWinConditions e
         = mkWin true (Some a) (Some (getPlayerName pa ++ " wins by elimination!")) [b]
  | false, false =>
      checkWinCondition e = withOutcome true None (Some (eliminatedReason pa)) e
  end.
Proof.
  intros Hover Hplayers Hida Hidb Hab Ha Hb.
  rewrite (checkWinCondition_duel e a b pa pb Hover Hplayers Hab Ha Hb).
  assert (Hvals : JsMap.values (e_players e) = [pa; pb]) by now rewrite Hplayers.
  destruct (ownsBase e a) eqn:Ea; destruct (ownsBase e b) eqn:Eb; try reflexivity.
  - split; [reflexivity|]. rewrite <- Hida, <- Hidb.
    apply (checkWinConditions_last_standing e pa pb [pa; pb]); subst; auto.
  - split; [reflexivity|]. rewrite <- Hida, <- Hidb.
    apply (checkWinConditions_last_standing e pb pa [pa; pb]); subst; auto.
Qed.

(** Alice lost her base; Bob still has his. *)
Lemma C6_win_check_witness :
  checkWinCondition Demo.aliceBaseless
  = withOutcome true (Some "bob") (Some (eliminatedReason Demo.alice)) Demo.aliceBaseless
  /\ checkWinConditions Demo.aliceBaseless
     = mkWin true (Some "bob") (Some (getPlayerName Demo.bob ++ " wins by elimination!"))
         ["alice"].
Proof.
  exact (C6_win_check Demo.aliceBaseless "alice" "bob" Demo.alice Demo.bob
           eq_refl eq_refl eq_refl eq_refl
           ltac:(discriminate) ltac:(discriminate) ltac:(discriminate)).
Defined.

(* ===================================================================== *)
(** * C4: the damage formula                                               *)
(* ===================================================================== *)
















(** The two cases the amended claim leaves out.  A tower's shot goes
    through [calculateDamageFromProjectile] like every arrow: with one
    attack upgrade its 20 damage becomes 22, where [calculateDamage] keeps
    a bonus of 3 per level under a test that no tower shot reaches. *)
Example tower_shot_adds_two_per_level :
  let e := withPlayers
             [("alice", withPlUpgrades (mkUpgrades 1 0 0) Demo.alice);
              ("bob", Demo.bob)] Demo.brawl in
  let shot := makeProjectile "p-3" worker $1000 $1000 $20 "alice"
                (EUnit (Demo.workerOf "u-bob" "bob" $1006 $1000)) 0 in
  calculateDamageFromProjectile e shot (EUnit (Demo.workerOf "u-bob" "bob" $1006 $1000))
  = $22.
Proof. reflexivity. Qed.

(** The amended claim does not reach a tower's shot: the projectile carries
    the tower's damage of 20, which is the damage stat of no unit type, so
    it is no projectile of a unit whose [attackDamage] is its type's
    stat. *)
Lemma stat_shot_is_no_tower_shot (shooter : Unit) (proj : Projectile) :
  firedBy shooter proj -> carriesStatDamage shooter ->
  Some (pj_damage proj) <> bs_attackDamage (BUILDING_STATS tower).
Proof.
  intros (id & target & tick & _ & Hd & _) Hstat.
  unfold carriesStatDamage in Hstat. cbv zeta in Hd.
  rewrite Hd. unfold makeProjectile. cbn [pj_damage]. rewrite Hstat.
  destruct (u_type shooter); vm_compute; discriminate.
Qed.

(** An archer recruited after one attack upgrade has the upgrade in its
    [attackDamage] already ([spawnUnit] adds it), and the impact adds it
    again: its arrow takes 12 hit points where a soldier's blow is raised
    by 2 only. *)
Example upgraded_archer_counts_upgrade_twice :
  let e := withPlayers
             [("alice", withPlUpgrades (mkUpgrades 1 0 0) Demo.alice);
              ("bob", Demo.bob)] Demo.engine in
  match Scenario.value (spawnUnit archer "alice" e) Scenario.worldA with
  | Ok (recruit, e1) =>
      let target := EUnit (Demo.workerOf "u-bob" "bob" $1006 $1000) in
      let shot := makeProjectile "p-4" (u_type recruit) (u_x recruit) (u_y recruit)
                    (u_attackDamage recruit) (u_ownerId recruit) target 0 in
      u_attackDamage recruit = $10
      /\ calculateDamageFromProjectile e1 shot target = $12
      /\ (specDamage (us_damage (UNIT_STATS archer)) 1 0 == 10)%Q
  | Throw _ => False
  end.
Proof. vm_compute. repeat split. Qed.

(* ===================================================================== *)
(** * C2: fog of war                                                       *)
(* ===================================================================== *)

(** The list [updateFogOfWar] stores for a player does not depend on the
    list it replaces: start from any other map of discovered tiles and the
    player ends the tick with the same list. *)
Lemma updateFogFor_overwrites (e : GameEngine) (player : Player)
  (old : JsMap.t (list DiscoveredTile)) (w : World) :
  match updateFogFor e player w, updateFogFor (withDiscoveredTiles old e) player w with
  | (Ok e1, w1), (Ok e2, w2) =>
      JsMap.get (e_discoveredTiles e1) (pl_id player)
      = JsMap.get (e_discoveredTiles e2) (pl_id player)
      /\ w1 = w2
  | (Throw _, _), (Throw _, _) => True
  | _, _ => False
  end.
Proof.
  unfold updateFogFor, bind.
  unfold discoverAround, discoverAt, isTileVisible, playerEntities.
  change (e_map (withDiscoveredTiles old e)) with (e_map e).
  change (e_units (withDiscoveredTiles old e)) with (e_units e).
  change (e_buildings (withDiscoveredTiles old e)) with (e_buildings e).
  match goal with
  | |- context [foldM ?f ?l [] w] => destruct (foldM f l [] w) as [[tiles|msg] w1]
  end; [|exact I].
  unfold ret. cbn [e_discoveredTiles withDiscoveredTiles]. now rewrite !get_set_same.
Qed.

(** C2 does not hold of the engine: [updateFogOfWar] stores, each tick, the
    tiles in view at that tick in place of the list it held.  Alice's worker
    walks east from (293, 293); the tile in column 3 of row 4 is in her
    discovered list at the end of tick 6 and gone from it at the end of
    tick 7, when the worker stands at (307, 293). *)
Theorem C2_discovered_tile_forgotten :
  match Scenario.value (FogRun.run 6) FogRun.world,
        Scenario.value (FogRun.run 7) FogRun.world with
  | Ok e6, Ok e7 =>
      e_tick e6 = 6 /\ e_tick e7 = 7 /\ e_gameOver e7 = false
      /\ FogRun.positions e6 = [($305, $293); ($308, $308); ($308, $308)]
      /\ FogRun.positions e7 = [($307, $293); ($308, $308); ($308, $308)]
      /\ discovered e6 "alice" 3 4 = true
      /\ discovered e7 "alice" 3 4 = false
  | _, _ => False
  end.
Proof. vm_compute. repeat split. Qed.

(* ===================================================================== *)
(** * C5: buildings under construction                                     *)
(* ===================================================================== *)

(** Whatever its construction progress, a building that is not a tower
    advances the head of its production queue by one each tick. *)
Lemma updateBuilding_advances_queue (e : GameEngine) (bid : string) (bld : Building)
  (item : ProductionQueueItem) (rest : list ProductionQueueItem) (w : World) :
  JsMap.get (e_buildings e) bid = Some bld ->
  b_productionQueue bld = item :: rest ->
  (q_progress item + 1 >=? us_buildTime (UNIT_STATS (q_type item))) = false ->
  b_type bld <> tower ->
  b_isUnderAttack bld = false ->
  updateBuilding e bid w
  = (Ok (modifyBuilding bid (fun b => withQueue (bumpQueueHead (b_productionQueue b)) b) e),
     w).
Proof.
  intros Hget Hq Hearly Hnot Hcalm. unfold updateBuilding.
  rewrite Hget, Hq, Hearly, Hcalm. unfold bind, ret.
  replace (BuildingType_beq (b_type bld) tower) with false
    by (destruct (b_type bld); try reflexivity; contradiction).
  reflexivity.
Qed.

(** Whatever its construction progress, a tower with a hostile unit within
    150 pixels fires an arrow of 20 damage at the nearest one. *)
Lemma updateTowerAttack_fires (e : GameEngine) (bid : string) (bld : Building)
  (enemy : Unit) (w : World) :
  JsMap.get (e_buildings e) bid = Some bld ->
  nearestEnemyFrom (b_ownerId bld) (b_x bld) (b_y bld) (JsMap.values (e_units e))
    None $150 = Some enemy ->
  exists id w',
    updateTowerAttack bid e w
    = (Ok (withProjectiles
             (e_projectiles e
                ++ [makeProjectile id worker (b_x bld) (b_y bld) $20 (b_ownerId bld)
                      (EUnit enemy) (e_tick e)])%list e), w').
Proof.
  intros Hget Hnear. unfold updateTowerAttack. rewrite Hget.
  change (bs_attackDamage (BUILDING_STATS tower)) with (Some $20). cbv iota beta.
  change (negb (truthy $20)) with false. cbv iota.
  change (orElse (bs_attackRange (BUILDING_STATS tower)) $150) with $150.
  rewrite Hnear. unfold bind, createProjectile, ret.
  destruct (generateId_runs w) as (id0 & w0 & H0). rewrite H0. cbv beta iota.
  unfold bind.
  destruct (generateId_runs w0) as (id & w1 & H1). rewrite H1.
  eauto.
Qed.

(** C5 does not hold of the engine: [updateBuildings] never reads a
    building's progress.  Bob's barracks, at progress 10, has advanced the
    soldier in its queue after one tick; Bob's tower, at progress 10, has
    fired at Alice's worker after one tick. *)
Theorem C5_unfinished_buildings_work :
  match Scenario.value (UnfinishedRun.barracksRun 0) Scenario.worldA,
        Scenario.value (UnfinishedRun.barracksRun 1) Scenario.worldA with
  | Ok e0, Ok e1 =>
      option_map (fun b => (b_type b, b_progress b, map q_progress (b_productionQueue b)))
        (UnfinishedRun.lastBuilding e0) = Some (barracks, $10, [0])
      /\ option_map (fun b => (b_type b, b_progress b, map q_progress (b_productionQueue b)))
           (UnfinishedRun.lastBuilding e1) = Some (barracks, $10, [1])
  | _, _ => False
  end
  /\ match Scenario.value (UnfinishedRun.towerRun 0) Scenario.worldA,
           Scenario.value (UnfinishedRun.towerRun 1) Scenario.worldA with
     | Ok e0, Ok e1 =>
         option_map (fun b => (b_type b, b_progress b)) (UnfinishedRun.lastBuilding e0)
         = Some (tower, $10)
         /\ e_projectiles e0 = []
         /\ map (fun p => (pj_type p, pj_ownerId p, pj_targetId p, pj_damage p))
              (e_projectiles e1)
            = [(arrow, "bob", "u-alice", $20)]
     | _, _ => False
     end.
Proof. vm_compute. repeat split. Qed.

(* ===================================================================== *)
(** * Further properties of the map generator                              *)
(* ===================================================================== *)

From Stdlib Require Import Lqa.

(** ** Lists of lists *)

Lemma tileAt_cell (ts : list (list TileType)) (x y : Z) :
  tileAt ts x y
  = if (x <? 0) || (y <? 0) then None
    else match nth_error ts (Z.to_nat y) with
         | Some row => nth_error row (Z.to_nat x)
         | None => None
         end.
Proof.
  unfold tileAt, rowAt. destruct (x <? 0), (y <? 0); simpl; try reflexivity.
  now destruct (nth_error ts (Z.to_nat y)).
Qed.

Lemma setTile_cell (ts : list (list TileType)) (x y : Z) (t : TileType) :
  0 <= x -> 0 <= y ->
  setTile ts x y t
  = match nth_error ts (Z.to_nat y) with
    | Some row => setNth (Z.to_nat y) (setNth (Z.to_nat x) t row) ts
    | None => ts
    end.
Proof.
  intros Hx Hy. unfold setTile, rowAt.
  destruct (Z.ltb_spec x 0); [lia|]. destruct (Z.ltb_spec y 0); [lia|]. reflexivity.
Qed.

Lemma tileAt_setTile_same (ts : list (list TileType)) (x y : Z) (t t0 : TileType) :
  tileAt ts x y = Some t0 -> tileAt (setTile ts x y t) x y = Some t.
Proof.
  rewrite !tileAt_cell.
  destruct ((x <? 0) || (y <? 0)) eqn:Hneg; [discriminate|].
  apply orb_false_iff in Hneg. destruct Hneg as [Hx Hy]. apply Z.ltb_ge in Hx, Hy.
  rewrite setTile_cell by assumption.
  destruct (nth_error ts (Z.to_nat y)) as [row|] eqn:Hrow; [|discriminate].
  intros Hcell.
  rewrite (nth_error_setNth_same _ _ row) by assumption.
  now apply nth_error_setNth_same with (b := t0).
Qed.

Lemma tileAt_setTile_other (ts : list (list TileType)) (x y x' y' : Z) (t : TileType) :
  0 <= x -> 0 <= y -> (x, y) <> (x', y') ->
  tileAt (setTile ts x y t) x' y' = tileAt ts x' y'.
Proof.
  intros Hx Hy Hne. rewrite !tileAt_cell, setTile_cell by assumption.
  destruct ((x' <? 0) || (y' <? 0)) eqn:Hneg; [reflexivity|].
  apply orb_false_iff in Hneg. destruct Hneg as [Hx' Hy'].
  apply Z.ltb_ge in Hx', Hy'.
  destruct (nth_error ts (Z.to_nat y)) as [row|] eqn:Hrow; [|reflexivity].
  destruct (Z.eq_dec y y') as [<-|Hyne].
  - rewrite (nth_error_setNth_same _ _ row) by assumption. rewrite Hrow.
    apply nth_error_setNth_other. intros Heq. apply Hne. f_equal. lia.
  - rewrite nth_error_setNth_other by lia. reflexivity.
Qed.

(** ** The terrain pass *)

Lemma zrange_nth (n i : nat) :
  (i < n)%nat -> nth_error (zrange n) i = Some (Z.of_nat i).
Proof.
  intros H. unfold zrange. rewrite nth_error_map, nth_error_seq.
  destruct (Nat.ltb_spec i n); [reflexivity | lia].
Qed.

Lemma terrainTile_corner (x y s : Z) :
  inSpawnCorner x y -> fst (terrainTile x y s) = tGrass.
Proof.
  intros Hc. unfold terrainTile.
  replace ((x <? 5) && (y <? 5) || (x >? 54) && (y >? 54)) with true; [reflexivity|].
  symmetry. apply orb_true_iff.
  destruct Hc as [[Hx Hy]|[Hx Hy]]; [left | right]; apply andb_true_iff; split;
    try (apply Z.ltb_lt; lia); apply Z.gtb_lt; lia.
Qed.

Lemma terrainRow_corner (y : Z) (xs : list Z) (s : Z) (i : nat) (x : Z) :
  nth_error xs i = Some x -> inSpawnCorner x y ->
  nth_error (fst (terrainRow y xs s)) i = Some tGrass.
Proof.
  revert s i. induction xs as [|x0 xs IH]; intros s [|i] Hi Hc; simpl in *;
    try discriminate.
  - inversion Hi; subst. pose proof (terrainTile_corner x y s Hc) as Ht.
    destruct (terrainTile x y s) as [t s1]. destruct (terrainRow y xs s1).
    simpl in *. now subst.
  - destruct (terrainTile x0 y s) as [t s1]. specialize (IH s1 i Hi Hc).
    destruct (terrainRow y xs s1). simpl in *. assumption.
Qed.

Lemma terrainRows_corner (w : nat) (ys : list Z) (s : Z) (i j : nat) (y : Z) :
  nth_error ys j = Some y -> (i < w)%nat -> inSpawnCorner (Z.of_nat i) y ->
  exists row, nth_error (fst (terrainRows w ys s)) j = Some row
              /\ nth_error row i = Some tGrass.
Proof.
  revert s j. induction ys as [|y0 ys IH]; intros s [|j] Hj Hi Hc; simpl in *;
    try discriminate.
  - inversion Hj; subst.
    pose proof (terrainRow_corner y (zrange w) s i (Z.of_nat i)
                  (zrange_nth w i Hi) Hc) as Hrow.
    destruct (terrainRow y (zrange w) s) as [row s1].
    destruct (terrainRows w ys s1). simpl in *. eauto.
  - destruct (terrainRow y0 (zrange w) s) as [row s1].
    specialize (IH s1 j Hj Hi Hc).
    destruct (terrainRows w ys s1). simpl in *. assumption.
Qed.

Lemma terrain_corner_grass (s x y : Z) :
  inSpawnCorner x y ->
  tileAt (fst (terrainRows 60 (zrange 60) s)) x y = Some tGrass.
Proof.
  intros Hc.
  assert (Hx : 0 <= x < 60) by (destruct Hc as [[? ?]|[? ?]]; lia).
  assert (Hy : 0 <= y < 60) by (destruct Hc as [[? ?]|[? ?]]; lia).
  rewrite tileAt_cell.
  replace ((x <? 0) || (y <? 0)) with false
    by (symmetry; apply orb_false_iff; split; apply Z.ltb_ge; lia).
  destruct (terrainRows_corner 60 (zrange 60) s (Z.to_nat x) (Z.to_nat y) y)
    as (row & Hrow & Hcell).
  - rewrite zrange_nth by lia. f_equal. lia.
  - lia.
  - now rewrite Z2Nat.id by lia.
  - now rewrite Hrow.
Qed.

(** ** The resource loops *)

Lemma gridShape_tileAt (w h : nat) (ts : list (list TileType)) (x y : Z) :
  gridShape w h ts -> 0 <= x < Z.of_nat w -> 0 <= y < Z.of_nat h ->
  exists t, tileAt ts x y = Some t.
Proof.
  intros [Hh Hw] Hx Hy. rewrite tileAt_cell.
  replace ((x <? 0) || (y <? 0)) with false
    by (symmetry; apply orb_false_iff; split; apply Z.ltb_ge; lia).
  destruct (nth_error ts (Z.to_nat y)) as [row|] eqn:Hrow.
  - destruct (nth_error row (Z.to_nat x)) as [t|] eqn:Hcell; [eauto|].
    apply nth_error_None in Hcell.
    rewrite Forall_forall in Hw. rewrite (Hw row) in Hcell; [lia|].
    eapply nth_error_In; eassumption.
  - apply nth_error_None in Hrow. lia.
Qed.

Lemma Qred_ofZ (z : Z) : Qred $z = $z.
Proof.
  unfold Num.ofZ, inject_Z, Qred.
  pose proof (Z.ggcd_gcd z 1) as Hg.
  pose proof (Z.ggcd_correct_divisors z 1) as Hd.
  destruct (Z.ggcd z 1) as [g [a b]]. simpl in *.
  rewrite Z.gcd_1_r in Hg. subst g. destruct Hd as [Ha Hb].
  replace a with z by lia. replace b with 1 by lia. reflexivity.
Qed.

Lemma tile_centre (x : Z) : ($(x * 40) + $40 / $2)%num = $(x * 40 + 20).
Proof.
  change ($40 / $2)%num with $20. unfold Num.add.
  rewrite <- (Qred_ofZ (x * 40 + 20)). apply Qred_complete.
  unfold Num.ofZ. rewrite inject_Z_plus. reflexivity.
Qed.

Lemma resourcePlaced_setTile (ts : list (list TileType)) (x y : Z) (t : TileType)
  (r : Resource) :
  0 <= x -> 0 <= y ->
  (tileAt ts x y = Some (tileOfResource (r_type r)) -> t = tileOfResource (r_type r)) ->
  resourcePlaced ts r -> resourcePlaced (setTile ts x y t) r.
Proof.
  intros Hx Hy Hsame (tx & ty & amount & Htx & Hty & Hrx & Hry & Htile & Hrest).
  exists tx, ty, amount. repeat split; try tauto; try lia.
  destruct (Z.eq_dec x tx) as [->|Hne].
  - destruct (Z.eq_dec y ty) as [->|Hne].
    + rewrite (tileAt_setTile_same _ _ _ _ _ Htile). f_equal. now apply Hsame.
    + rewrite tileAt_setTile_other by (try congruence; lia). assumption.
  - rewrite tileAt_setTile_other by (try congruence; lia). assumption.
Qed.

Lemma corner_not_written (ts : list (list TileType)) (x y : Z) (t : TileType) :
  0 <= x -> 0 <= y ->
  tileIs (tileAt ts x y) tGrass = false ->
  (forall cx cy, inSpawnCorner cx cy -> tileAt ts cx cy = Some tGrass) ->
  forall cx cy, inSpawnCorner cx cy -> tileAt (setTile ts x y t) cx cy = Some tGrass.
Proof.
  intros Hx Hy Hng Hc cx cy Hin.
  rewrite tileAt_setTile_other; [now apply Hc | assumption | assumption |].
  intros Heq. inversion Heq; subst cx cy.
  rewrite (Hc x y Hin) in Hng. discriminate.
Qed.

Lemma placeGold_keeps (n : nat) :
  forall st w, mapInv true n st ->
    exists st' w', placeGold 60 60 40 st w = (Ok st', w') /\ mapInv true (S n) st'.
Proof.
  intros [[ts rs] s] w (Hshape & Hcorner & Hplaced & Hgold & Hlen & Hs).
  unfold placeGold.
  pose proof (seededRandom_state s Hs) as Hs1.
  pose proof (seededRandom_draw s Hs) as Hr1.
  destruct (seededRandom s) as [r1 s1]. simpl in Hs1, Hr1.
  assert (Hs1' : 0 <= s1) by lia.
  pose proof (seededRandom_state s1 Hs1') as Hs2.
  pose proof (seededRandom_draw s1 Hs1') as Hr2.
  destruct (seededRandom s1) as [r2 s2]. simpl in Hs2, Hr2.
  assert (Hs2' : 0 <= s2) by lia.
  change (60 - 4) with 56.
  pose proof (floorMul_range r1 56 (proj1 Hr1) (proj2 Hr1) eq_refl) as Hx.
  pose proof (floorMul_range r2 56 (proj1 Hr2) (proj2 Hr2) eq_refl) as Hy.
  set (x := Num.floorMul r1 56 + 2) in *.
  set (y := Num.floorMul r2 56 + 2) in *.
  unfold bind at 1.
  rewrite (readTile_inside 60 60 ts x y w Hshape)
    by (change (Z.of_nat 60) with 60; lia).
  destruct (negb (tileIs (tileAt ts x y) tGrass)) eqn:Hg.
  - destruct (generateId_runs w) as (id & w' & Hid).
    unfold bind. rewrite Hid.
    pose proof (seededRandom_state s2 Hs2') as Hs3.
    pose proof (seededRandom_draw s2 Hs2') as Hr3.
    destruct (seededRandom s2) as [r3 s3]. simpl in Hs3, Hr3.
    pose proof (floorMul_range r3 1500 (proj1 Hr3) (proj2 Hr3) eq_refl) as Ha.
    unfold ret. do 2 eexists. split; [reflexivity|].
    apply negb_true_iff in Hg.
    destruct (gridShape_tileAt 60 60 ts x y Hshape) as [t0 Ht0];
      [subst x; simpl; lia | subst y; simpl; lia |].
    split; [now apply gridShape_setTile|].
    split; [apply corner_not_written; try assumption; subst x y; lia|].
    split; [|split; [|split; [rewrite length_app; simpl; lia | lia]]].
    + apply Forall_app. split.
      * rewrite Forall_forall in *. intros r Hr.
        apply resourcePlaced_setTile; [subst x; lia | subst y; lia | | now apply Hplaced].
        intros _. now rewrite (Hgold eq_refl r Hr).
      * constructor; [|constructor].
        exists x, y, (1500 + Num.floorMul r3 1500). cbn [r_x r_y r_type r_amount r_maxAmount].
        split; [subst x; lia|]. split; [subst y; lia|].
        split; [apply tile_centre|]. split; [apply tile_centre|].
        split; [now apply tileAt_setTile_same with (t0 := t0)|].
        split; [reflexivity|]. split; [lia | reflexivity].
    + intros _. apply Forall_app. split; [now apply Hgold|].
      constructor; [reflexivity | constructor].
  - unfold ret. do 2 eexists. split; [reflexivity|].
    split; [assumption|]. split; [assumption|]. split; [assumption|].
    split; [assumption|]. split; lia.
Qed.

Lemma placeForest_keeps (n : nat) :
  forall st w, mapInv false n st ->
    exists st' w', placeForest 60 60 40 st w = (Ok st', w') /\ mapInv false (S n) st'.
Proof.
  intros [[ts rs] s] w (Hshape & Hcorner & Hplaced & _ & Hlen & Hs).
  unfold placeForest.
  pose proof (seededRandom_state s Hs) as Hs1.
  pose proof (seededRandom_draw s Hs) as Hr1.
  destruct (seededRandom s) as [r1 s1]. simpl in Hs1, Hr1.
  assert (Hs1' : 0 <= s1) by lia.
  pose proof (seededRandom_state s1 Hs1') as Hs2.
  pose proof (seededRandom_draw s1 Hs1') as Hr2.
  destruct (seededRandom s1) as [r2 s2]. simpl in Hs2, Hr2.
  assert (Hs2' : 0 <= s2) by lia.
  change (60 - 4) with 56.
  pose proof (floorMul_range r1 56 (proj1 Hr1) (proj2 Hr1) eq_refl) as Hx.
  pose proof (floorMul_range r2 56 (proj1 Hr2) (proj2 Hr2) eq_refl) as Hy.
  set (x := Num.floorMul r1 56 + 2) in *.
  set (y := Num.floorMul r2 56 + 2) in *.
  unfold bind at 1.
  rewrite (readTile_inside 60 60 ts x y w Hshape)
    by (change (Z.of_nat 60) with 60; lia).
  destruct (negb (tileIs (tileAt ts x y) tGrass)
            && negb (tileIs (tileAt ts x y) tGold)) eqn:Hg.
  - destruct (generateId_runs w) as (id & w' & Hid).
    unfold bind. rewrite Hid.
    pose proof (seededRandom_state s2 Hs2') as Hs3.
    pose proof (seededRandom_draw s2 Hs2') as Hr3.
    destruct (seededRandom s2) as [r3 s3]. simpl in Hs3, Hr3.
    pose proof (floorMul_range r3 700 (proj1 Hr3) (proj2 Hr3) eq_refl) as Ha.
    unfold ret. do 2 eexists. split; [reflexivity|].
    apply andb_true_iff in Hg. destruct Hg as [Hg Hgo].
    apply negb_true_iff in Hg, Hgo.
    destruct (gridShape_tileAt 60 60 ts x y Hshape) as [t0 Ht0];
      [subst x; simpl; lia | subst y; simpl; lia |].
    split; [now apply gridShape_setTile|].
    split; [apply corner_not_written; try assumption; subst x y; lia|].
    split; [|split; [discriminate|split; [rewrite length_app; simpl; lia | lia]]].
    apply Forall_app. split.
    + rewrite Forall_forall in *. intros r Hr.
      apply resourcePlaced_setTile; [subst x; lia | subst y; lia | | now apply Hplaced].
      intros Hk. rewrite Hk in Hgo.
      destruct (r_type r); [discriminate | reflexivity].
    + constructor; [|constructor].
      exists x, y, (800 + Num.floorMul r3 700). cbn [r_x r_y r_type r_amount r_maxAmount].
      split; [subst x; lia|]. split; [subst y; lia|].
      split; [apply tile_centre|]. split; [apply tile_centre|].
      split; [now apply tileAt_setTile_same with (t0 := t0)|].
      split; [reflexivity|]. split; [lia | reflexivity].
  - unfold ret. do 2 eexists. split; [reflexivity|].
    split; [assumption|]. split; [assumption|]. split; [assumption|].
    split; [discriminate|]. split; lia.
Qed.

Lemma repeatM_keeps {S} (P : nat -> S -> Prop) (body : S -> M S) (k : nat) :
  (forall n st w, P n st -> exists st' w', body st w = (Ok st', w') /\ P (Datatypes.S n) st') ->
  forall n st w, P n st ->
    exists st' w', repeatM k body st w = (Ok st', w') /\ P (k + n)%nat st'.
Proof.
  intros Hbody. induction k as [|k IH]; intros n st w HP; simpl.
  - unfold ret. eauto.
  - destruct (Hbody n st w HP) as (st1 & w1 & H1 & HP1).
    unfold bind. rewrite H1.
    destruct (IH (Datatypes.S n) st1 w1 HP1) as (st2 & w2 & H2 & HP2).
    exists st2, w2. split; [assumption|].
    now replace (Datatypes.S (k + n)) with (k + Datatypes.S n)%nat by lia.
Qed.

Lemma generateMap_invariant (seed : Z) (w : World) :
  0 <= seed ->
  exists m w',
    generateMap seed w = (Ok m, w')
    /\ (width m, height m, tileSize m) = (60, 60, 40)
    /\ mapInv false 73 (tiles m, map_resources m, 0).
Proof.
  intros Hseed. unfold generateMap.
  pose proof (terrainRows_shape 60 (zrange 60) seed) as Hshape.
  pose proof (terrain_corner_grass seed) as Hcorner.
  pose proof (terrainRows_state 60 (zrange 60) seed Hseed) as Hs0.
  rewrite zrange_length in Hshape.
  change (Z.to_nat 60) with 60%nat.
  destruct (terrainRows 60 (zrange 60) seed) as [ts s0]. simpl in Hshape, Hcorner, Hs0.
  pose proof (seededRandom_state s0 Hs0) as Hs1.
  pose proof (seededRandom_draw s0 Hs0) as Hrg.
  destruct (seededRandom s0) as [rg s1]. simpl in Hs1, Hrg.
  assert (Hs1' : 0 <= s1) by lia.
  pose proof (seededRandom_state s1 Hs1') as Hs2.
  pose proof (seededRandom_draw s1 Hs1') as Hrf.
  destruct (seededRandom s1) as [rf s2]. simpl in Hs2, Hrf.
  pose proof (floorMul_range rg 10 (proj1 Hrg) (proj2 Hrg) eq_refl) as Hng.
  pose proof (floorMul_range rf 15 (proj1 Hrf) (proj2 Hrf) eq_refl) as Hnf.
  assert (H0 : mapInv true 0 (ts, [], s2)).
  { split; [assumption|]. split; [assumption|]. split; [constructor|].
    split; [constructor|]. split; [apply Nat.le_refl | lia]. }
  destruct (repeatM_keeps (mapInv true) (placeGold 60 60 40)
              (Z.to_nat (20 + Num.floorMul rg 10)) placeGold_keeps 0%nat _ w H0)
    as ([[ts1 rs1] s3] & w1 & H1 & HP1).
  unfold bind. rewrite H1.
  assert (HP1' : mapInv false (Z.to_nat (20 + Num.floorMul rg 10) + 0) (ts1, rs1, s3)).
  { destruct HP1 as (? & ? & ? & ? & ? & ?).
    split; [assumption|]. split; [assumption|]. split; [assumption|].
    split; [discriminate|]. split; assumption. }
  destruct (repeatM_keeps (mapInv false) (placeForest 60 60 40)
              (Z.to_nat (30 + Num.floorMul rf 15)) placeForest_keeps _ _ w1 HP1')
    as ([[ts2 rs2] s4] & w2 & H2 & HP2).
  rewrite H2. unfold ret. do 2 eexists. split; [reflexivity|]. split; [reflexivity|].
  cbn [tiles map_resources]. destruct HP2 as (? & ? & ? & ? & ? & ?).
  split; [assumption|]. split; [assumption|]. split; [assumption|].
  split; [discriminate|]. split; lia.
Qed.

(** X1.  For every seed [createRoom] draws, the generated grid has 60 rows of
    60 tiles and both 5 by 5 spawn corners are grass: the resource loops,
    which draw cells from columns and rows 2 to 57 and so reach into the
    corners, only ever write cells that are not grass. *)
Theorem generateMap_spawn_corners_grass (seed : Z) (w : World) :
  seedDrawn seed ->
  exists m w',
    generateMap seed w = (Ok m, w')
    /\ (width m, height m, tileSize m) = (60, 60, 40)
    /\ gridShape 60 60 (tiles m)
    /\ forall x y, inSpawnCorner x y -> tileAt (tiles m) x y = Some tGrass.
Proof.
  intros [Hseed _].
  destruct (generateMap_invariant seed w Hseed) as (m & w' & Hm & Hdim & Hinv).
  exists m, w'. destruct Hinv as (Hshape & Hcorner & _).
  split; [assumption|]. split; [assumption|]. split; assumption.
Qed.

Lemma generateMap_spawn_corners_grass_witness :
  exists m w',
    generateMap 424242 Scenario.worldA = (Ok m, w')
    /\ (width m, height m, tileSize m) = (60, 60, 40)
    /\ gridShape 60 60 (tiles m)
    /\ forall x y, inSpawnCorner x y -> tileAt (tiles m) x y = Some tGrass.
Proof.
  apply (generateMap_spawn_corners_grass 424242 Scenario.worldA).
  unfold seedDrawn. lia.
Defined.

(** X2.  For every seed [createRoom] draws, every resource of the generated
    map sits at the centre of a tile in columns and rows 2 to 57, that tile
    is gold under a gold mine and forest under a wood resource, a gold mine
    holds 1500 to 2999 of at most 3000 and a forest 800 to 1499 of at most
    1500, and the map has at most 73 resources. *)
Theorem generateMap_resources_placed (seed : Z) (w : World) :
  seedDrawn seed ->
  exists m w',
    generateMap seed w = (Ok m, w')
    /\ Forall (resourcePlaced (tiles m)) (map_resources m)
    /\ (List.length (map_resources m) <= 73)%nat.
Proof.
  intros [Hseed _].
  destruct (generateMap_invariant seed w Hseed) as (m & w' & Hm & Hdim & Hinv).
  exists m, w'. destruct Hinv as (_ & _ & Hplaced & _ & Hlen & _).
  split; [assumption|]. split; assumption.
Qed.

Lemma generateMap_resources_placed_witness :
  exists m w',
    generateMap 424242 Scenario.worldA = (Ok m, w')
    /\ Forall (resourcePlaced (tiles m)) (map_resources m)
    /\ (List.length (map_resources m) <= 73)%nat.
Proof.
  apply (generateMap_resources_placed 424242 Scenario.worldA).
  unfold seedDrawn. lia.
Defined.

(* ===================================================================== *)
(** * Further properties of the engine's actions                           *)
(* ===================================================================== *)

Lemma ownUnit_owner (e : GameEngine) (p id : string) (u : Unit) :
  ownUnit e p id = Some u -> JsMap.get (e_units e) id = Some u /\ u_ownerId u = p.
Proof.
  unfold ownUnit. destruct (JsMap.get (e_units e) id) as [u0|]; [|discriminate].
  destruct (String.eqb (u_ownerId u0) p) eqn:E; [|discriminate].
  intros H. inversion H; subst. split; [reflexivity | now apply String.eqb_eq].
Qed.

Lemma ownBuilding_owner (e : GameEngine) (p id : string) (b : Building) :
  ownBuilding e p id = Some b ->
  JsMap.get (e_buildings e) id = Some b /\ b_ownerId b = p.
Proof.
  unfold ownBuilding. destruct (JsMap.get (e_buildings e) id) as [b0|]; [|discriminate].
  destruct (String.eqb (b_ownerId b0) p) eqn:E; [|discriminate].
  intros H. inversion H; subst. split; [reflexivity | now apply String.eqb_eq].
Qed.

Lemma actionFrame_refl (p : string) (newId : Result string) (e : GameEngine) :
  actionFrame p newId e e.
Proof. unfold actionFrame. repeat split; auto. Qed.

Lemma actionFrame_trans (p : string) (newId : Result string) (e1 e2 e3 : GameEngine) :
  actionFrame p newId e1 e2 -> actionFrame p newId e2 e3 -> actionFrame p newId e1 e3.
Proof.
  intros (Hu & Hb & Hp & Ht & Hm & Hr & Hj & Hd & Ho)
         (Hu' & Hb' & Hp' & Ht' & Hm' & Hr' & Hj' & Hd' & Ho').
  unfold actionFrame. repeat split; try congruence.
  - intros k u Hk Hne. apply Hu'; [now apply Hu | assumption].
  - intros k b Hk Hne Hid. apply Hb'; [now apply Hb | assumption | assumption].
  - intros q Hq. rewrite Hp', Hp by assumption. reflexivity.
Qed.

Lemma modifyUnit_frame (p id : string) (newId : Result string) (f : Unit -> Unit)
  (e : GameEngine) (u0 : Unit) :
  ownUnit e p id = Some u0 -> actionFrame p newId e (modifyUnit id f e).
Proof.
  intros Hown. apply ownUnit_owner in Hown. destruct Hown as [Hget Hp].
  unfold modifyUnit. rewrite Hget. unfold actionFrame. cbn.
  repeat split; auto.
  intros k u Hk Hne. rewrite get_set_other; [assumption|].
  intros ->. rewrite Hget in Hk. inversion Hk; subst. contradiction.
Qed.

Lemma modifyBuilding_frame (p id : string) (newId : Result string)
  (f : Building -> Building) (e : GameEngine) (b0 : Building) :
  ownBuilding e p id = Some b0 -> actionFrame p newId e (modifyBuilding id f e).
Proof.
  intros Hown. apply ownBuilding_owner in Hown. destruct Hown as [Hget Hp].
  unfold modifyBuilding. rewrite Hget. unfold actionFrame. cbn.
  repeat split; auto.
  intros k b Hk Hne _. rewrite get_set_other; [assumption|].
  intros ->. rewrite Hget in Hk. inversion Hk; subst. contradiction.
Qed.

Lemma modifyPlayer_frame (p : string) (newId : Result string) (f : Player -> Player)
  (e : GameEngine) :
  actionFrame p newId e (modifyPlayer p f e).
Proof.
  unfold modifyPlayer. destruct (JsMap.get (e_players e) p); [|apply actionFrame_refl].
  unfold actionFrame. cbn. repeat split; auto.
  intros q Hq. apply get_set_other. congruence.
Qed.

Lemma modifyPlayer_buildings (p : string) (f : Player -> Player) (e : GameEngine) :
  e_buildings (modifyPlayer p f e) = e_buildings e.
Proof. unfold modifyPlayer. now destruct (JsMap.get (e_players e) p). Qed.

Lemma ownBuilding_modifyPlayer (p q id : string) (f : Player -> Player)
  (e : GameEngine) :
  ownBuilding (modifyPlayer q f e) p id = ownBuilding e p id.
Proof. unfold ownBuilding. now rewrite modifyPlayer_buildings. Qed.

Lemma handleProduce_frame p b t e w ok e' w' :
  handleProduce p b t e w = (Ok (ok, e'), w') ->
  actionFrame p (Scenario.value generateId w) e e'.
Proof.
  unfold handleProduce, bind, ret.
  destruct (ownBuilding e p b) as [b0|] eqn:Hown;
    [|intros H; inversion H; apply actionFrame_refl].
  destruct (JsMap.get (e_players e) p) as [pl|];
    [|intros H; inversion H; apply actionFrame_refl].
  destruct (cannotAfford _ _); [intros H; inversion H; apply actionFrame_refl|].
  destruct (_ >? _)%num; [intros H; inversion H; apply actionFrame_refl|].
  destruct (generateId_runs w) as (id & w1 & Hid). rewrite Hid.
  intros H. inversion H; subst.
  eapply actionFrame_trans; [apply modifyPlayer_frame|].
  eapply modifyBuilding_frame. rewrite ownBuilding_modifyPlayer. eassumption.
Qed.

Lemma handleBuild_frame p t pos e w ok e' w' :
  handleBuild p t pos e w = (Ok (ok, e'), w') ->
  actionFrame p (Scenario.value generateId w) e e'.
Proof.
  unfold handleBuild, bind, ret.
  destruct (JsMap.get (e_players e) p) as [pl|];
    [|intros H; inversion H; apply actionFrame_refl].
  destruct (cannotAfford _ _); [intros H; inversion H; apply actionFrame_refl|].
  destruct (negb _); [intros H; inversion H; apply actionFrame_refl|].
  unfold Scenario.value.
  destruct (generateId_runs w) as (id & w1 & Hid). rewrite Hid.
  intros H. inversion H; subst. cbn [fst].
  eapply actionFrame_trans; [apply modifyPlayer_frame|].
  unfold actionFrame. cbn. repeat split; auto.
  intros k b Hk Hne Hnew. rewrite get_set_other; [assumption|].
  intros ->. now apply Hnew.
Qed.

(** X3.  An action only reaches what its sender owns: whatever player [p]
    sends, accepted or not, every unit and building of another player is
    afterwards exactly as before (a building excepted that was stored under
    the very id a build action hands to its new building), every other
    player keeps resources and upgrades, and tick, map, resources on the
    map, projectiles, discovered tiles and the outcome of the game are
    unchanged. *)
Theorem processAction_reaches_only_sender
  (p : string) (a : ActionType) (e e' : GameEngine) (w w' : World) (ok : bool) :
  processAction p a e w = (Ok (ok, e'), w') ->
  actionFrame p (Scenario.value generateId w) e e'.
Proof.
  unfold processAction.
  destruct (JsMap.get (e_players e) p) as [pl|];
    [|intros H; inversion H; apply actionFrame_refl].
  destruct a; unfold ret;
    try (intros H; inversion H; apply actionFrame_refl);
    try apply handleProduce_frame; try apply handleBuild_frame.
  - unfold handleMove. destruct (ownUnit e p unitId) eqn:Hown; intros H; inversion H;
      [eapply modifyUnit_frame; eassumption | apply actionFrame_refl].
  - unfold handleAttack. destruct (ownUnit e p unitId) eqn:Hown;
      [|intros H; inversion H; apply actionFrame_refl].
    destruct (getEntity e targetId); [|intros H; inversion H; apply actionFrame_refl].
    destruct (String.eqb _ _); intros H; inversion H;
      [apply actionFrame_refl | eapply modifyUnit_frame; eassumption].
  - unfold handleStop. destruct (ownUnit e p unitId) eqn:Hown; intros H; inversion H;
      [eapply modifyUnit_frame; eassumption | apply actionFrame_refl].
  - unfold handleHoldPosition, handleStop.
    destruct (ownUnit e p unitId) eqn:Hown; intros H; inversion H;
      [eapply modifyUnit_frame; eassumption | apply actionFrame_refl].
  - unfold handlePatrol. destruct (ownUnit e p unitId) eqn:Hown; intros H; inversion H;
      [eapply modifyUnit_frame; eassumption | apply actionFrame_refl].
  - unfold handleAttackMove. destruct (ownUnit e p unitId) eqn:Hown; intros H; inversion H;
      [eapply modifyUnit_frame; eassumption | apply actionFrame_refl].
  - unfold handleUpgrade. destruct (ownBuilding e p buildingId);
      [|intros H; inversion H; apply actionFrame_refl].
    destruct (JsMap.get (e_players e) p); [|intros H; inversion H; apply actionFrame_refl].
    destruct (_ >=? _); [intros H; inversion H; apply actionFrame_refl|].
    destruct (_ <? _)%num; intros H; inversion H;
      [apply actionFrame_refl | apply modifyPlayer_frame].
  - unfold handleGather. destruct (ownUnit e p unitId) eqn:Hown;
      [|intros H; inversion H; apply actionFrame_refl].
    destruct (negb _); [intros H; inversion H; apply actionFrame_refl|].
    destruct (JsMap.get (e_resources e) resourceId); intros H; inversion H;
      [eapply modifyUnit_frame; eassumption | apply actionFrame_refl].
Qed.

(** Alice moves her worker; Bob's worker and base are as they were. *)
Lemma processAction_reaches_only_sender_witness :
  actionFrame "alice" (Scenario.value generateId Scenario.worldA) Demo.skirmish
    (modifyUnit "u-alice"
       (fun u => withTargetId None
                   (withTargetPosition (Some (mkPosition $400 $400)) (withState moving u)))
       Demo.skirmish).
Proof.
  apply (processAction_reaches_only_sender "alice"
           (A_move "u-alice" (mkPosition $400 $400)) Demo.skirmish _
           Scenario.worldA Scenario.worldA true).
  reflexivity.
Defined.

(** How an action rewrites the players map: not at all, or by one
    [ledgerStep] of its sender. *)
Lemma processAction_ledger
  (p : string) (a : ActionType) (e e' : GameEngine) (w w' : World) (ok : bool) :
  processAction p a e w = (Ok (ok, e'), w') ->
  e_players e' = e_players e
  \/ exists pl pl',
       JsMap.get (e_players e) p = Some pl /\ ledgerStep pl pl'
       /\ e_players e' = JsMap.set (e_players e) p pl'.
Proof.
  unfold processAction.
  destruct (JsMap.get (e_players e) p) as [pl|] eqn:Hpl;
    [|intros H; inversion H; now left].
  destruct a; unfold ret;
    try (intros H; inversion H; now left).
  - unfold handleMove. destruct (ownUnit e p unitId) eqn:Hown; intros H; inversion H;
      left; [|reflexivity].
    unfold modifyUnit. now destruct (JsMap.get (e_units e) unitId).
  - unfold handleAttack. destruct (ownUnit e p unitId) eqn:Hown;
      [|intros H; inversion H; now left].
    destruct (getEntity e targetId); [|intros H; inversion H; now left].
    destruct (String.eqb _ _); intros H; inversion H; left; [reflexivity|].
    unfold modifyUnit. now destruct (JsMap.get (e_units e) unitId).
  - unfold handleStop. destruct (ownUnit e p unitId) eqn:Hown; intros H; inversion H;
      left; [|reflexivity].
    unfold modifyUnit. now destruct (JsMap.get (e_units e) unitId).
  - unfold handleHoldPosition, handleStop.
    destruct (ownUnit e p unitId) eqn:Hown; intros H; inversion H;
      left; [|reflexivity].
    unfold modifyUnit. now destruct (JsMap.get (e_units e) unitId).
  - unfold handlePatrol. destruct (ownUnit e p unitId) eqn:Hown; intros H; inversion H;
      left; [|reflexivity].
    unfold modifyUnit. now destruct (JsMap.get (e_units e) unitId).
  - unfold handleAttackMove. destruct (ownUnit e p unitId) eqn:Hown; intros H; inversion H;
      left; [|reflexivity].
    unfold modifyUnit. now destruct (JsMap.get (e_units e) unitId).
  - unfold handleProduce, bind, ret.
    destruct (ownBuilding e p buildingId) as [b0|]; [|intros H; inversion H; now left].
    rewrite Hpl.
    destruct (cannotAfford _ _) eqn:Hpay; [intros H; inversion H; now left|].
    destruct (_ >? _)%num; [intros H; inversion H; now left|].
    destruct (generateId_runs w) as (id & w1 & Hid). rewrite Hid.
    intros H. inversion H; subst. right. exists pl, (debit (us_cost (UNIT_STATS unitType)) pl).
    split; [reflexivity|]. split; [left; eauto|].
    unfold modifyBuilding, modifyPlayer. rewrite Hpl. cbn.
    now destruct (JsMap.get (e_buildings e) buildingId).
  - unfold handleBuild, bind, ret. rewrite Hpl.
    destruct (cannotAfford _ _) eqn:Hpay; [intros H; inversion H; now left|].
    destruct (negb _); [intros H; inversion H; now left|].
    destruct (generateId_runs w) as (id & w1 & Hid). rewrite Hid.
    intros H. inversion H; subst. right.
    exists pl, (debit (bs_cost (BUILDING_STATS buildingType)) pl).
    split; [reflexivity|]. split; [left; eauto|].
    unfold modifyPlayer. rewrite Hpl. reflexivity.
  - unfold handleUpgrade. destruct (ownBuilding e p buildingId);
      [|intros H; inversion H; now left].
    rewrite Hpl.
    destruct (_ >=? _) eqn:Hlvl; [intros H; inversion H; now left|].
    destruct (_ <? _)%num eqn:Hgold; intros H; inversion H; [now left|].
    right. exists pl, (research upgradeType pl).
    split; [reflexivity|]. split.
    + right. exists upgradeType. split; [|split; [|reflexivity]].
      * unfold maxLevel. destruct upgradeType; lia.
      * now apply ltb_false in Hgold.
    + unfold modifyPlayer. rewrite Hpl. reflexivity.
  - unfold handleGather. destruct (ownUnit e p unitId) eqn:Hown;
      [|intros H; inversion H; now left].
    destruct (negb _); [intros H; inversion H; now left|].
    destruct (JsMap.get (e_resources e) resourceId); intros H; inversion H;
      left; [|reflexivity].
    unfold modifyUnit. now destruct (JsMap.get (e_units e) unitId).
Qed.

Lemma sub_nonneg (a b : number) : (b <= a)%Q -> (0 <= (a - b)%num)%Q.
Proof.
  intros H. unfold Num.sub. rewrite Qred_correct.
  unfold Qminus. rewrite <- (Qplus_opp_r b).
  apply Qplus_le_compat; [assumption | apply Qle_refl].
Qed.

Lemma ledgerStep_solvent (pl pl' : Player) :
  ledgerStep pl pl' -> solvent pl -> solvent pl'.
Proof.
  intros [(cost & Hpay & ->)|(t & _ & Hgold & ->)] [Hg Hw].
  - unfold cannotAfford in Hpay. apply orb_false_iff in Hpay.
    destruct Hpay as [Hpg Hpw]. apply ltb_false in Hpg, Hpw.
    unfold solvent, debit.
    cbn [pl_resources withPlResources withGold withWood gold wood].
    split; now apply sub_nonneg.
  - unfold solvent, research.
    cbn [pl_resources withPlResources withPlUpgrades withGold gold wood].
    split; [|assumption].
    now apply (sub_nonneg (gold (pl_resources pl)) $100).
Qed.

Lemma ledgerStep_withinCaps (pl pl' : Player) :
  ledgerStep pl pl' -> withinCaps pl -> withinCaps pl'.
Proof.
  intros [(cost & _ & ->)|(t & Hlvl & _ & ->)] (Ha & Hd & Hr).
  - unfold withinCaps, debit. cbn. auto.
  - unfold withinCaps, research. unfold maxLevel in Hlvl.
    destruct t; cbn in *; lia.
Qed.

Lemma ledger_invariant (P : Player -> Prop)
  (p : string) (a : ActionType) (e e' : GameEngine) (w w' : World) (ok : bool) :
  (forall pl pl', ledgerStep pl pl' -> P pl -> P pl') ->
  processAction p a e w = (Ok (ok, e'), w') ->
  forall q pl, JsMap.get (e_players e) q = Some pl -> P pl ->
  exists pl', JsMap.get (e_players e') q = Some pl' /\ P pl'.
Proof.
  intros Hstep Hrun q pl Hq HP.
  destruct (processAction_ledger p a e e' w w' ok Hrun)
    as [Hsame|(pl0 & pl1 & Hget & Hled & Hset)].
  - rewrite Hsame. eauto.
  - rewrite Hset. destruct (string_dec p q) as [->|Hne].
    + rewrite get_set_same. rewrite Hget in Hq. inversion Hq; subst. eauto.
    + rewrite get_set_other by assumption. eauto.
Qed.

(** X4.  No action overdraws an account: if a player's gold and wood are
    not negative before [processAction], whoever sends whatever action,
    they are not negative afterwards. *)
Theorem processAction_never_overdraws
  (p : string) (a : ActionType) (e e' : GameEngine) (w w' : World) (ok : bool)
  (q : string) (pl : Player) :
  processAction p a e w = (Ok (ok, e'), w') ->
  JsMap.get (e_players e) q = Some pl -> solvent pl ->
  exists pl', JsMap.get (e_players e') q = Some pl' /\ solvent pl'.
Proof.
  intros Hrun. exact (ledger_invariant solvent p a e e' w w' ok ledgerStep_solvent Hrun q pl).
Qed.

(** Bob researches an attack upgrade in his base for 100 of his 200 gold. *)
Lemma processAction_never_overdraws_witness :
  exists pl',
    JsMap.get (e_players (modifyPlayer "bob" (research upAttack) Demo.engine)) "bob"
    = Some pl'
    /\ solvent pl'.
Proof.
  apply (processAction_never_overdraws "bob" (A_upgrade "b-bob" upAttack) Demo.engine _
           Scenario.worldA Scenario.worldA true "bob" Demo.bob);
    [reflexivity | reflexivity | split; discriminate].
Defined.

(** X5.  Upgrade levels stay within their caps: if a player's attack and
    defense levels are at most 3 and the range level at most 2 before
    [processAction], they are so afterwards. *)
Theorem processAction_keeps_upgrade_caps
  (p : string) (a : ActionType) (e e' : GameEngine) (w w' : World) (ok : bool)
  (q : string) (pl : Player) :
  processAction p a e w = (Ok (ok, e'), w') ->
  JsMap.get (e_players e) q = Some pl -> withinCaps pl ->
  exists pl', JsMap.get (e_players e') q = Some pl' /\ withinCaps pl'.
Proof.
  intros Hrun.
  exact (ledger_invariant withinCaps p a e e' w w' ok ledgerStep_withinCaps Hrun q pl).
Qed.

(* ===================================================================== *)
(** * Further properties of the win checks                                 *)
(* ===================================================================== *)

Lemma ownsBase_swapped (e : GameEngine) (id : string) :
  existsb (fun b => String.eqb (b_ownerId b) id && BuildingType_beq (b_type b) base)
    (JsMap.values (e_buildings e)) = ownsBase e id.
Proof.
  unfold ownsBase. induction (JsMap.values (e_buildings e)) as [|b bs IH]; simpl;
    [reflexivity|].
  rewrite IH. unfold isBaseOwnedBy. now rewrite andb_comm.
Qed.

Lemma checkPlayerVictory_spec (id : string) (e : GameEngine) :
  checkPlayerVictory id e = true
  <-> forall o, In o (JsMap.values (e_players e)) -> pl_id o <> id ->
                ownsBase e (pl_id o) = false.
Proof.
  unfold checkPlayerVictory. rewrite forallb_forall. split.
  - intros H o Hin Hne. specialize (H o).
    rewrite ownsBase_swapped in H. apply negb_true_iff. apply H.
    apply filter_In. split; [assumption|].
    apply negb_true_iff. now apply String.eqb_neq.
  - intros H o Hin. apply filter_In in Hin. destruct Hin as [Hin Hne].
    rewrite ownsBase_swapped. apply negb_true_iff. apply H; [assumption|].
    apply negb_true_iff in Hne. now apply String.eqb_neq.
Qed.

Lemma checkPlayerDefeat_spec (id : string) (e : GameEngine) :
  checkPlayerDefeat id e = negb (ownsBase e id).
Proof.
  unfold checkPlayerDefeat. f_equal. apply (hasBase_ownsBase e id).
Qed.

Lemma eliminated_In (e : GameEngine) (players : list Player) (id : string) :
  In id (map pl_id (filter (fun p => negb (hasBase e (pl_id p))) players)) ->
  ownsBase e id = false.
Proof.
  intros H. apply in_map_iff in H. destruct H as (p & <- & Hp).
  apply filter_In in Hp. destruct Hp as [_ Hp].
  rewrite hasBase_ownsBase in Hp. now apply negb_true_iff.
Qed.

Lemma no_buildings_no_base (e : GameEngine) (id : string) :
  isEmpty (filter (ownedBy id) (JsMap.values (e_buildings e))) = true ->
  ownsBase e id = false.
Proof.
  intros H. rewrite <- hasBase_ownsBase. unfold hasBase.
  destruct (filter (ownedBy id) (JsMap.values (e_buildings e)));
    [reflexivity | discriminate].
Qed.

(** X6.  The two win checks of the win condition manager agree: whoever
    [checkWinConditions] names as winner, in a game of any number of
    players and by any of its three rules, passes [checkPlayerVictory]
    (no other player owns a base). *)
Theorem checkWinConditions_winner_is_victorious (gs : GameEngine) (winner : string) :
  w_winner (checkWinConditions gs) = Some winner ->
  checkPlayerVictory winner gs = true.
Proof.
  intros Hw. apply checkPlayerVictory_spec. intros o Hin Hne.
  unfold checkWinConditions in Hw.
  set (players := JsMap.values (e_players gs)) in *.
  set (eliminated := map pl_id (filter (fun p => negb (hasBase gs (pl_id p))) players)) in *.
  set (remaining := filter (fun p => negb (includes eliminated (pl_id p))) players) in *.
  assert (Hrem : forall p, remaining = [p] -> winner = pl_id p ->
                           ownsBase gs (pl_id o) = false).
  { intros p Hrem ->. apply eliminated_In with (players := players). fold eliminated.
    apply includes_In.
    destruct (includes eliminated (pl_id o)) eqn:E; [reflexivity|].
    assert (Ho : In o remaining)
      by (apply filter_In; split; [assumption | now rewrite E]).
    rewrite Hrem in Ho. destruct Ho as [->|[]]. contradiction. }
  assert (Hpair : forall p0 p1, players = [p0; p1] ->
            (winner = pl_id p0 /\ ownsBase gs (pl_id p1) = false)
            \/ (winner = pl_id p1 /\ ownsBase gs (pl_id p0) = false) ->
            ownsBase gs (pl_id o) = false).
  { intros p0 p1 Hpl Hcase. rewrite Hpl in Hin.
    destruct Hin as [<-|[<-|[]]]; destruct Hcase as [[-> H]|[-> H]];
      try assumption; contradiction. }
  assert (Hdestr : forall p0 p1, players = [p0; p1] ->
            w_winner
              (match
                 (if isEmpty (filter (unitOwnedBy (pl_id p0)) (JsMap.values (e_units gs)))
                     && isEmpty (filter (ownedBy (pl_id p0)) (JsMap.values (e_buildings gs)))
                     && isEmpty (filter (hasType base)
                                   (filter (ownedBy (pl_id p0))
                                      (JsMap.values (e_buildings gs))))
                  then Some (mkWin true (Some (pl_id p1))
                               (Some (getPlayerName p1 ++ " wins! Enemy army destroyed!"))
                               [pl_id p0])
                  else if isEmpty (filter (unitOwnedBy (pl_id p1)) (JsMap.values (e_units gs)))
                     && isEmpty (filter (ownedBy (pl_id p1)) (JsMap.values (e_buildings gs)))
                     && isEmpty (filter (hasType base)
                                   (filter (ownedBy (pl_id p1))
                                      (JsMap.values (e_buildings gs))))
                  then Some (mkWin true (Some (pl_id p0))
                               (Some (getPlayerName p0 ++ " wins! Enemy army destroyed!"))
                               [pl_id p1])
                  else None)
               with Some r => r | None => mkWin false None None [] end) = Some winner ->
            ownsBase gs (pl_id o) = false).
  { intros p0 p1 Hpl H. apply (Hpair p0 p1 Hpl).
    destruct (isEmpty _ && isEmpty _ && isEmpty _) eqn:E0 in H.
    - right. cbn in H. inversion H. split; [reflexivity|].
      apply andb_true_iff in E0. destruct E0 as [E0 _].
      apply andb_true_iff in E0. destruct E0 as [_ E0].
      now apply no_buildings_no_base.
    - destruct (isEmpty _ && isEmpty _ && isEmpty _) eqn:E1 in H; [|discriminate].
      left. cbn in H. inversion H. split; [reflexivity|].
      apply andb_true_iff in E1. destruct E1 as [E1 _].
      apply andb_true_iff in E1. destruct E1 as [_ E1].
      now apply no_buildings_no_base. }
  destruct (isEmpty eliminated) eqn:Hel.
  - destruct players as [|p0 [|p1 [|p2 ps]]] eqn:Hpl; try discriminate.
    now apply (Hdestr p0 p1).
  - destruct remaining as [|r0 [|r1 rs]] eqn:Hr.
    + destruct players as [|p0 [|p1 [|p2 ps]]] eqn:Hpl; try discriminate.
      destruct (negb (existsb (isBaseOwnedBy (pl_id p0)) _)
                && existsb (isBaseOwnedBy (pl_id p1)) _) eqn:E0 in Hw.
      * cbn in Hw. apply (Hpair p0 p1 eq_refl). right.
        split; [congruence|]. apply andb_true_iff in E0.
        destruct E0 as [E0 _]. now apply negb_true_iff in E0.
      * destruct (negb (existsb (isBaseOwnedBy (pl_id p1)) _)
                  && existsb (isBaseOwnedBy (pl_id p0)) _) eqn:E1 in Hw.
        -- cbn in Hw. apply (Hpair p0 p1 eq_refl). left.
           split; [congruence|]. apply andb_true_iff in E1.
           destruct E1 as [E1 _]. now apply negb_true_iff in E1.
        -- now apply (Hdestr p0 p1).
    + cbn in Hw. apply (Hrem r0); congruence.
    + destruct players as [|p0 [|p1 [|p2 ps]]] eqn:Hpl; try discriminate.
      destruct (negb (existsb (isBaseOwnedBy (pl_id p0)) _)
                && existsb (isBaseOwnedBy (pl_id p1)) _) eqn:E0 in Hw.
      * cbn in Hw. apply (Hpair p0 p1 eq_refl). right.
        split; [congruence|]. apply andb_true_iff in E0.
        destruct E0 as [E0 _]. now apply negb_true_iff in E0.
      * destruct (negb (existsb (isBaseOwnedBy (pl_id p1)) _)
                  && existsb (isBaseOwnedBy (pl_id p0)) _) eqn:E1 in Hw.
        -- cbn in Hw. apply (Hpair p0 p1 eq_refl). left.
           split; [congruence|]. apply andb_true_iff in E1.
           destruct E1 as [E1 _]. now apply negb_true_iff in E1.
        -- now apply (Hdestr p0 p1).
Qed.

(** Bob, the only player with a base, is the winner and passes the
    per-player check. *)
Lemma checkWinConditions_winner_is_victorious_witness :
  checkPlayerVictory "bob" Demo.aliceBaseless = true.
Proof.
  apply (checkWinConditions_winner_is_victorious Demo.aliceBaseless "bob").
  reflexivity.
Defined.

Lemma filter_base_nil (id : string) (bs : list Building) :
  isEmpty (filter (ownedBy id) bs) = true ->
  isEmpty (filter (hasType base) (filter (ownedBy id) bs)) = true.
Proof. destruct (filter (ownedBy id) bs); [reflexivity | discriminate]. Qed.

(** X7.  Two players, both without a base: the win condition manager
    declares the second player the winner if the first has no unit and no
    building left, whether or not the second has any; otherwise the first
    player if the second has none left; otherwise the game goes on. *)
Theorem checkWinConditions_both_bases_lost (gs : GameEngine) (p0 p1 : Player) :
  JsMap.values (e_players gs) = [p0; p1] ->
  ownsBase gs (pl_id p0) = false -> ownsBase gs (pl_id p1) = false ->
  checkWinConditions gs =
    if wipedOut gs (pl_id p0)
    then mkWin true (Some (pl_id p1))
           (Some (getPlayerName p1 ++ " wins! Enemy army destroyed!")) [pl_id p0]
    else if wipedOut gs (pl_id p1)
    then mkWin true (Some (pl_id p0))
           (Some (getPlayerName p0 ++ " wins! Enemy army destroyed!")) [pl_id p1]
    else mkWin false None None [].
Proof.
  intros Hpl H0 H1. unfold checkWinConditions. rewrite Hpl.
  cbn [filter map]. rewrite !hasBase_ownsBase, H0, H1.
  cbn [negb filter map isEmpty includes existsb].
  rewrite !String.eqb_refl. cbn [orb negb].
  rewrite orb_true_r. cbn [negb].
  fold (ownsBase gs (pl_id p0)). fold (ownsBase gs (pl_id p1)).
  rewrite H0, H1. cbn [negb andb].
  unfold wipedOut.
  destruct (isEmpty (filter (unitOwnedBy (pl_id p0)) _)); cbn [andb].
  - destruct (isEmpty (filter (ownedBy (pl_id p0)) _)) eqn:E0; cbn [andb].
    + rewrite (filter_base_nil _ _ E0). reflexivity.
    + destruct (isEmpty (filter (unitOwnedBy (pl_id p1)) _)); cbn [andb];
        [|reflexivity].
      destruct (isEmpty (filter (ownedBy (pl_id p1)) _)) eqn:E1; cbn [andb];
        [|reflexivity].
      rewrite (filter_base_nil _ _ E1). reflexivity.
  - destruct (isEmpty (filter (unitOwnedBy (pl_id p1)) _)); cbn [andb];
      [|reflexivity].
    destruct (isEmpty (filter (ownedBy (pl_id p1)) _)) eqn:E1; cbn [andb];
      [|reflexivity].
    rewrite (filter_base_nil _ _ E1). reflexivity.
Qed.

(** Both bases fell in the same tick and each side still has a worker:
    the manager lets the game go on. *)
Lemma checkWinConditions_both_bases_lost_witness :
  checkWinConditions Demo.bothBaseless = mkWin false None None [].
Proof.
  exact (checkWinConditions_both_bases_lost Demo.bothBaseless Demo.alice Demo.bob
           eq_refl eq_refl eq_refl).
Defined.

Lemma firstWithoutBase_spec (e : GameEngine) (ids : list string) :
  firstWithoutBase e ids = find (fun id => negb (ownsBase e id)) ids.
Proof.
  unfold firstWithoutBase, ownsBase.
  induction ids as [|id ids IH]; simpl; [reflexivity|].
  now rewrite no_match_iff, IH.
Qed.



(** Bob's attack level goes from 0 to 1. *)
Lemma processAction_keeps_upgrade_caps_witness :
  exists pl',
    JsMap.get (e_players (modifyPlayer "bob" (research upAttack) Demo.engine)) "bob"
    = Some pl'
    /\ withinCaps pl'.
Proof.
  apply (processAction_keeps_upgrade_caps "bob" (A_upgrade "b-bob" upAttack) Demo.engine _
           Scenario.worldA Scenario.worldA true "bob" Demo.bob);
    [reflexivity | reflexivity | unfold withinCaps; cbn; lia].
Defined.

(* ===================================================================== *)
(** * Further properties of the validator                                  *)
(* ===================================================================== *)

Lemma validateAction_owned
  (a : ActionType) (playerId : string) (r : PlayerResources)
  (ownedUnitIds ownedBuildingIds : list string) (gs : option ValidatorState) :
  valid (validateAction a playerId r ownedUnitIds ownedBuildingIds gs) = true ->
  (forall u, unitOf a = Some u -> u <> "" /\ In u ownedUnitIds)
  /\ (forall b, buildingOf a = Some b -> b <> "" /\ In b ownedBuildingIds).
Proof.
  intros Hv.
  assert (Hgate : forall id owned (rest : ValidationResult) why1 why2,
             valid (if String.eqb id "" then reject why1
                    else if negb (includes owned id) then reject why2
                    else rest) = true ->
             id <> "" /\ In id owned).
  { intros id owned rest why1 why2 H.
    destruct (String.eqb id "") eqn:E1; [discriminate|].
    destruct (includes owned id) eqn:E2; [|discriminate].
    split; [now apply String.eqb_neq | now apply includes_In]. }
  split; intros id Hid; destruct a; cbn in Hid; inversion Hid; subst;
    cbn [validateAction] in Hv;
    unfold validateMovementAction, validateAttackAction, validateStopAction,
      validateProduceAction, validateUpgradeAction, validateGatherAction,
      validateReturnResourcesAction, validateStopAction,
      validateCancelProductionAction, validateSetRallyPointAction in Hv;
    eapply Hgate; exact Hv.
Qed.

(** X9.  The ownership gate: an action the validator accepts that is
    addressed to a unit names a non-empty id among the sender's owned
    units, and one addressed to a building a non-empty id among the
    sender's owned buildings; only a build action passes without owning
    anything. *)
Theorem validateAction_ownership_gate
  (a : ActionType) (playerId : string) (r : PlayerResources)
  (ownedUnitIds ownedBuildingIds : list string) (gs : option ValidatorState) :
  valid (validateAction a playerId r ownedUnitIds ownedBuildingIds gs) = true ->
  (forall u, unitOf a = Some u -> u <> "" /\ In u ownedUnitIds)
  /\ (forall b, buildingOf a = Some b -> b <> "" /\ In b ownedBuildingIds).
Proof. apply validateAction_owned. Qed.

(** Bob commands the worker he owns. *)
Lemma validateAction_ownership_gate_witness :
  (forall u, unitOf (A_stop "u-bob") = Some u -> u <> "" /\ In u ["u-bob"])
  /\ (forall b, buildingOf (A_stop "u-bob") = Some b -> b <> "" /\ In b []).
Proof.
  apply (validateAction_ownership_gate (A_stop "u-bob") "bob"
           (mkResources $200 $100 $5 $10) ["u-bob"] [] None).
  reflexivity.
Defined.

Lemma checkRateLimit_runs (p : string) (cfg : RateLimitConfig) (limits : RateLimits)
  (w : World) :
  exists r limits', checkRateLimit p cfg limits w
                    = (Ok (r, limits'), snd (dateNow w)).
Proof.
  unfold checkRateLimit, bind, ret. cbn [dateNow fst snd].
  destruct (_ >=? _); [eauto|]. destruct (_ >=? _); eauto.
Qed.



(** X11.  The one-second window: after any call of [checkRateLimit] made at
    time [now], the timestamps kept for the caller are all younger than one
    second, [now] is among them exactly when the call was accepted, and a
    window of at most [maxActionsPerSecond] entries stays so. *)
Theorem checkRateLimit_window
  (cfg : RateLimitConfig) (limits : RateLimits) (p : string) (w : World) :
  0 < maxActionsPerSecond cfg ->
  let now := clock w (clock_reads w) in
  let before := match JsMap.get limits p with
                | Some rl => recentActions rl
                | None => []
                end in
  exists r limits' w' rl',
    checkRateLimit p cfg limits w = (Ok (r, limits'), w')
    /\ JsMap.get limits' p = Some rl'
    /\ Forall (fun t => now - t < 1000) (recentActions rl')
    /\ recentActions rl'
       = (filter (fun t => now - t <? 1000) before
            ++ (if valid r then [now] else []))%list
    /\ (valid r = true ->
        Z.of_nat (List.length (recentActions rl')) <= maxActionsPerSecond cfg)
    /\ (Z.of_nat (List.length before) <= maxActionsPerSecond cfg ->
        Z.of_nat (List.length (recentActions rl')) <= maxActionsPerSecond cfg).
Proof.
  intros Hcap now before.
  unfold checkRateLimit, bind, ret. cbn [dateNow fst snd]. fold now.
  set (rl := match JsMap.get limits p with
             | Some rl => rl
             | None => mkRateLimit 0 0 now []
             end).
  assert (Hbefore : recentActions rl = before).
  { unfold rl, before. now destruct (JsMap.get limits p). }
  rewrite Hbefore.
  set (recent := filter (fun t => now - t <? 1000) before).
  assert (Hyoung : Forall (fun t => now - t < 1000) recent).
  { apply Forall_forall. intros t Ht. apply filter_In in Ht.
    destruct Ht as [_ Ht]. now apply Z.ltb_lt. }
  assert (Hlen : (List.length recent <= List.length before)%nat)
    by apply filter_length_le.
  destruct (Z.of_nat (List.length recent) >=? maxActionsPerSecond cfg) eqn:Hsec.
  - do 4 eexists. split; [reflexivity|]. rewrite get_set_same.
    split; [reflexivity|]. cbn [recentActions valid reject].
    rewrite app_nil_r.
    split; [assumption|]. split; [reflexivity|].
    split; [discriminate|]. lia.
  - assert (Hroom : Z.of_nat (List.length recent) < maxActionsPerSecond cfg).
    { destruct (Z.geb_spec (Z.of_nat (List.length recent)) (maxActionsPerSecond cfg));
        [discriminate | lia]. }
    destruct (minuteCount rl >=? maxActionsPerMinute cfg).
    + do 4 eexists. split; [reflexivity|]. rewrite get_set_same.
      split; [reflexivity|]. cbn [recentActions valid reject].
      rewrite app_nil_r.
      split; [assumption|]. split; [reflexivity|].
      split; [discriminate|]. lia.
    + do 4 eexists. split; [reflexivity|]. rewrite get_set_same.
      split; [reflexivity|]. cbn [recentActions valid accept].
      split; [|split; [reflexivity|]].
      * apply Forall_app. split; [assumption|].
        constructor; [lia | constructor].
      * rewrite length_app. cbn [List.length]. lia.
Qed.

(** Bob's first call ever. *)
Lemma checkRateLimit_window_witness :
  let now := clock Scenario.worldA (clock_reads Scenario.worldA) in
  let before := match JsMap.get (@nil (string * PlayerRateLimit)) "bob" with
                | Some rl => recentActions rl
                | None => []
                end in
  exists r limits' w' rl',
    checkRateLimit "bob" DEFAULT_RATE_LIMIT [] Scenario.worldA = (Ok (r, limits'), w')
    /\ JsMap.get limits' "bob" = Some rl'
    /\ Forall (fun t => now - t < 1000) (recentActions rl')
    /\ recentActions rl'
       = (filter (fun t => now - t <? 1000) before
            ++ (if valid r then [now] else []))%list
    /\ (valid r = true ->
        Z.of_nat (List.length (recentActions rl')) <= maxActionsPerSecond DEFAULT_RATE_LIMIT)
    /\ (Z.of_nat (List.length before) <= maxActionsPerSecond DEFAULT_RATE_LIMIT ->
        Z.of_nat (List.length (recentActions rl')) <= maxActionsPerSecond DEFAULT_RATE_LIMIT).
Proof.
  apply (checkRateLimit_window DEFAULT_RATE_LIMIT [] "bob" Scenario.worldA).
  reflexivity.
Defined.

(** X12.  The two resource checks nest: client resources that the
    anti-cheat check, at its default tolerance of 5, does not flag are
    accepted by the validator's check at its default tolerance of 10. *)
Theorem unflagged_resources_are_valid
  (playerId : string) (client server : PlayerResources) :
  flagged (AntiCheat.validateResources playerId client server AntiCheat.defaultTolerance)
  = false ->
  valid (validateResources client server validatorTolerance) = true.
Proof.
  unfold AntiCheat.validateResources, AntiCheat.defaultTolerance. intros H.
  destruct (Num.abs (gold client -~ gold server) >? $5 *~ $10)%num; [discriminate|].
  destruct (Num.abs (gold client -~ gold server) >? $5)%num eqn:Hg; [discriminate|].
  destruct (Num.abs (wood client -~ wood server) >? $5 *~ $10)%num; [discriminate|].
  destruct (Num.abs (wood client -~ wood server) >? $5)%num eqn:Hw; [discriminate|].
  clear H. apply gtb_false in Hg, Hw.
  assert (H510 : (inject_Z 5 <= inject_Z 10)%Q) by (rewrite <- Zle_Qle; lia).
  unfold validateResources, validatorTolerance.
  replace (Num.abs (gold client -~ gold server) >? $10)%num with false
    by (symmetry; apply gtb_false; eapply Qle_trans; eassumption).
  replace (Num.abs (wood client -~ wood server) >? $10)%num with false
    by (symmetry; apply gtb_false; eapply Qle_trans; eassumption).
  reflexivity.
Qed.

(** Client and server agree. *)
Lemma unflagged_resources_are_valid_witness :
  valid (validateResources (mkResources $200 $100 $5 $10) (mkResources $200 $100 $5 $10)
           validatorTolerance) = true.
Proof.
  apply (unflagged_resources_are_valid "bob" (mkResources $200 $100 $5 $10)
           (mkResources $200 $100 $5 $10)).
  reflexivity.
Defined.

(* ===================================================================== *)
(** * Further properties of the anti-cheat checks                          *)
(* ===================================================================== *)

Lemma In_values_set {V} (m : JsMap.t V) (k : string) (v x : V) :
  In x (JsMap.values (JsMap.set m k v)) -> x = v \/ In x (JsMap.values m).
Proof.
  unfold JsMap.values. induction m as [|[k' v'] m IH]; simpl.
  - intros [H|[]]. now left.
  - destruct (String.eqb k' k); simpl.
    + intros [H|H]; [now left | right; now right].
    + intros [H|H]; [right; now left|].
      destruct (IH H) as [H'|H']; [now left | right; now right].
Qed.

Lemma gtb_scaled (x k : number) :
  (1 < k)%Q -> (x >? x * k)%num = true <-> (x < 0)%Q.
Proof.
  intros Hk. rewrite gtb_true. unfold Num.mul. rewrite Qred_correct.
  split; intros H; nra.
Qed.

(** X13.  [validateUnitStats] misfires on negative stats: a unit that has
    exactly the expected hp, damage, range and speed is flagged if and
    only if the expected hp, damage or speed is negative.  With the stats
    table as expectation, an untouched unit of every type passes except
    the healer, whose damage of -8 exceeds twice -8. *)
Theorem validateUnitStats_flags_negative_stats (u : Unit) (expected : ExpectedStats) :
  carriesStats u expected ->
  (det_flagged (validateUnitStats u expected) = true
   <-> (ex_hp expected < 0 \/ ex_damage expected < 0 \/ ex_speed expected < 0)%Q)
  /\ forall t, expected = expectedOf t ->
               (det_flagged (validateUnitStats u expected) = true <-> t = healer).
Proof.
  intros (Hhp & Hdmg & Hrange & Hspeed).
  assert (Hthree : (1 < 3 # 2)%Q) by reflexivity.
  assert (Htwo : (1 < $2)%Q) by reflexivity.
  assert (Hmain : det_flagged (validateUnitStats u expected) = true
                  <-> (ex_hp expected < 0 \/ ex_damage expected < 0
                       \/ ex_speed expected < 0)%Q).
  { unfold validateUnitStats. rewrite Hhp, Hdmg, Hrange, Hspeed.
    pose proof (gtb_scaled (ex_hp expected) _ Hthree) as H1.
    pose proof (gtb_scaled (ex_damage expected) _ Htwo) as H2.
    pose proof (gtb_scaled (ex_range expected) _ Htwo) as H3.
    pose proof (gtb_scaled (ex_speed expected) _ Hthree) as H4.
    destruct (ex_hp expected >? _)%num.
    { cbn. split; [intros _; left; now apply H1 | reflexivity]. }
    destruct (ex_damage expected >? _)%num.
    { cbn. split; [intros _; right; left; now apply H2 | reflexivity]. }
    destruct (ex_range expected >? _ * _)%num.
    { destruct (ex_range expected >? $0)%num eqn:E5.
      - exfalso. assert (ex_range expected < 0)%Q by now apply H3.
        apply gtb_true in E5. change ($0) with 0%Q in E5. lra.
      - cbn [andb]. destruct (ex_speed expected >? _)%num; cbn.
        + split; [intros _; right; right; now apply H4 | reflexivity].
        + split; [discriminate|]. intros [H|[H|H]];
            [apply H1 in H | apply H2 in H | apply H4 in H]; discriminate. }
    cbn [andb]. destruct (ex_speed expected >? _)%num; cbn.
    - split; [intros _; right; right; now apply H4 | reflexivity].
    - split; [discriminate|]. intros [H|[H|H]];
        [apply H1 in H | apply H2 in H | apply H4 in H]; discriminate. }
  split; [exact Hmain|].
  intros t ->. rewrite Hmain.
  destruct t; cbn [expectedOf UNIT_STATS ex_hp ex_damage ex_speed us_hp us_damage us_speed];
    (split; [intros [H|[H|H]]; try discriminate H; reflexivity
            | intros H; try discriminate H; right; left; reflexivity]).
Qed.

(** A healer fresh from the barracks. *)
Lemma validateUnitStats_flags_negative_stats_witness :
  let u := mkUnit "u-1" "bob" $100 $100 $60 $60 $16 healer idle None None []
             $100 $(-8) 60 0 (9 # 5)%Q $0 $0 $0 false 0 in
  (det_flagged (validateUnitStats u (expectedOf healer)) = true
   <-> (ex_hp (expectedOf healer) < 0 \/ ex_damage (expectedOf healer) < 0
        \/ ex_speed (expectedOf healer) < 0)%Q)
  /\ forall t, expectedOf healer = expectedOf t ->
               (det_flagged (validateUnitStats u (expectedOf healer)) = true
                <-> t = healer).
Proof.
  apply (validateUnitStats_flags_negative_stats
           (mkUnit "u-1" "bob" $100 $100 $60 $60 $16 healer idle None None []
              $100 $(-8) 60 0 (9 # 5)%Q $0 $0 $0 false 0)
           (expectedOf healer)).
  repeat split.
Defined.

(* ===================================================================== *)
(** * Further properties of the room manager                               *)
(* ===================================================================== *)

(** ** Maps, continued *)

Lemma In_set {V} (m : JsMap.t V) (k : string) (v : V) (x : string * V) :
  In x (JsMap.set m k v) -> x = (k, v) \/ In x m.
Proof.
  induction m as [|[k' v'] m IH]; simpl.
  - intros [H|[]]. now left.
  - destruct (String.eqb k' k); simpl.
    + intros [H|H]; [now left | right; now right].
    + intros [H|H]; [right; now left|].
      destruct (IH H) as [H'|H']; [now left | right; now right].
Qed.

Lemma In_delete {V} (m : JsMap.t V) (k : string) (x : string * V) :
  In x (JsMap.delete m k) -> In x m.
Proof.
  induction m as [|[k' v'] m IH]; simpl; [tauto|].
  destruct (String.eqb k' k); simpl; [tauto|].
  intros [H|H]; [now left | right; auto].
Qed.

Lemma In_values_delete {V} (m : JsMap.t V) (k : string) (x : V) :
  In x (JsMap.values (JsMap.delete m k)) -> In x (JsMap.values m).
Proof.
  unfold JsMap.values. rewrite !in_map_iff.
  intros (kv & Hx & Hin). exists kv. split; [assumption | now apply In_delete in Hin].
Qed.

Lemma Forall_values_set {V} (P : V -> Prop) (m : JsMap.t V) (k : string) (v : V) :
  Forall P (JsMap.values m) -> P v -> Forall P (JsMap.values (JsMap.set m k v)).
Proof.
  rewrite !Forall_forall. intros Hm Hv x Hx.
  apply In_values_set in Hx. destruct Hx as [->|Hx]; auto.
Qed.

Lemma Forall_values_delete {V} (P : V -> Prop) (m : JsMap.t V) (k : string) :
  Forall P (JsMap.values m) -> Forall P (JsMap.values (JsMap.delete m k)).
Proof.
  rewrite !Forall_forall. intros Hm x Hx. apply Hm. now apply In_values_delete in Hx.
Qed.

Lemma get_In {V} (m : JsMap.t V) (k : string) (v : V) :
  JsMap.get m k = Some v -> In v (JsMap.values m).
Proof.
  induction m as [|[k' v'] m IH]; simpl; [discriminate|].
  destruct (String.eqb k' k); [intros H; inversion H; now left | right; auto].
Qed.

Lemma size_set_existing {V} (m : JsMap.t V) (k : string) (v0 v : V) :
  JsMap.get m k = Some v0 -> JsMap.size (JsMap.set m k v) = JsMap.size m.
Proof.
  unfold JsMap.size. induction m as [|[k' v'] m IH]; simpl; [discriminate|].
  destruct (String.eqb k' k); simpl; [reflexivity|].
  intros H. now rewrite IH.
Qed.

Lemma size_set_new {V} (m : JsMap.t V) (k : string) (v : V) :
  JsMap.get m k = None -> JsMap.size (JsMap.set m k v) = S (JsMap.size m).
Proof.
  unfold JsMap.size. induction m as [|[k' v'] m IH]; simpl; [reflexivity|].
  destruct (String.eqb k' k); simpl; [discriminate|].
  intros H. now rewrite IH.
Qed.

Lemma get_delete_other {V} (m : JsMap.t V) (k k' : string) :
  k <> k' -> JsMap.get (JsMap.delete m k) k' = JsMap.get m k'.
Proof.
  intros Hne. induction m as [|[k0 v0] m IH]; simpl; [reflexivity|].
  destruct (String.eqb k0 k) eqn:E; simpl.
  - apply String.eqb_eq in E. subst k0.
    now rewrite (proj2 (String.eqb_neq _ _) Hne).
  - now rewrite IH.
Qed.

Lemma size_delete {V} (m : JsMap.t V) (k : string) (v : V) :
  JsMap.get m k = Some v -> S (JsMap.size (JsMap.delete m k)) = JsMap.size m.
Proof.
  unfold JsMap.size. induction m as [|[k' v'] m IH]; simpl; [discriminate|].
  destruct (String.eqb k' k); simpl; [reflexivity|].
  intros H. now rewrite IH.
Qed.

Lemma size_pos {V} (m : JsMap.t V) (k : string) (v : V) :
  JsMap.get m k = Some v -> (1 <= JsMap.size m)%nat.
Proof. destruct m; [discriminate | unfold JsMap.size; simpl; lia]. Qed.

Lemma get_map_values {V} (g : V -> V) (m : JsMap.t V) (k : string) :
  JsMap.get (map (fun kv => (fst kv, g (snd kv))) m) k
  = option_map g (JsMap.get m k).
Proof.
  induction m as [|[k' v'] m IH]; simpl; [reflexivity|].
  destruct (String.eqb k' k); [reflexivity | assumption].
Qed.

Lemma has_get {V} (m : JsMap.t V) (k : string) :
  JsMap.has m k = true -> exists v, JsMap.get m k = Some v.
Proof. unfold JsMap.has. destruct (JsMap.get m k); [eauto | discriminate]. Qed.

(** ** Rooms stay well formed *)

Lemma sameSeat_refl (p : PlayerConnection) : sameSeat p p.
Proof. repeat split. Qed.

Lemma roomOk_reseat (room : GameRoom) (k : string) (p p' : PlayerConnection) :
  roomOk room -> JsMap.get (room_players room) k = Some p -> sameSeat p p' ->
  roomOk (withRoomPlayers (JsMap.set (room_players room) k p') room).
Proof.
  intros (Hsize & Hmax & Hkeyed & (hc & Hhost & Hteam) & Howned & Heng & Htick)
         Hget (Hid & Hteam' & Hu & Hb & Hr).
  unfold roomOk. cbn [room_players room_config room_hostId room_engine room_status
                      room_tickInterval withRoomPlayers].
  split; [now rewrite (size_set_existing _ _ p)|]. split; [assumption|].
  assert (Hp : In p (JsMap.values (room_players room))) by now apply get_In in Hget.
  assert (Hkp : In (k, p) (room_players room)).
  { clear - Hget. induction (room_players room) as [|[k' v'] m IH]; simpl in *;
      [discriminate|].
    destruct (String.eqb k' k) eqn:E.
    - apply String.eqb_eq in E. inversion Hget. subst. now left.
    - right. auto. }
  split; [|split; [|split; [|split; assumption]]].
  - rewrite Forall_forall in *. intros x Hx. apply In_set in Hx.
    destruct Hx as [->|Hx]; [|now apply Hkeyed].
    cbn [fst snd]. rewrite Hid. exact (Hkeyed (k, p) Hkp).
  - destruct (string_dec k (room_hostId room)) as [->|Hne].
    + exists p'. rewrite get_set_same. split; [reflexivity|].
      rewrite Hget in Hhost. inversion Hhost; subst. congruence.
    + exists hc. rewrite get_set_other by assumption. now split.
  - apply Forall_values_set; [assumption|].
    rewrite Forall_forall in Howned. specialize (Howned p Hp).
    rewrite Hu, Hb, Hr. exact Howned.
Qed.

Lemma roomOk_map (room : GameRoom) (g : PlayerConnection -> PlayerConnection) :
  roomOk room -> (forall p, sameSeat p (g p)) ->
  roomOk (withRoomPlayers (map (fun kv => (fst kv, g (snd kv))) (room_players room)) room).
Proof.
  intros (Hsize & Hmax & Hkeyed & (hc & Hhost & Hteam) & Howned & Heng & Htick) Hg.
  unfold roomOk. cbn [room_players room_config room_hostId room_engine room_status
                      room_tickInterval withRoomPlayers].
  split; [unfold JsMap.size in *; now rewrite length_map|]. split; [assumption|].
  split; [|split; [|split; [|split; assumption]]].
  - rewrite Forall_forall in *. intros x Hx. apply in_map_iff in Hx.
    destruct Hx as (kv & <- & Hkv). cbn [fst snd].
    rewrite (proj1 (Hg (snd kv))). now apply Hkeyed.
  - exists (g hc). rewrite get_map_values, Hhost. split; [reflexivity|].
    destruct (Hg hc) as (_ & Ht & _). congruence.
  - unfold JsMap.values in *. rewrite map_map. cbn [snd].
    rewrite Forall_forall in *. intros x Hx. apply in_map_iff in Hx.
    destruct Hx as (kv & <- & Hkv).
    destruct (Hg (snd kv)) as (_ & _ & Hu & Hb & Hr). rewrite Hu, Hb, Hr.
    apply Howned. apply in_map_iff. eauto.
Qed.

Lemma roomOk_engine (room : GameRoom) (engine engine' : GameEngine) :
  roomOk room -> room_engine room = Some engine ->
  roomOk (withRoomEngine (Some engine') room).
Proof.
  intros (Hsize & Hmax & Hkeyed & Hhost & Howned & Heng & Htick) He.
  unfold roomOk. cbn [room_players room_config room_hostId room_engine room_status
                      room_tickInterval withRoomEngine].
  repeat (split; [assumption|]). split; [|assumption].
  split; [discriminate|]. intros Hw. apply Heng in Hw. congruence.
Qed.

Lemma serverOk_set (rooms : Rooms) (limits limits' : RateLimits) (k : string)
  (room : GameRoom) :
  serverOk (mkServer rooms limits) -> roomOk room ->
  serverOk (mkServer (JsMap.set rooms k room) limits').
Proof. unfold serverOk. cbn [sv_rooms]. apply Forall_values_set. Qed.

Lemma serverOk_lookup (rooms : Rooms) (limits : RateLimits) (k : string)
  (room : GameRoom) :
  serverOk (mkServer rooms limits) -> JsMap.get rooms k = Some room -> roomOk room.
Proof.
  unfold serverOk. cbn [sv_rooms]. rewrite Forall_forall. intros H Hget.
  apply H. now apply get_In in Hget.
Qed.

Lemma serverOk_limits (rooms : Rooms) (limits limits' : RateLimits) :
  serverOk (mkServer rooms limits) -> serverOk (mkServer rooms limits').
Proof. auto. Qed.

Lemma serverOk_cleanupRoom (rooms : Rooms) (limits limits' : RateLimits) (k : string) :
  serverOk (mkServer rooms limits) -> serverOk (mkServer (cleanupRoom k rooms) limits').
Proof.
  unfold serverOk, cleanupRoom. cbn [sv_rooms].
  destruct (JsMap.get rooms k); [apply Forall_values_delete | auto].
Qed.

Lemma createRoom_runs hostId hostName roomName difficulty rooms w :
  exists roomId seed lastPing createdAt w',
    createRoom hostId hostName roomName difficulty rooms w
    = (Ok (let room :=
             mkRoom roomId roomName (mkRoomConfig roomId roomName seed difficulty 2)
               [(hostId, mkConnection hostId hostName host "#4169E1" false lastPing true
                           (mkResources $200 $100 $5 $10) [] [])]
               waiting None createdAt None hostId None None in
           (Some (convertToRoomState room), JsMap.set rooms roomId room)),
       w').
Proof.
  unfold createRoom, generateRoomId, bind, dateNow, mathRandom, ret.
  do 5 eexists. reflexivity.
Qed.

Lemma createRoom_keeps hostId hostName roomName difficulty rooms limits w r w' :
  serverOk (mkServer rooms limits) ->
  createRoom hostId hostName roomName difficulty rooms w = (Ok r, w') ->
  serverOk (mkServer (snd r) limits).
Proof.
  intros Hok H.
  destruct (createRoom_runs hostId hostName roomName difficulty rooms w)
    as (roomId & seed & lastPing & createdAt & w1 & Hrun).
  rewrite Hrun in H. injection H as <- <-. cbn [snd].
  apply serverOk_set with (limits := limits); [assumption|].
  unfold roomOk. cbn [room_players room_config room_hostId room_engine room_status
                      room_tickInterval cfg_maxPlayers JsMap.size List.length].
  split; [lia|]. split; [reflexivity|].
  split; [constructor; [reflexivity | constructor]|].
  split; [eexists; cbn [JsMap.get]; rewrite String.eqb_refl; split; reflexivity|].
  split; [constructor; [repeat split | constructor]|].
  split; split; intros; congruence.
Qed.

Lemma joinRoom_keeps roomId playerId playerName rooms limits w r w' :
  serverOk (mkServer rooms limits) ->
  joinRoom roomId playerId playerName rooms w = (Ok r, w') ->
  serverOk (mkServer (snd r) limits).
Proof.
  intros Hok H. unfold joinRoom in H.
  destruct (JsMap.get rooms roomId) as [room|] eqn:Hroom;
    [|inversion H; assumption].
  pose proof (serverOk_lookup _ _ _ _ Hok Hroom) as Hr.
  destruct (room_status room) eqn:Hst; try (inversion H; assumption).
  destruct (cfg_maxPlayers (room_config room) <=? JsMap.size (room_players room))%nat
    eqn:Hfull; [inversion H; assumption|].
  destruct (JsMap.has (room_players room) playerId) eqn:Hhas;
    [inversion H; assumption|].
  unfold bind, dateNow, ret in H. cbv beta iota zeta in H. injection H as <- <-. cbn [snd].
  apply serverOk_set with (limits := limits); [assumption|].
  destruct Hr as (Hsize & Hmax & Hkeyed & (hc & Hhost & Hteam) & Howned & Heng & Htick).
  assert (Hnew : JsMap.get (room_players room) playerId = None).
  { unfold JsMap.has in Hhas. now destruct (JsMap.get (room_players room) playerId). }
  apply Nat.leb_gt in Hfull. rewrite Hmax in Hfull. rewrite Hst in Heng, Htick.
  unfold roomOk. cbn [room_players room_config room_hostId room_engine room_status
                      room_tickInterval].
  split; [rewrite size_set_new by assumption; lia|]. split; [assumption|].
  split; [|split; [|split; [|split; assumption]]].
  - rewrite Forall_forall in *. intros x Hx. apply In_set in Hx.
    destruct Hx as [->|Hx]; [reflexivity | now apply Hkeyed].
  - exists hc. rewrite get_set_other; [now split|]. congruence.
  - apply Forall_values_set; [assumption | repeat split].
Qed.

Lemma setReady_sameSeat (ready : bool) (p : PlayerConnection) :
  sameSeat p (setReady ready p).
Proof. repeat split. Qed.

Lemma setPlayerReady_keeps roomId playerId ready rooms limits :
  serverOk (mkServer rooms limits) ->
  serverOk (mkServer (snd (setPlayerReady roomId playerId ready rooms)) limits).
Proof.
  intros Hok. unfold setPlayerReady.
  destruct (JsMap.get rooms roomId) as [room|] eqn:Hroom; [|assumption].
  pose proof (serverOk_lookup _ _ _ _ Hok Hroom) as Hr.
  destruct (JsMap.get (room_players room) playerId) as [player|] eqn:Hp; [|assumption].
  cbn [snd]. apply serverOk_set with (limits := limits); [assumption|].
  exact (roomOk_reseat room playerId player _ Hr Hp (setReady_sameSeat ready player)).
Qed.

Lemma bind_Ok {A B} (m : M A) (k : A -> M B) (w w1 : World) (a : A) :
  m w = (Ok a, w1) -> bind m k w = k a w1.
Proof. intros H. unfold bind. now rewrite H. Qed.

Lemma bind_Throw {A B} (m : M A) (k : A -> M B) (w w1 : World) (msg : string) :
  m w = (Throw msg, w1) -> bind m k w = (Throw msg, w1).
Proof. intros H. unfold bind. now rewrite H. Qed.

Lemma bind_inv {A B} (m : M A) (k : A -> M B) (w w' : World) (b : B) :
  bind m k w = (Ok b, w') -> exists a w1, m w = (Ok a, w1) /\ k a w1 = (Ok b, w').
Proof.
  unfold bind. destruct (m w) as [[a|msg] w1]; intros H; [eauto | discriminate].
Qed.

Lemma ret_Ok {A} (a b : A) (w w' : World) :
  ret a w = (Ok b, w') -> a = b /\ w = w'.
Proof. unfold ret. intros H. now inversion H. Qed.

Lemma startGame_keeps roomId hostId rooms limits w r w' :
  serverOk (mkServer rooms limits) ->
  startGame roomId hostId rooms w = (Ok r, w') ->
  serverOk (mkServer (snd r) limits).
Proof.
  intros Hok H. unfold startGame in H.
  destruct (JsMap.get rooms roomId) as [room|] eqn:Hroom;
    [|apply ret_Ok in H; destruct H as [<- _]; assumption].
  pose proof (serverOk_lookup _ _ _ _ Hok Hroom) as Hr.
  destruct (negb (String.eqb (room_hostId room) hostId));
    [apply ret_Ok in H; destruct H as [<- _]; assumption|].
  destruct (negb (isWaiting (room_status room)));
    [apply ret_Ok in H; destruct H as [<- _]; assumption|].
  destruct (negb (allReady room) && _);
    [apply ret_Ok in H; destruct H as [<- _]; assumption|].
  apply bind_inv in H. destruct H as (engine & w1 & He & H).
  rewrite (bind_Ok dateNow _ w1 _ _ eq_refl) in H.
  apply ret_Ok in H. destruct H as [<- _]. cbn [snd].
  apply serverOk_set with (limits := limits); [assumption|].
  destruct Hr as (Hsize & Hmax & Hkeyed & Hhost & Howned & Heng & Htick).
  unfold roomOk. cbn [room_players room_config room_hostId room_engine room_status
                      room_tickInterval].
  repeat (split; [assumption|]).
  split; split; intros; congruence.
Qed.

Lemma promote_sameSeat_but_team (p : PlayerConnection) :
  pc_id (promote p) = pc_id p /\ pc_team (promote p) = host
  /\ pc_ownedUnitIds (promote p) = pc_ownedUnitIds p
  /\ pc_ownedBuildingIds (promote p) = pc_ownedBuildingIds p
  /\ pc_resources (promote p) = pc_resources p.
Proof. repeat split. Qed.

Lemma find_In {A} (f : A -> bool) (l : list A) (x : A) :
  find f l = Some x -> In x l /\ f x = true.
Proof. apply find_some. Qed.

Lemma leaveRoom_keeps playerId rooms limits :
  serverOk (mkServer rooms limits) ->
  serverOk (mkServer (leaveRoom playerId rooms) limits).
Proof.
  intros Hok. unfold leaveRoom.
  destruct (find _ rooms) as [[roomId room]|] eqn:Hfind; [|assumption].
  apply find_In in Hfind. destruct Hfind as [Hin Hhas]. cbn [snd] in Hhas.
  assert (Hr : roomOk room).
  { unfold serverOk in Hok. cbn [sv_rooms] in Hok. rewrite Forall_forall in Hok.
    apply Hok. unfold JsMap.values. apply in_map_iff. exists (roomId, room). now split. }
  destruct (has_get _ _ Hhas) as [leaver Hleaver].
  destruct Hr as (Hsize & Hmax & Hkeyed & (hc & Hhost & Hteam) & Howned & Heng & Htick).
  pose proof (size_delete _ _ _ Hleaver) as Hdel.
  assert (Hsub : forall x, In x (JsMap.delete (room_players room) playerId) ->
                           In x (room_players room))
    by (intros x; apply In_delete).
  destruct (String.eqb (room_hostId room) playerId) eqn:Hishost.
  - destruct (JsMap.delete (room_players room) playerId) as [|[k newHost] rest] eqn:Hrest.
    + now apply serverOk_cleanupRoom with (limits := limits).
    + apply serverOk_set with (limits := limits); [assumption|].
      assert (Hk : k = pc_id newHost).
      { rewrite Forall_forall in Hkeyed.
        exact (Hkeyed (k, newHost) (Hsub _ (or_introl eq_refl))). }
      unfold roomOk. cbn [room_players room_config room_hostId room_engine room_status
                          room_tickInterval withHostId withRoomPlayers].
      split; [unfold JsMap.size in *; cbn [List.length] in *; lia|].
      split; [assumption|].
      split; [|split; [|split; [|split; assumption]]].
      * rewrite Forall_forall in *. intros x [<-|Hx]; [exact Hk|].
        apply Hkeyed. apply Hsub. now right.
      * exists (promote newHost). cbn [JsMap.get]. rewrite Hk, String.eqb_refl.
        split; reflexivity.
      * unfold JsMap.values in *. cbn [map snd].
        rewrite Forall_forall in *.
        assert (Hnh : In newHost (map snd (room_players room)))
          by (apply in_map_iff; exists (k, newHost); split;
              [reflexivity | apply Hsub; now left]).
        intros x [<-|Hx]; [exact (Howned newHost Hnh)|].
        apply Howned. apply in_map_iff in Hx. destruct Hx as (kv & <- & Hkv).
        apply in_map_iff. exists kv. split; [reflexivity|]. apply Hsub. now right.
  - apply String.eqb_neq in Hishost.
    assert (Hroom' : roomOk (withRoomPlayers (JsMap.delete (room_players room) playerId)
                               room)).
    { assert (Hhost' : JsMap.get (JsMap.delete (room_players room) playerId)
                         (room_hostId room) = Some hc)
        by (rewrite get_delete_other; [assumption | congruence]).
      unfold roomOk. cbn [room_players room_config room_hostId room_engine room_status
                          room_tickInterval withRoomPlayers].
      split; [pose proof (size_pos _ _ _ Hhost'); lia|].
      split; [assumption|].
      split; [|split; [|split; [|split; assumption]]].
      - rewrite Forall_forall in *. intros x Hx. apply Hkeyed. now apply Hsub.
      - exists hc. now split.
      - now apply Forall_values_delete. }
    destruct (isWaiting (room_status room) && _).
    + apply serverOk_cleanupRoom with (limits := limits).
      now apply serverOk_set with (limits := limits).
    + now apply serverOk_set with (limits := limits).
Qed.

Lemma pinged_sameSeat (t : Z) (p : PlayerConnection) : sameSeat p (pinged t p).
Proof. repeat split. Qed.

Lemma handlePing_keeps roomId playerId rooms limits w r w' :
  serverOk (mkServer rooms limits) ->
  handlePing roomId playerId rooms w = (Ok r, w') ->
  serverOk (mkServer (snd r) limits).
Proof.
  intros Hok H. unfold handlePing in H.
  destruct (JsMap.get rooms roomId) as [room|] eqn:Hroom;
    [|inversion H; assumption].
  pose proof (serverOk_lookup _ _ _ _ Hok Hroom) as Hr.
  destruct (JsMap.get (room_players room) playerId) as [player|] eqn:Hp;
    [|inversion H; assumption].
  unfold bind, dateNow, ret in H. cbv beta iota zeta in H. injection H as <- <-. cbn [snd].
  apply serverOk_set with (limits := limits); [assumption|].
  exact (roomOk_reseat room playerId player _ Hr Hp (pinged_sameSeat _ player)).
Qed.

Lemma checkConnections_keeps roomId rooms limits w r w' :
  serverOk (mkServer rooms limits) ->
  checkConnections roomId rooms w = (Ok r, w') ->
  serverOk (mkServer (snd r) limits).
Proof.
  intros Hok H. unfold checkConnections in H.
  destruct (JsMap.get rooms roomId) as [room|] eqn:Hroom;
    [|inversion H; assumption].
  pose proof (serverOk_lookup _ _ _ _ Hok Hroom) as Hr.
  unfold bind, dateNow, ret in H. cbv beta iota zeta in H. injection H as <- <-. cbn [snd].
  apply serverOk_set with (limits := limits); [assumption|].
  set (now := clock w (clock_reads w)).
  replace (map _ (room_players room))
    with (map (fun kv => (fst kv, (fun p => if isStale now p then disconnected p else p)
                                    (snd kv)))
            (room_players room)).
  - apply (roomOk_map room (fun p => if isStale now p then disconnected p else p));
      [assumption|].
    intros p. destruct (isStale now p); repeat split.
  - apply map_ext. intros [k p]. cbn [fst snd]. now destruct (isStale now p).
Qed.

Lemma endGame_keeps roomId winner rooms limits :
  serverOk (mkServer rooms limits) ->
  (forall room, JsMap.get rooms roomId = Some room -> room_engine room <> None) ->
  serverOk (mkServer (endGame roomId winner rooms) limits).
Proof.
  intros Hok Hrunning. unfold endGame.
  destruct (JsMap.get rooms roomId) as [room|] eqn:Hroom; [|assumption].
  pose proof (serverOk_lookup _ _ _ _ Hok Hroom) as Hr.
  specialize (Hrunning room eq_refl).
  apply serverOk_set with (limits := limits); [assumption|].
  destruct Hr as (Hsize & Hmax & Hkeyed & Hhost & Howned & Heng & Htick).
  unfold roomOk. cbn [room_players room_config room_hostId room_engine room_status
                      room_tickInterval].
  repeat (split; [assumption|]).
  split; split; intros H; try congruence; discriminate.
Qed.

Lemma update_total (e : GameEngine) (w : World) :
  exists r w', update 1 e w = (r, w').
Proof. destruct (update 1 e w) as [r w']. eauto. Qed.

Lemma tickLoop_keeps roomId rooms limits w rooms' w' :
  serverOk (mkServer rooms limits) ->
  tickLoop roomId rooms w = (Ok rooms', w') ->
  serverOk (mkServer rooms' limits).
Proof.
  intros Hok H. unfold tickLoop in H.
  destruct (JsMap.get rooms roomId) as [room|] eqn:Hroom;
    [|apply ret_Ok in H; destruct H as [<- _]; assumption].
  pose proof (serverOk_lookup _ _ _ _ Hok Hroom) as Hr.
  destruct (room_tickInterval room);
    [|apply ret_Ok in H; destruct H as [<- _]; assumption].
  destruct (room_engine room) as [engine|] eqn:Hengine;
    [|apply ret_Ok in H; destruct H as [<- _]; assumption].
  destruct (update 1 engine w) as [[engine'|msg] w1] eqn:Hup.
  - rewrite (bind_Ok _ _ _ _ _ Hup) in H.
    assert (Hset : serverOk (mkServer (JsMap.set rooms roomId
                                         (withRoomEngine (Some engine') room)) limits)).
    { apply serverOk_set with (limits := limits); [assumption|].
      now apply roomOk_engine with (engine := engine). }
    destruct (e_gameOver engine'); apply ret_Ok in H; destruct H as [<- _];
      [|assumption].
    apply endGame_keeps; [assumption|].
    intros room0. rewrite get_set_same. intros H0. inversion H0. discriminate.
  - rewrite (bind_Throw _ _ _ _ _ Hup) in H. discriminate.
Qed.

Lemma roomProcessAction_keeps roomId playerId action rooms limits w r w' :
  serverOk (mkServer rooms limits) ->
  RoomManager.processAction roomId playerId action rooms limits w = (Ok r, w') ->
  serverOk (mkServer (snd (fst r)) (snd r)).
Proof.
  intros Hok H. unfold RoomManager.processAction in H.
  destruct (JsMap.get rooms roomId) as [room|] eqn:Hroom;
    [|apply ret_Ok in H; destruct H as [<- _]; assumption].
  pose proof (serverOk_lookup _ _ _ _ Hok Hroom) as Hr.
  destruct (room_engine room) as [engine|] eqn:Hengine;
    [|apply ret_Ok in H; destruct H as [<- _]; assumption].
  destruct (JsMap.get (room_players room) playerId) as [player|];
    [|apply ret_Ok in H; destruct H as [<- _]; assumption].
  destruct (checkRateLimit_runs playerId DEFAULT_RATE_LIMIT limits w)
    as (rl & limits' & Hrl).
  rewrite (bind_Ok _ _ _ _ _ Hrl) in H. cbv beta iota in H.
  destruct (negb (valid rl));
    [apply ret_Ok in H; destruct H as [<- _]; now apply serverOk_limits with limits|].
  destruct (negb (valid (validateAction _ _ _ _ _ _)));
    [apply ret_Ok in H; destruct H as [<- _]; now apply serverOk_limits with limits|].
  destruct (processAction_returns playerId action engine (snd (dateNow w)))
    as (ok & engine' & w2 & Hact).
  rewrite (bind_Ok _ _ _ _ _ Hact) in H. cbv beta iota in H.
  apply ret_Ok in H. destruct H as [<- _]. cbn [fst snd].
  apply serverOk_set with (limits := limits); [assumption|].
  now apply roomOk_engine with (engine := engine).
Qed.

Lemma cleanupRateLimits_runs (limits : RateLimits) (w : World) :
  exists limits', cleanupRateLimits limits w = (Ok limits', snd (dateNow w)).
Proof. unfold cleanupRateLimits, bind, ret, dateNow. cbn [fst snd]. eauto. Qed.

Lemma sweep_keeps (todo : list (string * GameRoom)) (rooms : Rooms) (limits : RateLimits)
  (w : World) :
  serverOk (mkServer rooms limits) ->
  exists rooms' w',
    foldM (fun (rs : Rooms) (kv : string * GameRoom) =>
             do now <- dateNow;
             if now - room_createdAt (snd kv) >? 3600000
             then ret (cleanupRoom (fst kv) rs)
             else ret rs)
      todo rooms w = (Ok rooms', w')
    /\ serverOk (mkServer rooms' limits).
Proof.
  revert rooms w. induction todo as [|kv todo IH]; intros rooms w Hok.
  - cbn [foldM]. unfold ret. eauto.
  - cbn [foldM].
    rewrite (bind_Ok _ _ w (snd (dateNow w))
               (if clock w (clock_reads w) - room_createdAt (snd kv) >? 3600000
                then cleanupRoom (fst kv) rooms else rooms)).
    + apply IH. destruct (_ >? _); [|assumption].
      now apply serverOk_cleanupRoom with (limits := limits).
    + rewrite (bind_Ok dateNow _ w _ _ eq_refl).
      destruct (_ >? _); reflexivity.
Qed.

Lemma periodicCleanup_keeps rooms limits w r w' :
  serverOk (mkServer rooms limits) ->
  periodicCleanup rooms limits w = (Ok r, w') ->
  serverOk (mkServer (fst r) (snd r)).
Proof.
  intros Hok H. unfold periodicCleanup in H.
  destruct (cleanupRateLimits_runs limits w) as (limits' & Hl).
  rewrite (bind_Ok _ _ _ _ _ Hl) in H.
  destruct (sweep_keeps rooms rooms limits' (snd (dateNow w))
              (serverOk_limits _ _ _ Hok)) as (rooms' & w1 & Hsweep & Hok').
  rewrite (bind_Ok _ _ _ _ _ Hsweep) in H.
  apply ret_Ok in H. destruct H as [<- _]. exact Hok'.
Qed.

Lemma perform_keeps (s s' : Server) (c : Call) (w w' : World) :
  serverOk s -> perform s c w = (Ok s', w') -> serverOk s'.
Proof.
  destruct s as [rooms limits]. intros Hok H.
  destruct c; unfold perform in H; cbn [sv_rooms sv_limits] in H.
  - destruct (createRoom hostId hostName roomName difficulty rooms w)
      as [[r|msg] w1] eqn:Hc;
      [rewrite (bind_Ok _ _ _ _ _ Hc) in H | rewrite (bind_Throw _ _ _ _ _ Hc) in H;
                                              discriminate].
    apply ret_Ok in H. destruct H as [<- _]. eapply createRoom_keeps; eassumption.
  - destruct (joinRoom roomId playerId playerName rooms w) as [[r|msg] w1] eqn:Hc;
      [rewrite (bind_Ok _ _ _ _ _ Hc) in H | rewrite (bind_Throw _ _ _ _ _ Hc) in H;
                                              discriminate].
    apply ret_Ok in H. destruct H as [<- _]. eapply joinRoom_keeps; eassumption.
  - apply ret_Ok in H. destruct H as [<- _]. now apply leaveRoom_keeps.
  - apply ret_Ok in H. destruct H as [<- _]. now apply setPlayerReady_keeps.
  - destruct (startGame roomId hostId rooms w) as [[r|msg] w1] eqn:Hc;
      [rewrite (bind_Ok _ _ _ _ _ Hc) in H | rewrite (bind_Throw _ _ _ _ _ Hc) in H;
                                              discriminate].
    apply ret_Ok in H. destruct H as [<- _]. eapply startGame_keeps; eassumption.
  - destruct (RoomManager.processAction roomId playerId action rooms limits w)
      as [[r|msg] w1] eqn:Hc;
      [rewrite (bind_Ok _ _ _ _ _ Hc) in H | rewrite (bind_Throw _ _ _ _ _ Hc) in H;
                                              discriminate].
    apply ret_Ok in H. destruct H as [<- _]. eapply roomProcessAction_keeps; eassumption.
  - destruct (handlePing roomId playerId rooms w) as [[r|msg] w1] eqn:Hc;
      [rewrite (bind_Ok _ _ _ _ _ Hc) in H | rewrite (bind_Throw _ _ _ _ _ Hc) in H;
                                              discriminate].
    apply ret_Ok in H. destruct H as [<- _]. eapply handlePing_keeps; eassumption.
  - destruct (checkConnections roomId rooms w) as [[r|msg] w1] eqn:Hc;
      [rewrite (bind_Ok _ _ _ _ _ Hc) in H | rewrite (bind_Throw _ _ _ _ _ Hc) in H;
                                              discriminate].
    apply ret_Ok in H. destruct H as [<- _]. eapply checkConnections_keeps; eassumption.
  - destruct (tickLoop roomId rooms w) as [[r|msg] w1] eqn:Hc;
      [rewrite (bind_Ok _ _ _ _ _ Hc) in H | rewrite (bind_Throw _ _ _ _ _ Hc) in H;
                                              discriminate].
    apply ret_Ok in H. destruct H as [<- _]. eapply tickLoop_keeps; eassumption.
  - destruct (periodicCleanup rooms limits w) as [[r|msg] w1] eqn:Hc;
      [rewrite (bind_Ok _ _ _ _ _ Hc) in H | rewrite (bind_Throw _ _ _ _ _ Hc) in H;
                                              discriminate].
    apply ret_Ok in H. destruct H as [<- _]. eapply periodicCleanup_keeps; eassumption.
Qed.

Lemma foldM_keeps {A S} (P : S -> Prop) (f : S -> A -> M S) (xs : list A) :
  (forall s s' x w w', P s -> f s x w = (Ok s', w') -> P s') ->
  forall s s' w w', P s -> foldM f xs s w = (Ok s', w') -> P s'.
Proof.
  intros Hf. induction xs as [|x xs IH]; intros s s' w w' HP H; cbn [foldM] in H.
  - apply ret_Ok in H. destruct H as [<- _]. assumption.
  - destruct (f s x w) as [[s1|msg] w1] eqn:Hstep.
    + rewrite (bind_Ok _ _ _ _ _ Hstep) in H.
      eapply IH; [|eassumption]. eapply Hf; eassumption.
    + rewrite (bind_Throw _ _ _ _ _ Hstep) in H. discriminate.
Qed.

(** X14.  Whatever the history of calls (room API, tick loops, periodic
    cleanup), every room of the server holds one or two players, its keys
    are the players' ids, its host is one of its players and has team
    host, no connection owns a unit or a building or has other resources
    than the initial 200 gold, 100 wood, supply 5 of 10, the room has an
    engine exactly when it is not waiting, and a tick loop exactly while
    it is playing. *)
Theorem rooms_stay_well_formed (history : list Call) (w w' : World) (s : Server) :
  serverAfter history w = (Ok s, w') -> serverOk s.
Proof.
  unfold serverAfter. apply (foldM_keeps serverOk perform history).
  - intros s0 s1 c w0 w1. apply perform_keeps.
  - constructor.
Qed.

(** Alice opens a room, Bob joins, both declare ready, Alice starts the
    game, Bob sends an order, the tick loop fires once and Alice leaves. *)
Lemma rooms_stay_well_formed_witness :
  serverOk (Play.serverOf Play.duel).
Proof.
  apply (rooms_stay_well_formed Play.duel Scenario.worldA
           (Scenario.after (serverAfter Play.duel) Scenario.worldA)).
  vm_compute. reflexivity.
Defined.

(** X15.  The room manager never lets a command through: after any
    history of calls, the room manager's [processAction] answers every
    action addressed to a unit or a building, by any player in any room,
    with a rejection and leaves the rooms, engines included, as they were.
    (Validation reads the owned unit and building ids of the player's
    connection, which nothing ever fills.) *)
Theorem room_commands_are_always_rejected
  (history : list Call) (w w' : World) (s : Server) :
  serverAfter history w = (Ok s, w') ->
  forall roomId playerId action w1,
    unitOf action <> None \/ buildingOf action <> None ->
    exists r limits' w2,
      RoomManager.processAction roomId playerId action (sv_rooms s) (sv_limits s) w1
      = (Ok (r, sv_rooms s, limits'), w2)
      /\ valid r = false.
Proof.
  intros Hrun roomId playerId action w1 Haddr.
  assert (Hok : serverOk s).
  { unfold serverAfter in Hrun.
    apply (foldM_keeps serverOk perform history
             (fun s0 s1 c w0 w2 => perform_keeps s0 s1 c w0 w2)
             (mkServer [] []) s w w' (Forall_nil roomOk) Hrun). }
  destruct s as [rooms limits]. cbn [sv_rooms sv_limits].
  unfold RoomManager.processAction.
  destruct (JsMap.get rooms roomId) as [room|] eqn:Hroom;
    [|unfold ret; do 3 eexists; split; reflexivity].
  pose proof (serverOk_lookup _ _ _ _ Hok Hroom) as Hr.
  destruct (room_engine room) as [engine|];
    [|unfold ret; do 3 eexists; split; reflexivity].
  destruct (JsMap.get (room_players room) playerId) as [player|] eqn:Hp;
    [|unfold ret; do 3 eexists; split; reflexivity].
  destruct (checkRateLimit_runs playerId DEFAULT_RATE_LIMIT limits w1)
    as (rl & limits' & Hrl).
  rewrite (bind_Ok _ _ _ _ _ Hrl). cbv beta iota.
  destruct (valid rl) eqn:Hvalid; cbn [negb];
    [|unfold ret; do 3 eexists; split; [reflexivity | assumption]].
  destruct Hr as (_ & _ & _ & _ & Howned & _).
  rewrite Forall_forall in Howned.
  destruct (Howned player (get_In _ _ _ Hp)) as (Hu & Hb & _).
  rewrite Hu, Hb.
  destruct (valid (validateAction action playerId (pc_resources player) [] []
                     (Some (validatorView engine)))) eqn:Hv; cbn [negb];
    [|unfold ret; do 3 eexists; split; [reflexivity | assumption]].
  exfalso. apply validateAction_owned in Hv. destruct Hv as [Hunit Hbld].
  destruct Haddr as [H|H].
  - destruct (unitOf action) as [u|]; [|contradiction].
    destruct (Hunit u eq_refl) as [_ []].
  - destruct (buildingOf action) as [b|]; [|contradiction].
    destruct (Hbld b eq_refl) as [_ []].
Qed.

(** In the started duel Bob's order to stop a unit is refused. *)
Lemma room_commands_are_always_rejected_witness :
  exists r limits' w2,
    RoomManager.processAction Play.room "bob" (A_stop "u-1")
      (sv_rooms (Play.serverOf Play.started)) (sv_limits (Play.serverOf Play.started))
      Scenario.worldA
    = (Ok (r, sv_rooms (Play.serverOf Play.started), limits'), w2)
    /\ valid r = false.
Proof.
  apply (room_commands_are_always_rejected Play.started Scenario.worldA
           (Scenario.after (serverAfter Play.started) Scenario.worldA)).
  - vm_compute. reflexivity.
  - left. discriminate.
Defined.

(* ===================================================================== *)
(** * Properties of the tick manager                                       *)
(* ===================================================================== *)

Lemma sliceLast_snoc {A} (n : nat) (xs : list A) (x : A) :
  (n < List.length (xs ++ [x]))%nat -> (0 < n)%nat ->
  TickManager.sliceLast n (xs ++ [x])
  = (skipn (List.length (xs ++ [x]) - n) xs ++ [x])%list
  /\ List.length (TickManager.sliceLast n (xs ++ [x])) = n.
Proof.
  intros Hlen Hn. unfold TickManager.sliceLast. rewrite length_app in *.
  cbn [List.length] in *. split.
  - rewrite skipn_app.
    replace (List.length xs + 1 - n - List.length xs)%nat with 0%nat by lia.
    reflexivity.
  - rewrite length_skipn, length_app. cbn [List.length]. lia.
Qed.

(** X16.  A player's input queue holds at most 60 entries: after every
    accepted [submitInput] the player's pending inputs are at most 60 and
    end with the input just submitted, stamped with its tick and the time
    of the call. *)
Theorem submitInput_keeps_last_sixty
  (roomId playerId : string) (input : ActionType) (tick : Z)
  (rooms rooms' : TickManager.ManagedRooms) (w w' : World) :
  TickManager.submitInput roomId playerId input tick rooms w = (Ok (true, rooms'), w') ->
  exists room' player' older,
    JsMap.get rooms' roomId = Some room'
    /\ JsMap.get (TickManager.mr_players room') playerId = Some player'
    /\ TickManager.pendingInputs player'
       = (older ++ [TickManager.mkTickInput tick input (clock w (clock_reads w))])%list
    /\ (List.length (TickManager.pendingInputs player') <= 60)%nat.
Proof.
  unfold TickManager.submitInput.
  destruct (JsMap.get rooms roomId) as [room|]; [|intros H; apply ret_Ok in H;
                                                   destruct H; discriminate].
  destruct (negb _); [intros H; apply ret_Ok in H; destruct H; discriminate|].
  destruct (JsMap.get (TickManager.mr_players room) playerId) as [player|];
    [|intros H; apply ret_Ok in H; destruct H; discriminate].
  rewrite (bind_Ok dateNow _ w _ _ eq_refl).
  intros H. apply ret_Ok in H. destruct H as [H _]. inversion H; subst rooms'.
  set (new := TickManager.mkTickInput tick input (clock w (clock_reads w))).
  match goal with
  | |- context [JsMap.set rooms roomId ?r] =>
      exists r;
      match r with
      | context [JsMap.set _ playerId ?p] => exists p
      end
  end.
  rewrite get_set_same. cbn [TickManager.mr_players TickManager.withPlayers].
  rewrite get_set_same. cbn [TickManager.pendingInputs TickManager.withPending].
  destruct (60 <? List.length (TickManager.pendingInputs player ++ [new]))%nat eqn:Hover.
  - apply Nat.ltb_lt in Hover.
    destruct (sliceLast_snoc 60 (TickManager.pendingInputs player) new Hover)
      as [Hslice Hlen]; [lia|].
    eexists. split; [reflexivity|]. split; [reflexivity|].
    split; [exact Hslice | rewrite Hlen; lia].
  - apply Nat.ltb_ge in Hover.
    eexists. split; [reflexivity|]. split; [reflexivity|].
    split; [reflexivity | exact Hover].
Qed.

(** Alice queues an order for tick 1 behind the late one. *)
Lemma submitInput_keeps_last_sixty_witness :
  let rooms' :=
    match Scenario.value
            (TickManager.submitInput "duel" "alice" (A_stop "u-alice") 1 Managed.rooms)
            Scenario.worldA with
    | Ok (_, rooms') => rooms'
    | Throw _ => []
    end in
  exists room' player' older,
    JsMap.get rooms' "duel" = Some room'
    /\ JsMap.get (TickManager.mr_players room') "alice" = Some player'
    /\ TickManager.pendingInputs player'
       = (older ++ [TickManager.mkTickInput 1 (A_stop "u-alice")
                      (clock Scenario.worldA (clock_reads Scenario.worldA))])%list
    /\ (List.length (TickManager.pendingInputs player') <= 60)%nat.
Proof.
  apply (submitInput_keeps_last_sixty "duel" "alice" (A_stop "u-alice") 1 Managed.rooms _
           Scenario.worldA
           (Scenario.after
              (TickManager.submitInput "duel" "alice" (A_stop "u-alice") 1 Managed.rooms)
              Scenario.worldA)).
  reflexivity.
Defined.

Lemma filter_none {A} (f : A -> bool) (l : list A) :
  Forall (fun x => f x = false) l -> filter f l = [].
Proof.
  induction l as [|x l IH]; intros H; [reflexivity|].
  apply Forall_cons_iff in H. destruct H as [Hx Hl].
  cbn [filter]. rewrite Hx. now apply IH.
Qed.

Lemma processInputs_stale (currentTick : Z) (players : JsMap.t TickManager.PlayerState)
  (engine : GameEngine) (seen : JsMap.t TickManager.PlayerState) (w : World) :
  allStale (currentTick - 1) players ->
  foldM (TickManager.processInputs currentTick) players (engine, seen) w
  = (Ok (engine, (seen ++ noInputs players)%list), w).
Proof.
  revert seen. induction players as [|[k ps] players IH]; intros seen Hstale.
  - cbn [foldM noInputs map]. now rewrite app_nil_r.
  - apply Forall_cons_iff in Hstale. destruct Hstale as [Hps Hrest].
    cbn [snd] in Hps. cbn [foldM].
    assert (Hnone : filter (fun i => TickManager.ti_tick i =? currentTick)
                      (TickManager.pendingInputs ps) = []).
    { apply filter_none. eapply Forall_impl; [|exact Hps].
      intros i Hi. cbv beta in *. apply Z.eqb_neq. lia. }
    assert (Hgone : filter (fun i => TickManager.ti_tick i >? currentTick)
                      (TickManager.pendingInputs ps) = []).
    { apply filter_none. eapply Forall_impl; [|exact Hps].
      intros i Hi. cbv beta in *. rewrite Z.gtb_ltb. apply Z.ltb_ge. lia. }
    rewrite (bind_Ok _ _ w w
               (engine, (seen ++ [(k, TickManager.withPending [] ps)])%list)).
    + rewrite IH by assumption. cbn [noInputs map fst snd].
      now rewrite <- app_assoc.
    + unfold TickManager.processInputs. rewrite Hnone, Hgone. reflexivity.
Qed.

Lemma noInputs_stale (t : Z) (players : JsMap.t TickManager.PlayerState) :
  allStale t (noInputs players).
Proof.
  unfold allStale, noInputs. apply Forall_forall. intros kv Hkv.
  apply in_map_iff in Hkv. destruct Hkv as (kv0 & <- & _). constructor.
Qed.

Lemma noInputs_idempotent (players : JsMap.t TickManager.PlayerState) :
  noInputs (noInputs players) = noInputs players.
Proof.
  unfold noInputs. rewrite map_map. apply map_ext. intros [k ps]. reflexivity.
Qed.

Lemma set_set {V} (m : JsMap.t V) (k : string) (a b : V) :
  JsMap.set (JsMap.set m k a) k b = JsMap.set m k b.
Proof.
  induction m as [|[k' v'] m IH]; simpl.
  - now rewrite String.eqb_refl.
  - destruct (String.eqb k' k) eqn:E; simpl.
    + now rewrite String.eqb_refl.
    + now rewrite E, IH.
Qed.

(** X17.  Late inputs never reach the engine: while a room is running,
    if every pending input of every player is stamped with the current
    tick count or an earlier one, the next firing of the tick loop behaves
    exactly as if the players had no pending input at all (the engine is
    only updated, and every queue ends up empty). *)
Theorem tick_drops_stale_inputs
  (roomId : string) (rooms : TickManager.ManagedRooms) (room : TickManager.ManagedRoom)
  (w : World) :
  JsMap.get rooms roomId = Some room ->
  TickManager.mr_tickInterval room <> None ->
  TickManager.mr_status room = TickManager.running ->
  allStale (TickManager.tickCount room) (TickManager.mr_players room) ->
  TickManager.tick roomId rooms w
  = TickManager.tick roomId
      (JsMap.set rooms roomId
         (TickManager.withPlayers (noInputs (TickManager.mr_players room)) room)) w
  /\ forall rooms' w',
       TickManager.tick roomId rooms w = (Ok rooms', w') ->
       exists room',
         JsMap.get rooms' roomId = Some room'
         /\ TickManager.mr_players room' = noInputs (TickManager.mr_players room)
         /\ update 1 (TickManager.mr_engine room) w
            = (Ok (TickManager.mr_engine room'), w').
Proof.
  intros Hroom Htimer Hrun Hstale.
  assert (Hstale' : allStale (TickManager.tickCount room + 1 - 1)
                      (TickManager.mr_players room))
    by (now replace (TickManager.tickCount room + 1 - 1) with (TickManager.tickCount room)
          by lia).
  unfold TickManager.tick.
  rewrite Hroom, get_set_same.
  cbn [TickManager.mr_tickInterval TickManager.mr_status TickManager.withPlayers
       TickManager.tickCount TickManager.mr_players TickManager.mr_engine
       TickManager.mr_id TickManager.mr_config TickManager.mr_snapshotInterval
       TickManager.lastTick TickManager.startTime].
  destruct (TickManager.mr_tickInterval room) as [timer|]; [|contradiction].
  rewrite Hrun. cbn [negb TickManager.isRunning].
  rewrite (bind_Ok _ _ _ _ _
             (processInputs_stale _ _ (TickManager.mr_engine room) [] w Hstale')).
  rewrite (bind_Ok _ _ _ _ _
             (processInputs_stale _ _ (TickManager.mr_engine room) [] w
                (noInputs_stale _ (TickManager.mr_players room)))).
  rewrite noInputs_idempotent. cbn [fst snd app].
  split.
  - destruct (update 1 (TickManager.mr_engine room) w) as [[engine|msg] w1] eqn:Hup.
    + rewrite !(bind_Ok _ _ _ _ _ Hup).
      unfold TickManager.stopTickManager. rewrite !get_set_same, !set_set.
      reflexivity.
    + now rewrite !(bind_Throw _ _ _ _ _ Hup).
  - intros rooms' w'.
    destruct (update 1 (TickManager.mr_engine room) w) as [[engine|msg] w1] eqn:Hup.
    + rewrite (bind_Ok _ _ _ _ _ Hup).
      unfold TickManager.stopTickManager. rewrite get_set_same, set_set.
      destruct (e_gameOver engine); intros H; apply ret_Ok in H;
        destruct H as [<- <-]; cbn [snd]; rewrite get_set_same;
        eexists; (split; [reflexivity|]); split; reflexivity.
    + rewrite (bind_Throw _ _ _ _ _ Hup). discriminate.
Qed.

(** Alice's late order is dropped by the next tick. *)
Lemma tick_drops_stale_inputs_witness :
  TickManager.tick "duel" Managed.rooms Scenario.worldA
  = TickManager.tick "duel"
      (JsMap.set Managed.rooms "duel"
         (TickManager.withPlayers (noInputs (TickManager.mr_players Managed.room))
            Managed.room)) Scenario.worldA
  /\ forall rooms' w',
       TickManager.tick "duel" Managed.rooms Scenario.worldA = (Ok rooms', w') ->
       exists room',
         JsMap.get rooms' "duel" = Some room'
         /\ TickManager.mr_players room' = noInputs (TickManager.mr_players Managed.room)
         /\ update 1 (TickManager.mr_engine Managed.room) Scenario.worldA
            = (Ok (TickManager.mr_engine room'), w').
Proof.
  apply (tick_drops_stale_inputs "duel" Managed.rooms Managed.room Scenario.worldA).
  - reflexivity.
  - discriminate.
  - reflexivity.
  - repeat constructor. discriminate.
Defined.

(* ===================================================================== *)
(** * Further properties of the main loop                                  *)
(* ===================================================================== *)

Lemma keys_set_existing {V} (m : JsMap.t V) (k : string) (v0 v : V) :
  JsMap.get m k = Some v0 -> JsMap.keys (JsMap.set m k v) = JsMap.keys m.
Proof.
  unfold JsMap.keys. induction m as [|[k' v'] m IH]; simpl; [discriminate|].
  destruct (String.eqb k' k) eqn:E; simpl.
  - apply String.eqb_eq in E. now subst.
  - intros H. now rewrite IH.
Qed.

Lemma keys_set_new {V} (m : JsMap.t V) (k : string) (v : V) :
  JsMap.get m k = None -> JsMap.keys (JsMap.set m k v) = (JsMap.keys m ++ [k])%list.
Proof.
  unfold JsMap.keys. induction m as [|[k' v'] m IH]; simpl; [reflexivity|].
  destruct (String.eqb k' k) eqn:E; simpl; [discriminate|].
  intros H. now rewrite IH.
Qed.

Lemma keys_set {V} (m : JsMap.t V) (k : string) (v : V) :
  exists born, JsMap.keys (JsMap.set m k v) = (JsMap.keys m ++ born)%list.
Proof.
  destruct (JsMap.get m k) eqn:E.
  - exists []. rewrite app_nil_r. eapply keys_set_existing; eassumption.
  - exists [k]. now apply keys_set_new.
Qed.

Lemma roster_refl (e : GameEngine) : sameRoster e e.
Proof.
  unfold sameRoster. split; [exists []; now rewrite app_nil_r|]. repeat split.
Qed.

Lemma roster_trans (e1 e2 e3 : GameEngine) :
  sameRoster e1 e2 -> sameRoster e2 e3 -> sameRoster e1 e3.
Proof.
  intros ([b1 Hu1] & Hb1 & Hp1 & Hm1 & Ht1 & Ha1) ([b2 Hu2] & Hb2 & Hp2 & Hm2 & Ht2 & Ha2).
  unfold sameRoster. split; [|repeat split; congruence].
  exists (b1 ++ b2)%list. rewrite Hu2, Hu1. now rewrite app_assoc.
Qed.

Lemma roster_modifyUnit (e e1 : GameEngine) (id : string) (f : Unit -> Unit) :
  sameRoster e e1 -> sameRoster e (modifyUnit id f e1).
Proof.
  intros H. eapply roster_trans; [exact H|].
  unfold modifyUnit. destruct (JsMap.get (e_units e1) id) eqn:E; [|apply roster_refl].
  unfold sameRoster. cbn. split; [|repeat split].
  exists []. rewrite app_nil_r. eapply keys_set_existing; eassumption.
Qed.

Lemma roster_modifyBuilding (e e1 : GameEngine) (id : string) (f : Building -> Building) :
  sameRoster e e1 -> sameRoster e (modifyBuilding id f e1).
Proof.
  intros H. eapply roster_trans; [exact H|].
  unfold modifyBuilding. destruct (JsMap.get (e_buildings e1) id) eqn:E;
    [|apply roster_refl].
  unfold sameRoster. cbn. split; [exists []; now rewrite app_nil_r|].
  split; [eapply keys_set_existing; eassumption | repeat split].
Qed.

Lemma roster_modifyPlayer (e e1 : GameEngine) (id : string) (f : Player -> Player) :
  sameRoster e e1 -> sameRoster e (modifyPlayer id f e1).
Proof.
  intros H. eapply roster_trans; [exact H|].
  unfold modifyPlayer. destruct (JsMap.get (e_players e1) id) eqn:E;
    [|apply roster_refl].
  unfold sameRoster. cbn. split; [exists []; now rewrite app_nil_r|].
  split; [reflexivity|]. split; [eapply keys_set_existing; eassumption | repeat split].
Qed.

Lemma roster_withProjectiles (e e1 : GameEngine) (ps : list Projectile) :
  sameRoster e e1 -> sameRoster e (withProjectiles ps e1).
Proof.
  intros H. eapply roster_trans; [exact H|]. unfold sameRoster. cbn.
  split; [exists []; now rewrite app_nil_r | repeat split].
Qed.

Lemma roster_withResources (e e1 : GameEngine) (rs : JsMap.t Resource) :
  sameRoster e e1 -> sameRoster e (withResources rs e1).
Proof.
  intros H. eapply roster_trans; [exact H|]. unfold sameRoster. cbn.
  split; [exists []; now rewrite app_nil_r | repeat split].
Qed.

Lemma roster_withDiscoveredTiles (e e1 : GameEngine) (ts : JsMap.t (list DiscoveredTile)) :
  sameRoster e e1 -> sameRoster e (withDiscoveredTiles ts e1).
Proof.
  intros H. eapply roster_trans; [exact H|]. unfold sameRoster. cbn.
  split; [exists []; now rewrite app_nil_r | repeat split].
Qed.

Lemma roster_withOutcome (e e1 : GameEngine) (over : bool) (winner reason : option string) :
  sameRoster e e1 -> sameRoster e (withOutcome over winner reason e1).
Proof.
  intros H. eapply roster_trans; [exact H|]. unfold sameRoster. cbn.
  split; [exists []; now rewrite app_nil_r | repeat split].
Qed.

Lemma roster_withUnits_set (e e1 : GameEngine) (id : string) (u : Unit) :
  sameRoster e e1 -> sameRoster e (withUnits (JsMap.set (e_units e1) id u) e1).
Proof.
  intros H. eapply roster_trans; [exact H|]. unfold sameRoster. cbn.
  split; [apply keys_set | repeat split].
Qed.

Lemma roster_hitEntity (e e1 : GameEngine) (key : string) (newHp : Entity -> number)
  (at_ : option Z) :
  sameRoster e e1 -> sameRoster e (hitEntity key newHp at_ e1).
Proof.
  intros H. unfold hitEntity. destruct (JsMap.get (e_units e1) key);
    [now apply roster_modifyUnit | now apply roster_modifyBuilding].
Qed.

Ltac roster :=
  repeat first
    [ assumption
    | match goal with
      | |- sameRoster _ (match ?x with _ => _ end) => destruct x eqn:?
      end
    | apply roster_refl
    | apply roster_modifyUnit
    | apply roster_modifyBuilding
    | apply roster_modifyPlayer
    | apply roster_withProjectiles
    | apply roster_withResources
    | apply roster_withDiscoveredTiles
    | apply roster_withOutcome
    | apply roster_withUnits_set
    | apply roster_hitEntity ].

(** One step of a monadic computation whose result is known to be [Ok]. *)
Ltac run H :=
  match type of H with
  | ret _ _ = (Ok _, _) =>
      apply ret_Ok in H; let H1 := fresh in destruct H as [H1 ?]; try subst
  | bind ?m ?k ?w = (Ok _, _) =>
      let E := fresh "E" in
      destruct (m w) as [[?|?] ?] eqn:E;
      [rewrite (bind_Ok _ _ _ _ _ E) in H; cbv beta in H
      |rewrite (bind_Throw _ _ _ _ _ E) in H; discriminate H]
  | (match ?x with _ => _ end) _ = (Ok _, _) => destruct x eqn:?
  end.

Ltac run_bind H a E :=
  match type of H with
  | bind ?m ?k ?w = (Ok _, _) =>
      destruct (m w) as [[a|?] ?] eqn:E;
      [rewrite (bind_Ok _ _ _ _ _ E) in H; cbv beta in H
      |rewrite (bind_Throw _ _ _ _ _ E) in H; discriminate H]
  end.

Lemma keepsRoster_foldM {A} (f : GameEngine -> A -> M GameEngine) (xs : list A) :
  (forall x, keepsRoster (fun e => f e x)) -> keepsRoster (foldM f xs).
Proof.
  intros Hf. induction xs as [|x xs IH]; intros e w e' w' H; cbn [foldM] in H.
  - run H. apply roster_refl.
  - run H. eapply roster_trans; [eapply Hf; eassumption | eapply IH; eassumption].
Qed.

Lemma createProjectile_roster t sx sy dmg owner target :
  keepsRoster (createProjectile t sx sy dmg owner target).
Proof.
  intros e w e' w' H. unfold createProjectile in H.
  destruct (generateId_runs w) as (id & w1 & Hid).
  rewrite (bind_Ok _ _ _ _ _ Hid) in H. run H. roster.
Qed.

Lemma spawnUnit__roster t owner : keepsRoster (spawnUnit_ t owner).
Proof.
  intros e w e' w' H. unfold spawnUnit_, spawnUnit in H.
  destruct (JsMap.get (e_players e) owner) as [player|].
  2:{ unfold bind, throw in H. discriminate. }
  destruct (find (isBaseOf owner) (JsMap.values (e_buildings e))) as [b|].
  - unfold bind, mathRandom, ret in H. cbv beta iota in H.
    destruct (generateId_runs
                (mkWorld (clock w) (clock_reads w) (rng w) (S (S (rng_draws w)))
                   (idCounter w))) as (id & w1 & Hid).
    cbn [clock clock_reads rng rng_draws idCounter] in H.
    rewrite Hid in H. cbn [snd] in H. injection H as <- _. roster.
  - unfold bind, ret in H. cbv beta iota in H.
    destruct (generateId_runs w) as (id & w1 & Hid).
    rewrite Hid in H. cbn [snd] in H. injection H as <- _. roster.
Qed.

Lemma updateUnitMovement_roster (uid : string) (e : GameEngine) :
  sameRoster e (updateUnitMovement uid e).
Proof. unfold updateUnitMovement. cbv zeta. roster. Qed.

Lemma updateUnitGather_roster (uid : string) (e : GameEngine) :
  sameRoster e (updateUnitGather uid e).
Proof. unfold updateUnitGather. cbv zeta. roster. Qed.

Lemma updateUnitReturn_roster (uid : string) (e : GameEngine) :
  sameRoster e (updateUnitReturn uid e).
Proof. unfold updateUnitReturn. cbv zeta. roster. Qed.

Lemma updateUnitBuild_roster (uid : string) (e : GameEngine) :
  sameRoster e (updateUnitBuild uid e).
Proof. unfold updateUnitBuild. cbv zeta beta. roster. Qed.

Lemma updateUnitHeal_roster (uid : string) (e : GameEngine) :
  sameRoster e (updateUnitHeal uid e).
Proof. unfold updateUnitHeal. cbv zeta. roster. Qed.

Lemma updateUnitAttack_roster (uid : string) : keepsRoster (updateUnitAttack uid).
Proof.
  intros e w e' w' H. unfold updateUnitAttack in H. cbv zeta in H.
  repeat (run H; try solve [roster]).
  apply roster_modifyUnit. run E; [eapply createProjectile_roster; eassumption|].
  run E. roster.
Qed.

Lemma updateUnit_roster (uid : string) : keepsRoster (fun e => updateUnit e uid).
Proof.
  intros e w e' w' H. cbv beta in H. unfold updateUnit in H. cbv zeta in H.
  destruct (JsMap.get (e_units e) uid) as [unit|]; [|run H; roster].
  assert (H1 : sameRoster e
                 (if u_attackCooldownRemaining unit >? 0
                  then modifyUnit uid
                         (fun u => withCooldownRemaining (u_attackCooldownRemaining u - 1) u)
                         e
                  else e)) by roster.
  destruct (u_state unit); try (run H; eapply roster_trans; [exact H1|]).
  - apply roster_refl.
  - apply updateUnitMovement_roster.
  - eapply roster_trans; [exact H1 | eapply updateUnitAttack_roster; eassumption].
  - apply updateUnitGather_roster.
  - apply updateUnitReturn_roster.
  - apply updateUnitBuild_roster.
  - apply updateUnitHeal_roster.
  - apply roster_refl.
  - apply updateUnitMovement_roster.
  - apply roster_refl.
Qed.

Lemma updateUnits_roster : keepsRoster updateUnits.
Proof.
  intros e w e' w' H. unfold updateUnits in H.
  exact (keepsRoster_foldM updateUnit _ updateUnit_roster e w e' w' H).
Qed.

Lemma updateTowerAttack_roster (bid : string) : keepsRoster (updateTowerAttack bid).
Proof.
  intros e w e' w' H. unfold updateTowerAttack in H. cbv zeta in H.
  repeat (run H; try solve [roster]).
  eapply createProjectile_roster; eassumption.
Qed.

Lemma updateBuilding_roster (bid : string) : keepsRoster (fun e => updateBuilding e bid).
Proof.
  intros e w e' w' H. cbv beta in H. unfold updateBuilding in H. cbv zeta in H.
  destruct (JsMap.get (e_buildings e) bid) as [bld|]; [|run H; roster].
  run_bind H e1 E1.
  assert (H1 : sameRoster e e1).
  { destruct (b_productionQueue bld) as [|item rest]; [run E1; roster|].
    destruct (q_progress item + 1 >=? _); [|run E1; roster].
    run_bind E1 e0 E0. run E1. apply roster_modifyBuilding.
    eapply roster_trans; [|eapply spawnUnit__roster; eassumption]. roster. }
  run_bind H e2 E2.
  assert (H2 : sameRoster e e2).
  { destruct (_ && _); [|run E2; assumption].
    eapply roster_trans; [exact H1 | eapply updateTowerAttack_roster; eassumption]. }
  destruct (b_isUnderAttack bld); [|run H; assumption].
  rewrite (bind_Ok dateNow _ _ _ _ eq_refl) in H.
  destruct (_ >? _); run H; roster.
Qed.

Lemma updateBuildings_roster : keepsRoster updateBuildings.
Proof.
  intros e w e' w' H. unfold updateBuildings in H.
  exact (keepsRoster_foldM updateBuilding _ updateBuilding_roster e w e' w' H).
Qed.

Lemma splashUnit_roster (proj : Projectile) (uid : string) :
  keepsRoster (fun e => splashUnit proj e uid).
Proof.
  intros e w e' w' H. cbv beta in H. unfold splashUnit in H. cbv zeta in H.
  destruct (JsMap.get (e_units e) uid); [|run H; roster].
  destruct (String.eqb _ _); [run H; roster|].
  destruct (_ <=? _)%num; [|run H; roster].
  rewrite (bind_Ok dateNow _ _ _ _ eq_refl) in H. run H. roster.
Qed.

Lemma splashBuilding_roster (proj : Projectile) (bid : string) :
  keepsRoster (fun e => splashBuilding proj e bid).
Proof.
  intros e w e' w' H. cbv beta in H. unfold splashBuilding in H. cbv zeta in H.
  destruct (JsMap.get (e_buildings e) bid); [|run H; roster].
  destruct (String.eqb _ _); [run H; roster|].
  destruct (_ <=? _)%num; [|run H; roster].
  rewrite (bind_Ok dateNow _ _ _ _ eq_refl) in H. run H. roster.
Qed.

Lemma applySplashDamage_roster (proj : Projectile) : keepsRoster (applySplashDamage proj).
Proof.
  intros e w e' w' H. unfold applySplashDamage in H.
  run_bind H e1 E1.
  eapply roster_trans.
  - exact (keepsRoster_foldM (splashUnit proj) _ (splashUnit_roster proj) _ _ _ _ E1).
  - exact (keepsRoster_foldM (splashBuilding proj) _ (splashBuilding_roster proj) _ _ _ _ H).
Qed.

Lemma updateProjectile_roster (st st' : ProjLoop) (proj : Projectile) (w w' : World) :
  updateProjectile st proj w = (Ok st', w') ->
  sameRoster (fst (fst st)) (fst (fst st')).
Proof.
  destruct st as [[e seen] toRemove]. unfold updateProjectile. cbv zeta. intros H.
  destruct (getEntity e (pj_targetId proj)) as [target|];
    [|run H; cbn [fst]; roster].
  destruct (_ <? $10)%num; [|run H; cbn [fst]; roster].
  run_bind H e1 E1. run H. cbn [fst].
  destruct (pj_splashRadius proj >? $0)%num;
    [eapply applySplashDamage_roster; eassumption|].
  destruct (pj_type proj).
  - rewrite (bind_Ok dateNow _ _ _ _ eq_refl) in E1. run E1. roster.
  - destruct (_ && _); run E1; roster.
  - rewrite (bind_Ok dateNow _ _ _ _ eq_refl) in E1. run E1. roster.
Qed.

Lemma updateProjectiles_roster : keepsRoster updateProjectiles.
Proof.
  intros e w e' w' H. unfold updateProjectiles in H.
  run_bind H st Est. destruct st as [[e1 seen] toRemove]. run H.
  apply roster_withProjectiles.
  assert (Hloop : forall ps st0 st1 w0 w1,
             foldM updateProjectile ps st0 w0 = (Ok st1, w1) ->
             sameRoster (fst (fst st0)) (fst (fst st1))).
  { induction ps as [|p ps IH]; intros st0 st1 w0 w1 Hf; cbn [foldM] in Hf.
    - run Hf. apply roster_refl.
    - run_bind Hf st2 E2. eapply roster_trans;
        [eapply updateProjectile_roster; eassumption | eapply IH; eassumption]. }
  exact (Hloop _ _ _ _ _ Est).
Qed.

Lemma updateEconomy_roster (e : GameEngine) : sameRoster e (updateEconomy e).
Proof. unfold updateEconomy. cbv zeta. roster. Qed.

Lemma updateFogFor_roster (player : Player) :
  keepsRoster (fun e => updateFogFor e player).
Proof.
  intros e w e' w' H. cbv beta in H. unfold updateFogFor in H.
  run_bind H found E. run H. roster.
Qed.

Lemma updateFogOfWar_roster : keepsRoster updateFogOfWar.
Proof.
  intros e w e' w' H. unfold updateFogOfWar in H.
  exact (keepsRoster_foldM updateFogFor _ updateFogFor_roster e w e' w' H).
Qed.

Lemma checkWinCondition_roster (e : GameEngine) : sameRoster e (checkWinCondition e).
Proof. unfold checkWinCondition. cbv zeta. roster. Qed.

Lemma queueUnitProduction__roster (bid : string) (t : UnitType) :
  keepsRoster (queueUnitProduction_ bid t).
Proof.
  intros e w e' w' H. unfold queueUnitProduction_, queueUnitProduction in H.
  destruct (JsMap.get (e_buildings e) bid).
  - destruct (generateId_runs w) as (id & w1 & Hid).
    unfold bind in H. rewrite Hid in H. unfold ret in H. cbn [snd] in H.
    injection H as <- _. roster.
  - unfold bind, ret in H. cbn [snd] in H. injection H as <- _. roster.
Qed.

Lemma aiSendSoldier_roster (hostId sid : string) :
  keepsRoster (fun e => aiSendSoldier hostId e sid).
Proof.
  intros e w e' w' H. cbv beta in H. unfold aiSendSoldier in H. run H. roster.
Qed.

Lemma aiSendWorker_roster (wid : string) : keepsRoster (fun e => aiSendWorker e wid).
Proof.
  intros e w e' w' H. cbv beta in H. unfold aiSendWorker in H. run H. roster.
Qed.

Lemma updateAI_roster : keepsRoster updateAI.
Proof.
  intros e w e' w' H. unfold updateAI in H. cbv zeta in H.
  destruct (aiActive e) as [ai|]; [|run H; roster].
  destruct (JsMap.get (e_players e) ai) as [aiPlayer|]; [|run H; roster].
  run_bind H e1 E1.
  assert (H1 : sameRoster e e1).
  { repeat run E1; try solve [roster].
    eapply queueUnitProduction__roster; eassumption. }
  run_bind H e2 E2.
  assert (H2 : sameRoster e e2).
  { eapply roster_trans; [exact H1|].
    repeat run E2; try solve [roster];
      eapply queueUnitProduction__roster; eassumption. }
  run_bind H e3 E3.
  assert (H3 : sameRoster e e3).
  { eapply roster_trans; [exact H2|].
    repeat run E3; try solve [roster].
    match type of E3 with
    | foldM (aiSendSoldier ?h) _ _ _ = _ =>
        exact (keepsRoster_foldM (aiSendSoldier h) _ (aiSendSoldier_roster h) _ _ _ _ E3)
    end. }
  eapply roster_trans; [exact H3|].
  exact (keepsRoster_foldM aiSendWorker _ aiSendWorker_roster _ _ _ _ H).
Qed.

(** X18.  A tick never removes anything from the roster.  [update]
    leaves a finished game as it is; otherwise the tick count goes up by
    exactly one, every unit id present before the tick is still present
    after it, in the same order (dead units included: new ids are only
    appended), the building ids and the player ids are unchanged, and so
    is the map. *)
Theorem update_keeps_roster
  (deltaTime : Z) (e e' : GameEngine) (w w' : World) :
  update deltaTime e w = (Ok e', w') ->
  if e_gameOver e then e' = e /\ w' = w
  else
    e_tick e' = e_tick e + 1
    /\ (exists born, JsMap.keys (e_units e') = (JsMap.keys (e_units e) ++ born)%list)
    /\ JsMap.keys (e_buildings e') = JsMap.keys (e_buildings e)
    /\ JsMap.keys (e_players e') = JsMap.keys (e_players e)
    /\ e_map e' = e_map e.
Proof.
  intros H. unfold update in H. cbv zeta in H.
  destruct (e_gameOver e); [apply ret_Ok in H; destruct H; now split|].
  run_bind H e1 E1. run_bind H e2 E2. run_bind H e3 E3. run_bind H e5 E5.
  assert (Hroster : sameRoster (withTick (e_tick e + 1) e) e').
  { assert (H5 : sameRoster (withTick (e_tick e + 1) e) (checkWinCondition e5)).
    { eapply roster_trans; [eapply updateUnits_roster; eassumption|].
      eapply roster_trans; [eapply updateBuildings_roster; eassumption|].
      eapply roster_trans; [eapply updateProjectiles_roster; eassumption|].
      eapply roster_trans; [apply updateEconomy_roster|].
      eapply roster_trans; [eapply updateFogOfWar_roster; eassumption|].
      apply checkWinCondition_roster. }
    destruct (_ && _).
    - eapply roster_trans; [exact H5 | eapply updateAI_roster; eassumption].
    - apply ret_Ok in H. destruct H as [<- _]. exact H5. }
  destruct Hroster as (Hu & Hb & Hp & Hm & Ht & _).
  cbn [withTick e_units e_buildings e_players e_map e_tick] in Hu, Hb, Hp, Hm, Ht.
  repeat split; assumption.
Qed.

(** One tick of the skirmish: both workers and both bases are still
    there. *)
Lemma update_keeps_roster_witness :
  let e' := match Scenario.value (update 1 Demo.skirmish) Scenario.worldA with
            | Ok e' => e'
            | Throw _ => Demo.skirmish
            end in
  if e_gameOver Demo.skirmish
  then e' = Demo.skirmish
       /\ Scenario.after (update 1 Demo.skirmish) Scenario.worldA = Scenario.worldA
  else
    e_tick e' = e_tick Demo.skirmish + 1
    /\ (exists born, JsMap.keys (e_units e')
                     = (JsMap.keys (e_units Demo.skirmish) ++ born)%list)
    /\ JsMap.keys (e_buildings e') = JsMap.keys (e_buildings Demo.skirmish)
    /\ JsMap.keys (e_players e') = JsMap.keys (e_players Demo.skirmish)
    /\ e_map e' = e_map Demo.skirmish.
Proof.
  apply (update_keeps_roster 1 Demo.skirmish _ Scenario.worldA
           (Scenario.after (update 1 Demo.skirmish) Scenario.worldA)).
  vm_compute. reflexivity.
Defined.

(* ===================================================================== *)
(** * A duel of two humans                                                 *)
(* ===================================================================== *)

Lemma updateUnit_quiet (e : GameEngine) (uid : string) (w : World) :
  quiet e -> updateUnit e uid w = (Ok e, w).
Proof.
  intros (Hunits & _). unfold updateUnit.
  destruct (JsMap.get (e_units e) uid) as [unit|] eqn:Hget; [|reflexivity].
  rewrite Forall_forall in Hunits.
  destruct (Hunits unit (get_In _ _ _ Hget)) as [Hidle Hcool].
  rewrite Hidle, Hcool. reflexivity.
Qed.

Lemma updateBuilding_quiet (e : GameEngine) (bid : string) (w : World) :
  quiet e -> updateBuilding e bid w = (Ok e, w).
Proof.
  intros (_ & Hblds & _). unfold updateBuilding.
  destruct (JsMap.get (e_buildings e) bid) as [bld|] eqn:Hget; [|reflexivity].
  rewrite Forall_forall in Hblds.
  destruct (Hblds bld (get_In _ _ _ Hget)) as (Hq & Htower & Hattack).
  rewrite Hq, Hattack.
  replace (BuildingType_beq (b_type bld) tower) with false
    by (destruct (b_type bld); try reflexivity; contradiction).
  reflexivity.
Qed.

Lemma foldM_fixed {A S} (f : S -> A -> M S) (xs : list A) (s : S) (w : World) :
  (forall x, f s x w = (Ok s, w)) -> foldM f xs s w = (Ok s, w).
Proof.
  intros Hf. induction xs as [|x xs IH]; cbn [foldM]; [reflexivity|].
  now rewrite (bind_Ok _ _ _ _ _ (Hf x)).
Qed.

Lemma updateFogOfWar_frame (e e' : GameEngine) (w w' : World) :
  updateFogOfWar e w = (Ok e', w') ->
  exists d, e' = withDiscoveredTiles d e.
Proof.
  unfold updateFogOfWar. generalize (JsMap.values (e_players e)). intros players.
  assert (Hgen : forall e0, (exists d, e0 = withDiscoveredTiles d e) ->
                 forall w0, foldM updateFogFor players e0 w0 = (Ok e', w') ->
                 exists d, e' = withDiscoveredTiles d e).
  { induction players as [|p players IH]; intros e0 [d0 Hd0] w0 H; cbn [foldM] in H.
    - apply ret_Ok in H. destruct H as [<- _]. eauto.
    - run_bind H e1 E1. apply (IH e1) with (w0 := w1); [|assumption].
      unfold updateFogFor in E1. run_bind E1 found Ef. apply ret_Ok in E1.
      destruct E1 as [<- _]. subst e0. eexists. reflexivity. }
  intros H. apply (Hgen e) with (w0 := w); [|assumption].
  exists (e_discoveredTiles e). now destruct e.
Qed.

(** When nothing is going on, a tick advances the clock, refreshes the
    fog and runs the win check, and that is all. *)
Lemma update_quiet (deltaTime : Z) (e e' : GameEngine) (w w' : World) :
  quiet e -> e_gameOver e = false ->
  update deltaTime e w = (Ok e', w') ->
  exists d,
    e' = checkWinCondition
           (withDiscoveredTiles d (withProjectiles [] (withTick (e_tick e + 1) e))).
Proof.
  intros Hq Hgo H. unfold update in H. rewrite Hgo in H. cbv zeta in H.
  set (e0 := withTick (e_tick e + 1) e) in *.
  assert (Hq0 : quiet e0) by exact Hq.
  assert (Hunits : updateUnits e0 w = (Ok e0, w)).
  { unfold updateUnits. apply foldM_fixed. intros x. now apply updateUnit_quiet. }
  rewrite (bind_Ok _ _ _ _ _ Hunits) in H.
  assert (Hblds : updateBuildings e0 w = (Ok e0, w)).
  { unfold updateBuildings. apply foldM_fixed. intros x. now apply updateBuilding_quiet. }
  rewrite (bind_Ok _ _ _ _ _ Hblds) in H.
  assert (Hproj : updateProjectiles e0 w = (Ok (withProjectiles [] e0), w)).
  { unfold updateProjectiles. destruct Hq0 as (_ & _ & Hp & _). now rewrite Hp. }
  rewrite (bind_Ok _ _ _ _ _ Hproj) in H.
  assert (Heco : updateEconomy (withProjectiles [] e0) = withProjectiles [] e0).
  { unfold updateEconomy, aiActive. cbn [e_aiEnabled withProjectiles].
    destruct Hq0 as (_ & _ & _ & Hai). now rewrite Hai. }
  rewrite Heco in H.
  run_bind H e5 E5.
  destruct (updateFogOfWar_frame _ _ _ _ E5) as [d Hd]. subst e5.
  exists d.
  assert (Hai : e_aiEnabled
                  (checkWinCondition (withDiscoveredTiles d (withProjectiles [] e0)))
                = false).
  { destruct (checkWinCondition_roster (withDiscoveredTiles d (withProjectiles [] e0)))
      as (_ & _ & _ & _ & _ & Hsame).
    inversion Hsame as [[Hd' Ha' Hi']]. rewrite Ha'.
    destruct Hq as (_ & _ & _ & Hai). exact Hai. }
  rewrite Hai in H. cbn [andb] in H. apply ret_Ok in H. destruct H as [<- _].
  reflexivity.
Qed.

Lemma newGameEngine_shape (seed : Z) (d : Difficulty) (e : GameEngine) (w w' : World) :
  newGameEngine seed d w = (Ok e, w') ->
  exists m,
    e = mkEngine 0 m JsMap.empty JsMap.empty JsMap.empty [] JsMap.empty JsMap.empty
          false None None d false None.
Proof.
  unfold newGameEngine. intros H.
  apply bind_inv in H. destruct H as (m & w1 & _ & H).
  apply ret_Ok in H. destruct H as [<- _]. now exists m.
Qed.

Lemma duelReady_modifyPlayer (h g name : string) (e : GameEngine) (id : string)
  (f : Player -> Player) :
  (forall p, pl_name (f p) = pl_name p) ->
  duelReady h g name e -> duelReady h g name (modifyPlayer id f e).
Proof.
  intros Hf Hready. unfold modifyPlayer.
  destruct (JsMap.get (e_players e) id) as [p|] eqn:Hp; [|assumption].
  destruct Hready as (Hq & Hgo & Hkeys & (gp & Hg & Hname) & Hh & Hbases).
  unfold duelReady, quiet, onlyBasesOf in *.
  cbn [withPlayers e_units e_buildings e_projectiles e_aiEnabled e_gameOver e_players].
  split; [assumption|]. split; [assumption|].
  split; [now rewrite (keys_set_existing _ _ p)|].
  split; [|split; [now apply get_set_keeps | assumption]].
  destruct (string_dec id g) as [->|Hne].
  - rewrite get_set_same. exists (f p). split; [reflexivity|].
    rewrite Hf. rewrite Hp in Hg. now inversion Hg; subst.
  - rewrite get_set_other by assumption. eauto.
Qed.

Lemma createBase_ready (h g name : string) (tx ty : number) (e e' : GameEngine)
  (w w' : World) :
  duelReady h g name e ->
  createBuildingAtPosition base h tx ty e w = (Ok e', w') ->
  duelReady h g name e' /\ ownsBase e' h = true.
Proof.
  intros Hready H. unfold createBuildingAtPosition in H. cbv zeta in H.
  destruct (generateId_runs w) as (id & w1 & Hid).
  rewrite (bind_Ok _ _ _ _ _ Hid) in H.
  change (bs_supply (BUILDING_STATS base)) with (Some $10) in H. cbv beta iota in H.
  change (truthy $10) with true in H. cbv iota in H.
  apply ret_Ok in H. destruct H as [<- _].
  set (b := mkBuilding id h _ _ _ _ _ base _ _ _ _ _).
  assert (Hbuilt : duelReady h g name (withBuildings (JsMap.set (e_buildings e) id b) e)).
  { destruct Hready as ((Hu & Hb & Hp & Hai) & Hgo & Hkeys & Hguest & Hh & Hbases).
    unfold duelReady, quiet, onlyBasesOf in *.
    cbn [withBuildings e_units e_buildings e_projectiles e_aiEnabled e_gameOver
         e_players e_tick].
    repeat split; try assumption; try tauto.
    - apply Forall_values_set; [assumption|]. repeat split. discriminate.
    - apply Forall_values_set; [assumption|]. split; reflexivity. }
  split.
  - apply duelReady_modifyPlayer; [reflexivity | assumption].
  - unfold ownsBase. rewrite modifyPlayer_buildings.
    cbn [withBuildings e_buildings].
    apply existsb_exists. exists b. split.
    + apply get_In with (k := id). apply get_set_same.
    + unfold isBaseOwnedBy. cbn [b b_type b_ownerId BuildingType_beq].
      now rewrite String.eqb_refl.
Qed.

Lemma spawnUnit__ready (h g name : string) (t : UnitType) (owner : string)
  (e e' : GameEngine) (w w' : World) :
  duelReady h g name e ->
  spawnUnit_ t owner e w = (Ok e', w') ->
  duelReady h g name e' /\ e_buildings e' = e_buildings e.
Proof.
  intros Hready H.
  assert (Hshape : exists id u, e' = withUnits (JsMap.set (e_units e) id u) e
                                /\ u_state u = idle
                                /\ u_attackCooldownRemaining u = 0).
  { unfold spawnUnit_, spawnUnit in H.
    destruct (JsMap.get (e_players e) owner) as [player|].
    2:{ unfold bind, throw in H. discriminate. }
    destruct (find (isBaseOf owner) (JsMap.values (e_buildings e))) as [b|].
    - unfold bind, mathRandom, ret in H. cbv beta iota in H.
      destruct (generateId_runs
                  (mkWorld (clock w) (clock_reads w) (rng w) (S (S (rng_draws w)))
                     (idCounter w))) as (id & w1 & Hid).
      cbn [clock clock_reads rng rng_draws idCounter] in H.
      rewrite Hid in H. cbn [snd] in H. injection H as <- _.
      do 2 eexists. split; [reflexivity|]. split; reflexivity.
    - unfold bind, ret in H. cbv beta iota in H.
      destruct (generateId_runs w) as (id & w1 & Hid).
      rewrite Hid in H. cbn [snd] in H. injection H as <- _.
      do 2 eexists. split; [reflexivity|]. split; reflexivity. }
  destruct Hshape as (id & u & -> & Hidle & Hcool).
  split; [|reflexivity].
  destruct Hready as ((Hu & Hb & Hp & Hai) & Hgo & Hkeys & Hguest & Hh & Hbases).
  unfold duelReady, quiet, onlyBasesOf in *.
  cbn [withUnits e_units e_buildings e_projectiles e_aiEnabled e_gameOver e_players
       e_tick].
  repeat split; try assumption; try tauto.
  apply Forall_values_set; [assumption | now split].
Qed.

Lemma initializeGame_ready (h g name : string) (hostPlayer : Player)
  (e e' : GameEngine) (w w' : World) :
  duelReady h g name e ->
  find isHost (JsMap.values (e_players e)) = Some hostPlayer ->
  pl_id hostPlayer = h ->
  initializeGame e w = (Ok e', w') ->
  duelReady h g name e' /\ ownsBase e' h = true.
Proof.
  intros Hready Hfind Hid H. unfold initializeGame in H. cbv zeta in H.
  rewrite Hfind, Hid in H.
  run_bind H e1 E1.
  destruct (createBase_ready _ _ _ _ _ _ _ _ _ Hready E1) as [Hr1 Hbase1].
  assert (Hnoai : forall x, duelReady h g name x -> aiActive x = None).
  { intros x ((_ & _ & _ & Hai) & _). unfold aiActive. now rewrite Hai. }
  rewrite (Hnoai e1 Hr1) in H.
  rewrite (bind_Ok (ret e1) _ w0 w0 e1 eq_refl) in H.
  run_bind H e3 E3.
  run_bind E3 ea Ea. run_bind E3 eb Eb.
  destruct (spawnUnit__ready _ _ _ _ _ _ _ _ _ Hr1 Ea) as [Hra Hba].
  destruct (spawnUnit__ready _ _ _ _ _ _ _ _ _ Hra Eb) as [Hrb Hbb].
  destruct (spawnUnit__ready _ _ _ _ _ _ _ _ _ Hrb E3) as [Hr3 Hb3].
  rewrite (Hnoai e3 Hr3) in H. apply ret_Ok in H. destruct H as [<- _].
  split; [assumption|].
  unfold ownsBase in *. now rewrite Hb3, Hbb, Hba.
Qed.

Lemma onlyBasesOf_other (h g : string) (e : GameEngine) :
  onlyBasesOf h e -> h <> g -> ownsBase e g = false.
Proof.
  intros Hbases Hne. unfold ownsBase. apply existsb_false_Forall.
  eapply Forall_impl; [|exact Hbases].
  intros b [_ Hown]. unfold isBaseOwnedBy. rewrite Hown.
  rewrite (proj2 (String.eqb_neq h g) Hne). apply andb_false_r.
Qed.

(** The engine [startGame] has after its loop over the two connections of
    a duel: empty but for the two players, in join order. *)
Lemma joined_duel (m : GameMap) (d : Difficulty) (h g : string)
  (hc gc : PlayerConnection) :
  h <> g -> pc_team hc = host ->
  let joined :=
    fold_left (fun en kv => addPlayer (fst kv) (pc_name (snd kv)) (pc_team (snd kv))
                              (pc_color (snd kv)) en)
      [(h, hc); (g, gc)]
      (mkEngine 0 m JsMap.empty JsMap.empty JsMap.empty [] JsMap.empty JsMap.empty
         false None None d false None) in
  exists ph,
    duelReady h g (pc_name gc) joined
    /\ find isHost (JsMap.values (e_players joined)) = Some ph
    /\ pl_id ph = h.
Proof.
  intros Hne Hteam joined.
  assert (Hhg : String.eqb h g = false) by now apply String.eqb_neq.
  unfold joined. cbn [fold_left fst snd]. unfold addPlayer.
  unfold duelReady, quiet, onlyBasesOf.
  cbn [e_players e_units e_buildings e_projectiles e_aiEnabled e_gameOver e_tick
       withPlayers withDiscoveredTiles JsMap.set JsMap.empty].
  rewrite Hhg.
  cbn [JsMap.values JsMap.keys map fst snd JsMap.get find]. unfold isHost.
  cbn [pl_team]. rewrite Hteam, Hhg, !String.eqb_refl. cbn [Team_beq].
  eexists. split; [|split; reflexivity].
  repeat split; try constructor.
  - eexists. split; reflexivity.
  - discriminate.
Qed.

(** [startGame]'s engine: constructed, the room's players added, then
    initialized. *)
Lemma startEngine_body (room : GameRoom) :
  startEngine room
  = fun w =>
      bind (newGameEngine (cfg_mapSeed (room_config room))
              (cfg_difficulty (room_config room)))
        (fun engine =>
           initializeGame
             (fold_left (fun en kv => addPlayer (fst kv) (pc_name (snd kv))
                                        (pc_team (snd kv)) (pc_color (snd kv)) en)
                (room_players room) engine)) w.
Proof. reflexivity. Qed.

Lemma startEngine_duel
  (room : GameRoom) (h g : string) (hc gc : PlayerConnection)
  (e : GameEngine) (w w1 : World) :
  room_players room = [(h, hc); (g, gc)] ->
  pc_team hc = host -> h <> g ->
  startEngine room w = (Ok e, w1) ->
  duelReady h g (pc_name gc) e /\ ownsBase e h = true.
Proof.
  intros Hplayers Hteam Hne Hstart.
  rewrite startEngine_body in Hstart.
  apply bind_inv in Hstart. destruct Hstart as (e0 & w0 & Hnew & Hstart).
  destruct (newGameEngine_shape _ _ _ _ _ Hnew) as [m ->].
  rewrite Hplayers in Hstart.
  destruct (joined_duel m (cfg_difficulty (room_config room)) h g hc gc Hne Hteam)
    as (ph & Hready & Hfind & Hid).
  exact (initializeGame_ready h g (pc_name gc) ph _ e w0 w1 Hready Hfind Hid Hstart).
Qed.

Lemma first_tick_of_duel
  (h g name : string) (deltaTime : Z) (e e' : GameEngine) (w w' : World) :
  duelReady h g name e -> ownsBase e h = true -> h <> g -> h <> "" ->
  update deltaTime e w = (Ok e', w') ->
  e_gameOver e' = true
  /\ e_winner e' = Some h
  /\ e_winnerReason e' = Some (strOr (Some name) "Player" ++ " eliminated")
  /\ e_tick e' = 1.
Proof.
  intros Hr Hbase Hne Hh Hupdate.
  assert (Hhg : String.eqb h g = false) by now apply String.eqb_neq.
  destruct Hr as (Hq & (Hgo & Htick0) & Hkeys & (gp & Hgp & Hgname) & _ & Hbases).
  destruct (update_quiet _ _ _ _ _ Hq Hgo Hupdate) as [d ->].
  pose proof (onlyBasesOf_other h g e Hbases Hne) as Hnobase.
  set (x := withDiscoveredTiles d (withProjectiles [] (withTick (e_tick e + 1) e))).
  assert (Hown : forall id, ownsBase x id = ownsBase e id) by reflexivity.
  assert (Hover : e_gameOver x = false) by exact Hgo.
  assert (Hxkeys : JsMap.keys (e_players x) = [h; g]) by exact Hkeys.
  assert (Hxg : JsMap.get (e_players x) g = Some gp) by exact Hgp.
  assert (Hxtick : e_tick x = 1) by (cbn [x e_tick withDiscoveredTiles withProjectiles
                                             withTick]; now rewrite Htick0).
  clearbody x.
  unfold checkWinCondition. rewrite Hover, firstWithoutBase_spec, Hxkeys.
  cbn [find]. rewrite !Hown, Hbase, Hnobase. cbn [negb filter].
  rewrite Hhg, String.eqb_refl. cbn [negb].
  rewrite (winner_of_other x h Hh), Hown, Hbase, Hxg.
  cbn [option_map withOutcome e_gameOver e_winner e_winnerReason e_tick].
  rewrite Hgname. repeat split. exact Hxtick.
Qed.

(** X19.  A duel of two humans is over at its first tick.  In a room of
    a host and one more player, [startGame]'s engine gives a base to the
    host only; the first [update] therefore finds the other player
    without a base, ends the game and names the host the winner, with the
    reason that the other player was eliminated. *)
Theorem duel_is_over_at_the_first_tick
  (room : GameRoom) (h g : string) (hc gc : PlayerConnection)
  (deltaTime : Z) (e e' : GameEngine) (w w1 w2 : World) :
  room_players room = [(h, hc); (g, gc)] ->
  pc_team hc = host -> h <> g -> h <> "" ->
  startEngine room w = (Ok e, w1) ->
  update deltaTime e w1 = (Ok e', w2) ->
  e_gameOver e' = true
  /\ e_winner e' = Some h
  /\ e_winnerReason e' = Some (strOr (Some (pc_name gc)) "Player" ++ " eliminated")
  /\ e_tick e' = 1.
Proof.
  intros Hplayers Hteam Hne Hh Hstart Hupdate.
  destruct (startEngine_duel room h g hc gc e w w1 Hplayers Hteam Hne Hstart)
    as [Hready Hbase].
  exact (first_tick_of_duel h g (pc_name gc) deltaTime e e' w1 w2
           Hready Hbase Hne Hh Hupdate).
Qed.

(** Alice and Bob's duel on the map of seed 424242. *)
Lemma duel_is_over_at_the_first_tick_witness :
  e_gameOver Play.duelAfterTick = true
  /\ e_winner Play.duelAfterTick = Some "alice"
  /\ e_winnerReason Play.duelAfterTick
     = Some (strOr (Some (pc_name Play.guestSeat)) "Player" ++ " eliminated")
  /\ e_tick Play.duelAfterTick = 1.
Proof.
  apply (duel_is_over_at_the_first_tick Play.duelRoom "alice" "bob"
           Play.hostSeat Play.guestSeat 1 Play.duelEngine Play.duelAfterTick
           Scenario.worldA
           (Scenario.after (startEngine Play.duelRoom) Scenario.worldA)
           (Scenario.after (update 1 Play.duelEngine)
              (Scenario.after (startEngine Play.duelRoom) Scenario.worldA))).
  - reflexivity.
  - reflexivity.
  - discriminate.
  - discriminate.
  - vm_compute. reflexivity.
  - vm_compute. reflexivity.
Defined.
